(** * InnerEye/ML/lightning_models.py: the training-loop adapter layer

    A shallow embedding of the Lightning modules of
    [InnerEye/ML/lightning_models.py].  Every Python object is a dictionary of
    attributes, every method is a computation over the interpreter state that
    either returns or raises, and the writes made before an exception is raised
    stay in place, as they do in Python. *)

From Stdlib Require Import ZArith Lia.
From Stdlib Require PrimFloat SpecFloat FloatOps.
From stdpp Require Import base option list gmap strings.

Local Open Scope string_scope.
Local Open Scope Z_scope.

(** ** Python numbers *)

Abbreviation float := PrimFloat.float.

(** [float(z)] for a Python int: round to nearest even, [OverflowError] past
    the largest double. *)
Definition float_of_int (z : Z) : option float :=
  let f := FloatOps.SF2Prim (SpecFloat.binary_normalize FloatOps.prec FloatOps.emax z 0 false) in
  if PrimFloat.is_infinity f then None else Some f.

Definition f0 : float := PrimFloat.zero.
Definition f1 : float := PrimFloat.one.

(** ** Exceptions and outcomes *)

Inductive exn : Type :=
| AttributeError (name : string)
| NotImplementedError (msg : string)
| TypeError
| OverflowError
| IndexError
| KeyError.

Inductive outcome (A : Type) : Type :=
| Ok (a : A)
| Raise (e : exn).
Arguments Ok {A} a.
Arguments Raise {A} e.

(** A method is a function of the interpreter state; a raise keeps the state
    reached so far. *)
Definition M (S A : Type) : Type := S -> outcome A * S.

Definition ret {S A} (a : A) : M S A := fun s => (Ok a, s).
Definition raise {S A} (e : exn) : M S A := fun s => (Raise e, s).
Definition bind {S A B} (m : M S A) (k : A -> M S B) : M S B :=
  fun s => match m s with
           | (Ok a, s') => k a s'
           | (Raise e, s') => (Raise e, s')
           end.
Definition gets {S A} (f : S -> A) : M S A := fun s => (Ok (f s), s).
Definition modify {S} (f : S -> S) : M S unit := fun s => (Ok tt, f s).
Definition lift_option {S A} (e : exn) (o : option A) : M S A :=
  match o with Some a => ret a | None => raise e end.

#[export] Instance M_ret {S} : MRet (M S) := fun A => @ret S A.
#[export] Instance M_bind {S} : MBind (M S) := fun A B k m => @bind S A B m k.

Definition result {S A} (r : outcome A * S) : outcome A := fst r.
Definition final {S A} (r : outcome A * S) : S := snd r.

(** ** Constants of the module *)

Section Constants.
Import PrimFloat.
Definition MAX_ITEM_LOAD_TIME_SEC : float := 0.5%float.
Definition MAX_LOAD_TIME_WARNINGS : Z := 3.
End Constants.

(** ** Collaborators outside this file

    The model, the loss functions, the tensor library, the metrics utilities and
    the system clock are not part of [lightning_models.py]; the code is
    parametric in them. *)

(** A Python number: an unbounded int or a double. *)
Inductive num : Type := NInt (z : Z) | NFloat (f : float).

Inductive MetricType : Type :=
| LOSS | DICE | VOXEL_COUNT | LEARNING_RATE | SECONDS_PER_EPOCH | PATCH_CENTER.

Inductive ModelExecutionMode : Type := TRAIN | VAL | TEST.

#[export] Instance ModelExecutionMode_eq_dec : EqDecision ModelExecutionMode.
Proof. solve_decision. Defined.

(** The fields of the configuration object that the module reads. *)
Record Config : Type := mkConfig {
  ground_truth_ids : list string;
  effective_random_seed : Z;
  use_gpu : bool;
  compute_mean_teacher_model : bool
}.

(** The tensor library. *)
Class Torch : Type := {
  tensor : Type;
  (** [torch.nn.functional.softmax(t, dim)] *)
  softmax : tensor -> Z -> tensor;
  (** [t.item()] and [t.float()] *)
  tensor_item : tensor -> float;
  tensor_float : tensor -> tensor
}.

(** [CroppedSample]: the fields of a batched sample that the module reads. *)
Record CroppedSample `{Torch} : Type := mkCroppedSample {
  image : tensor;
  labels : tensor;
  mask_center_crop : tensor;
  labels_center_crop : tensor;
  center_indices : tensor
}.
Arguments mkCroppedSample {_} _ _ _ _ _.

(** Modelled from the spec: the class [MetricsDict] of
    [InnerEye/Common/metrics_dict.py] is missing.  It is the mutable metrics
    accumulator keyed by metric name and a hue: the hues it was created with,
    the values added so far in the order they were added, and the
    diagnostics. *)
Record MetricsDict `{Torch} : Type := mkMetricsDict {
  hues : list string;
  values : list (string * MetricType * num);
  diagnostics : list (MetricType * tensor)
}.
Arguments mkMetricsDict {_} _ _ _.

Class Collaborators `{Torch} : Type := {
  rng_state : Type;
  batch : Type;
  data_loader : Type;
  (** [time.time()]: the n-th reading of the system clock. *)
  clock : nat -> float;
  BACKGROUND_CLASS_NAME : string;
  DEFAULT_HUE_KEY : string;
  (** the network built by [config.create_model()], applied to its inputs *)
  model_call : list tensor -> tensor;
  segmentation_loss : tensor -> tensor -> tensor;
  scalar_loss : tensor -> tensor -> tensor;
  post_loss_logits_normalization : tensor -> tensor;
  CroppedSample_from_dict : batch -> CroppedSample;
  apply_mask_to_posteriors : tensor -> tensor -> tensor;
  posteriors_to_segmentation : tensor -> tensor;
  (** one row per crop, one column per class *)
  compute_dice_across_patches : tensor -> tensor -> bool -> list (list float);
  get_number_of_voxels_per_class : tensor -> list num;
  get_scalar_model_inputs_and_labels : Config -> batch -> list tensor * tensor;
  aggregate_segmentation_metrics : MetricsDict -> MetricsDict;
  MetricsDict_average : MetricsDict -> MetricsDict;
  create_metrics_dict_for_scalar_models : Config -> MetricsDict;
  (** the generator state that [ml_util.set_random_seed(seed)] installs *)
  set_random_seed : Z -> rng_state;
  create_data_loaders : Config -> list (ModelExecutionMode * data_loader)
}.

Section Model.
Context `{Collaborators}.

(** [MetricsDict(hues=...)]: no values yet. *)
Definition MetricsDict_new (hs : list string) : MetricsDict :=
  mkMetricsDict hs [] [].

Definition MetricsDict_add_metric (m : MetricsDict) (t : MetricType) (v : num) (hue : string)
  : MetricsDict :=
  mkMetricsDict (hues m) (values m ++ [(hue, t, v)]) (diagnostics m).

Definition MetricsDict_add_diagnostics (m : MetricsDict) (t : MetricType) (d : tensor)
  : MetricsDict :=
  mkMetricsDict (hues m) (values m) (diagnostics m ++ [(t, d)]).

(** [get_hue_names(include_default=False)] *)
Definition MetricsDict_get_hue_names (m : MetricsDict) : list string := hues m.

(** ** Python values *)

Definition loc : Type := nat.

#[warnings="-register-all"]
Inductive value : Type :=
| VNone
| VBool (b : bool)
| VInt (z : Z)
| VFloat (f : float)
| VList (l : list value)
| VMetrics (l : loc)              (* a MetricsDict object, by reference *)
| VSnapshot (s : rng_state)       (* a RandomStateSnapshot *)
| VConfig (c : Config)
| VModel                          (* the network of [config.create_model()] *)
| VSegmentationLoss               (* the callable of [create_segmentation_loss_function] *)
| VScalarLoss                     (* the callable of [create_scalar_loss_function] *)
| VNormalization                  (* [get_post_loss_logits_normalization_function()] *)
| VLoaders (d : list (ModelExecutionMode * data_loader)).

(** The number a value stands for in arithmetic ([bool] is a subclass of
    [int]). *)
Definition as_num (v : value) : option num :=
  match v with
  | VBool b => Some (NInt (Z.b2z b))
  | VInt z => Some (NInt z)
  | VFloat f => Some (NFloat f)
  | _ => None
  end.

Definition of_num (n : num) : value :=
  match n with NInt z => VInt z | NFloat f => VFloat f end.

Definition num_to_float (n : num) : outcome float :=
  match n with
  | NFloat f => Ok f
  | NInt z => match float_of_int z with Some f => Ok f | None => Raise OverflowError end
  end.

(** The binary operators [+] and [-]: int with int stays int, anything with a
    float is computed in floats. *)
Definition num_binop (fz : Z -> Z -> Z) (ff : float -> float -> float) (a b : num)
  : outcome value :=
  match a, b with
  | NInt x, NInt y => Ok (VInt (fz x y))
  | _, _ =>
      match num_to_float a, num_to_float b with
      | Ok x, Ok y => Ok (VFloat (ff x y))
      | Raise e, _ => Raise e
      | _, Raise e => Raise e
      end
  end.

Definition py_binop (fz : Z -> Z -> Z) (ff : float -> float -> float) (a b : value)
  : outcome value :=
  match as_num a, as_num b with
  | Some x, Some y => num_binop fz ff x y
  | _, _ => Raise TypeError
  end.

Definition py_add : value -> value -> outcome value := py_binop Z.add PrimFloat.add.

(** [float(v)] as the float operators apply it to their other operand. *)
Definition value_to_float (v : value) : outcome float :=
  match as_num v with
  | Some n => num_to_float n
  | None => Raise TypeError
  end.

(** [a - v] for a float [a], as in [time.time() - self.item_start_time]. *)
Definition float_sub_value (a : float) (v : value) : outcome float :=
  match value_to_float v with
  | Ok b => Ok (PrimFloat.sub a b)
  | Raise e => Raise e
  end.

(** [v + b] for a float [b], as in [self.total_load_time += item_load_time]. *)
Definition value_add_float (v : value) (b : float) : outcome float :=
  match value_to_float v with
  | Ok a => Ok (PrimFloat.add a b)
  | Raise e => Raise e
  end.

(** Exact comparison of a float with an int, as Python does it: [None] for a
    NaN, which compares false with everything. *)
Definition float_cmp_int (f : float) (z : Z) : option comparison :=
  match FloatOps.Prim2SF f with
  | SpecFloat.S754_nan => None
  | SpecFloat.S754_infinity s => Some (if s then Lt else Gt)
  | SpecFloat.S754_zero _ => Some (Z.compare 0 z)
  | SpecFloat.S754_finite s m e =>
      let v := SpecFloat.cond_Zopp s (Zpos m) in
      Some (if 0 <=? e then Z.compare (v * 2 ^ e) z else Z.compare v (z * 2 ^ (- e)))
  end.

(** [a < b] on numbers *)
Definition num_lt (a b : num) : bool :=
  match a, b with
  | NInt x, NInt y => x <? y
  | NFloat x, NFloat y => PrimFloat.ltb x y
  | NFloat x, NInt y => match float_cmp_int x y with Some Lt => true | _ => false end
  | NInt x, NFloat y => match float_cmp_int y x with Some Gt => true | _ => false end
  end.

Definition py_lt (a b : value) : outcome bool :=
  match as_num a, as_num b with
  | Some x, Some y => Ok (num_lt x y)
  | _, _ => Raise TypeError
  end.

(** [a > b] is [b < a] on numbers. *)
Definition py_gt (a b : value) : outcome bool := py_lt b a.

(** Truth value of an object, as tested by [if]. *)
Definition truthy (v : value) : bool :=
  match v with
  | VNone => false
  | VBool b => b
  | VInt z => negb (z =? 0)
  | VFloat f => negb (PrimFloat.eqb f f0)
  | VList l => match l with [] => false | _ => true end
  | _ => true
  end.

(** The format specification [:0.2f] accepts numbers only. *)
Definition format_2f (v : value) : outcome value :=
  match as_num v with Some _ => Ok v | None => Raise TypeError end.

(** ** The interpreter state seen by a Lightning module *)

Inductive level : Type := INFO | WARNING.

(** The records passed to [logging]; the fields are the values interpolated
    into the message. *)
Inductive message : Type :=
| EpochTook (epoch : Z) (is_training : bool) (seconds : float) (load : value) (batches : value)
| LoadersNotFastEnough
| BatchesExceeded (exceeded batches extra : value)
| LoadedFirstMinibatch (is_training : bool) (seconds : float)
| SlowMinibatch (is_training : bool) (batch_idx : Z) (seconds : float).

(** The [loss] handed to [write_loss]: a tensor or any other value. *)
Inductive loss_value : Type :=
| LossTensor (t : tensor)
| LossValue (v : value).

(** A call of [metrics.store_epoch_metrics]. *)
Record stored_epoch : Type := mkStored {
  stored_is_training : bool;
  stored_epoch_number : Z;
  stored_metrics : MetricsDict
}.

Record world : Type := mkWorld {
  self_dict : gmap string value;       (* the attributes of [self] *)
  heap : loc -> MetricsDict;            (* the MetricsDict objects *)
  next_loc : loc;                       (* the next unused reference *)
  ticks : nat;                          (* readings of the clock so far *)
  rng : rng_state;                      (* the global random generators *)
  trainer : option (list (list float)); (* [get_last_lr()] of each scheduler *)
  current_epoch : Z;
  log_records : list (level * message);
  lightning_log : list (string * loss_value);
  stored_epochs : list stored_epoch
}.

Definition set_self_dict (f : gmap string value -> gmap string value) (w : world) : world :=
  mkWorld (f (self_dict w)) (heap w) (next_loc w) (ticks w) (rng w) (trainer w)
          (current_epoch w) (log_records w) (lightning_log w) (stored_epochs w).

Definition set_heap (h : loc -> MetricsDict) (n : loc) (w : world) : world :=
  mkWorld (self_dict w) h n (ticks w) (rng w) (trainer w)
          (current_epoch w) (log_records w) (lightning_log w) (stored_epochs w).

Definition set_ticks (n : nat) (w : world) : world :=
  mkWorld (self_dict w) (heap w) (next_loc w) n (rng w) (trainer w)
          (current_epoch w) (log_records w) (lightning_log w) (stored_epochs w).

Definition set_rng (r : rng_state) (w : world) : world :=
  mkWorld (self_dict w) (heap w) (next_loc w) (ticks w) r (trainer w)
          (current_epoch w) (log_records w) (lightning_log w) (stored_epochs w).

Definition set_log_records (l : list (level * message)) (w : world) : world :=
  mkWorld (self_dict w) (heap w) (next_loc w) (ticks w) (rng w) (trainer w)
          (current_epoch w) l (lightning_log w) (stored_epochs w).

Definition set_lightning_log (l : list (string * loss_value)) (w : world) : world :=
  mkWorld (self_dict w) (heap w) (next_loc w) (ticks w) (rng w) (trainer w)
          (current_epoch w) (log_records w) l (stored_epochs w).

Definition set_stored_epochs (l : list stored_epoch) (w : world) : world :=
  mkWorld (self_dict w) (heap w) (next_loc w) (ticks w) (rng w) (trainer w)
          (current_epoch w) (log_records w) (lightning_log w) l.

(** *** Primitive operations *)

Definition lift {A} (o : outcome A) : M world A := fun w => (o, w).

(** [self.name] *)
Definition getattr (name : string) : M world value :=
  fun w => match self_dict w !! name with
           | Some v => (Ok v, w)
           | None => (Raise (AttributeError name), w)
           end.

(** [self.name = v] *)
Definition setattr (name : string) (v : value) : M world unit :=
  modify (set_self_dict (insert name v)).

(** [time.time()] *)
Definition time_time : M world float :=
  fun w => (Ok (clock (ticks w)), set_ticks (S (ticks w)) w).

Definition logging (l : level) (m : message) : M world unit :=
  modify (fun w => set_log_records (log_records w ++ [(l, m)]) w).

(** A new MetricsDict object. *)
Definition new_metrics (m : MetricsDict) : M world value :=
  fun w => (Ok (VMetrics (next_loc w)),
            set_heap (fun l => if decide (l = next_loc w) then m else heap w l)
                     (S (next_loc w)) w).

(** The object a value refers to, for calling a MetricsDict method [meth] on
    it. *)
Definition metrics_of (meth : string) (v : value) : M world loc :=
  match v with
  | VMetrics l => mret l
  | _ => raise (AttributeError meth)
  end.

Definition update_metrics (l : loc) (f : MetricsDict -> MetricsDict) : M world unit :=
  modify (fun w => set_heap (fun l' => if decide (l' = l) then f (heap w l) else heap w l')
                            (next_loc w) w).

(** The number that [add_metric] stores. *)
Definition metric_value_of (v : value) : M world num :=
  match as_num v with Some n => mret n | None => raise TypeError end.

(** [v.add_metric(t, x, hue)]: the method is looked up on [v] before the
    argument [x] is evaluated. *)
Definition add_metric (v : value) (t : MetricType) (x : M world value) (hue : string)
  : M world unit :=
  l ← metrics_of "add_metric" v;
  x ← x;
  n ← metric_value_of x;
  update_metrics l (fun m => MetricsDict_add_metric m t n hue).

(** [v.add_diagnostics(t, d)] *)
Definition add_diagnostics (v : value) (t : MetricType) (d : tensor) : M world unit :=
  l ← metrics_of "add_diagnostics" v;
  update_metrics l (fun m => MetricsDict_add_diagnostics m t d).

(** [v.attr] for an attribute of the configuration object. *)
Definition config_of (attr : string) (v : value) : M world Config :=
  match v with
  | VConfig c => mret c
  | _ => raise (AttributeError attr)
  end.

(** [v.append(x)] *)
Definition list_append (v x : value) : M world value :=
  match v with
  | VList l => mret (VList (l ++ [x]))
  | _ => raise (AttributeError "append")
  end.

(** ** class InnerEyeLightning(LightningModule) *)

Inductive cls : Type := InnerEyeLightning | SegmentationLightning | ScalarLightning.

(** [InnerEyeLightning.__init__] *)
Definition InnerEyeLightning_init (config : Config) : M world unit :=
  setattr "config" (VConfig config);;
  setattr "epoch_start_time" (VInt 0);;
  setattr "item_start_time" (VInt 0);;
  setattr "num_load_time_warnings" (VInt 0);;
  setattr "num_load_time_exceeded" (VInt 0);;
  setattr "num_batches" (VInt 0);;
  setattr "total_extra_load_time" (VFloat f0);;
  setattr "total_load_time" (VFloat f0);;
  setattr "train_metrics_per_epoch" (VList []);;
  setattr "validation_metrics_per_epoch" (VList []);;
  m ← new_metrics (MetricsDict_new []);
  setattr "metrics" m;;
  setattr "random_state" VNone.

(** [configure_optimizers]: the optimizer and the scheduler are built outside;
    the module only hands over its configuration and its model. *)
Definition configure_optimizers : M world unit :=
  _ ← getattr "config";
  _ ← getattr "model";
  mret tt.

Definition reset_timers : M world unit :=
  t ← time_time;
  setattr "epoch_start_time" (VFloat t);;
  t ← time_time;
  setattr "item_start_time" (VFloat t);;
  setattr "num_load_time_warnings" (VInt 0);;
  setattr "num_load_time_exceeded" (VInt 0);;
  setattr "total_extra_load_time" (VFloat f0);;
  setattr "total_load_time" (VFloat f0);;
  setattr "num_batches" (VInt 0).

Definition batch_start (batch_idx : Z) (is_training : bool) : M world unit :=
  item_finish_time ← time_time;
  start ← getattr "item_start_time";
  item_load_time ← lift (float_sub_value item_finish_time start);
  total ← getattr "total_load_time";
  total ← lift (value_add_float total item_load_time);
  setattr "total_load_time" (VFloat total);;
  if batch_idx =? 0 then
    logging INFO (LoadedFirstMinibatch is_training item_load_time)
  else if PrimFloat.ltb MAX_ITEM_LOAD_TIME_SEC item_load_time then
    n ← getattr "num_load_time_exceeded";
    n ← lift (py_add n (VInt 1));
    setattr "num_load_time_exceeded" n;;
    extra ← getattr "total_extra_load_time";
    extra ← lift (value_add_float extra item_load_time);
    setattr "total_extra_load_time" (VFloat extra);;
    warnings ← getattr "num_load_time_warnings";
    below ← lift (py_lt warnings (VInt MAX_LOAD_TIME_WARNINGS));
    if below : bool then
      logging WARNING (SlowMinibatch is_training batch_idx item_load_time);;
      warnings ← getattr "num_load_time_warnings";
      warnings ← lift (py_add warnings (VInt 1));
      setattr "num_load_time_warnings" warnings
    else mret tt
  else mret tt.

Definition on_train_batch_start (batch_idx : Z) : M world unit :=
  batch_start batch_idx true.

Definition on_validation_batch_start (batch_idx : Z) : M world unit :=
  batch_start batch_idx false.

Definition on_batch_end : M world unit :=
  t ← time_time;
  setattr "item_start_time" (VFloat t);;
  n ← getattr "num_batches";
  n ← lift (py_add n (VInt 1));
  setattr "num_batches" n.

(** [InnerEyeLightning.aggregate_metrics] *)
Definition InnerEyeLightning_aggregate_metrics : M world value :=
  raise (NotImplementedError "This method must be overwritten in a derived class.").

(** [metrics = self.metrics_train if is_training else self.metrics_val] *)
Definition metrics_train_or_val (is_training : bool) : M world value :=
  if is_training then getattr "metrics_train" else getattr "metrics_val".

Definition write_metric (is_training : bool) (metric_type : MetricType) (metric_value : value)
    (hue : string) : M world unit :=
  metrics ← metrics_train_or_val is_training;
  add_metric metrics metric_type (mret metric_value) hue.

(** [self.log(name, loss)] of the Lightning base class. *)
Definition self_log (name : string) (loss : loss_value) : M world unit :=
  modify (fun w => set_lightning_log (lightning_log w ++ [(name, loss)]) w).

Definition write_loss (is_training : bool) (loss : loss_value) : M world unit :=
  let metric_name := if is_training then "train_loss" else "val_loss" in
  self_log metric_name loss;;
  let loss_scalar :=
    match loss with
    | LossTensor t => VFloat (tensor_item (tensor_float t))
    | LossValue v => v
    end in
  metrics ← metrics_train_or_val is_training;
  add_metric metrics LOSS (mret loss_scalar) DEFAULT_HUE_KEY.

(** [self.trainer.lr_schedulers[0]['scheduler'].get_last_lr()[0]] *)
Definition last_learning_rate : M world float :=
  fun w => match trainer w with
           | None => (Raise (AttributeError "lr_schedulers"), w)
           | Some [] => (Raise IndexError, w)
           | Some ([] :: _) => (Raise IndexError, w)
           | Some ((lr :: _) :: _) => (Ok lr, w)
           end.

(** [metrics.store_epoch_metrics(logger, df_logger, epoch, result, config)] *)
Definition store_epoch_metrics (is_training : bool) (result : value) : M world unit :=
  l ← metrics_of "store_epoch_metrics" result;
  modify (fun w => set_stored_epochs
                     (stored_epochs w ++ [mkStored is_training (current_epoch w) (heap w l)]) w).

(** [SegmentationLightning.aggregate_metrics]:
    [metrics.aggregate_segmentation_metrics(self.metrics)] builds a new
    MetricsDict from the accumulator. *)
Definition SegmentationLightning_aggregate_metrics : M world value :=
  metrics ← getattr "metrics";
  l ← metrics_of "get_hue_names" metrics;
  m ← gets (fun w => heap w l);
  new_metrics (aggregate_segmentation_metrics m).

(** [ScalarLightning.aggregate_metrics]: [self.metrics.average(across_hues=False)] *)
Definition ScalarLightning_aggregate_metrics : M world value :=
  metrics ← getattr "metrics";
  l ← metrics_of "average" metrics;
  m ← gets (fun w => heap w l);
  new_metrics (MetricsDict_average m).

(** [self.aggregate_metrics()], resolved in the class of [self]. *)
Definition aggregate_metrics (c : cls) : M world value :=
  match c with
  | InnerEyeLightning => InnerEyeLightning_aggregate_metrics
  | SegmentationLightning => SegmentationLightning_aggregate_metrics
  | ScalarLightning => ScalarLightning_aggregate_metrics
  end.

(** [InnerEyeLightning.epoch_end] *)
Definition InnerEyeLightning_epoch_end (c : cls) (is_training : bool) : M world value :=
  now ← time_time;
  start ← getattr "epoch_start_time";
  epoch_time_seconds ← lift (float_sub_value now start);
  epoch ← gets current_epoch;
  load ← getattr "total_load_time";
  load ← lift (format_2f load);
  batches ← getattr "num_batches";
  logging INFO (EpochTook epoch is_training epoch_time_seconds load batches);;
  exceeded ← getattr "num_load_time_exceeded";
  slow ← lift (py_gt exceeded (VInt 0));
  (if slow : bool then
     logging WARNING LoadersNotFastEnough;;
     exceeded ← getattr "num_load_time_exceeded";
     batches ← getattr "num_batches";
     extra ← getattr "total_extra_load_time";
     extra ← lift (format_2f extra);
     logging WARNING (BatchesExceeded exceeded batches extra)
   else mret tt);;
  learning_rate ← last_learning_rate;
  result ← aggregate_metrics c;
  add_metric result LEARNING_RATE (mret (VFloat learning_rate)) DEFAULT_HUE_KEY;;
  add_metric result SECONDS_PER_EPOCH (mret (VFloat epoch_time_seconds)) DEFAULT_HUE_KEY;;
  config ← getattr "config";
  _ ← config_of (if is_training then "azure_loggers_train" else "azure_loggers_val") config;
  config ← getattr "config";
  _ ← config_of "data_frame_loggers" config;
  _ ← getattr "config";
  store_epoch_metrics is_training result;;
  (if is_training then
     history ← getattr "train_metrics_per_epoch";
     history ← list_append history result;
     setattr "train_metrics_per_epoch" history
   else
     history ← getattr "validation_metrics_per_epoch";
     history ← list_append history result;
     setattr "validation_metrics_per_epoch" history);;
  mret result.

(** [ScalarLightning.epoch_end]: the attribute [self.train_val_params] is read
    while the arguments of [store_metrics_per_subject] are evaluated, and
    [self._should_save_regression_error_plot] after the call; no value of this
    model is a function that could be called there. *)
Definition ScalarLightning_epoch_end (is_training : bool) : M world value :=
  metrics ← getattr "metrics";
  config ← getattr "config";
  _ ← config_of "data_frame_loggers" config;
  _ ← metrics_of "store_metrics_per_subject" metrics;
  _ ← getattr "train_val_params";
  config ← getattr "config";
  _ ← config_of "cross_validation_split_index" config;
  _ ← getattr "_should_save_regression_error_plot";
  raise TypeError.

(** [self.epoch_end(is_training)], resolved in the class of [self]. *)
Definition epoch_end (c : cls) (is_training : bool) : M world value :=
  match c with
  | ScalarLightning => ScalarLightning_epoch_end is_training
  | _ => InnerEyeLightning_epoch_end c is_training
  end.

(** [RandomStateSnapshot.snapshot_random_state()] *)
Definition snapshot_random_state : M world value :=
  gets (fun w => VSnapshot (rng w)).

(** [v.restore_random_state()] *)
Definition restore_random_state (v : value) : M world unit :=
  match v with
  | VSnapshot s => modify (set_rng s)
  | _ => raise (AttributeError "restore_random_state")
  end.

Definition on_train_epoch_end (c : cls) : M world unit :=
  snapshot ← snapshot_random_state;
  setattr "random_state" snapshot;;
  _ ← epoch_end c true;
  mret tt.

Definition on_validation_epoch_end (c : cls) : M world unit :=
  _ ← epoch_end c false;
  mret tt.

(** [InnerEyeLightning.on_train_epoch_start] *)
Definition InnerEyeLightning_on_train_epoch_start : M world unit :=
  reset_timers;;
  random_state ← getattr "random_state";
  if truthy random_state then restore_random_state random_state else mret tt.

(** [InnerEyeLightning.on_validation_epoch_start] *)
Definition InnerEyeLightning_on_validation_epoch_start : M world unit :=
  reset_timers;;
  config ← getattr "config";
  config ← config_of "get_effective_random_seed" config;
  modify (set_rng (set_random_seed (effective_random_seed config))).

(** *** Calling the model and the loss function *)

(** calling the value stored in [self.model] on the inputs *)
Definition call_model (v : value) (inputs : list tensor) : M world tensor :=
  match v with
  | VModel => mret (model_call inputs)
  | _ => raise TypeError
  end.

(** [v(logits, labels)] for the value stored in [self.loss_fn] *)
Definition call_loss_fn (v : value) (logits labels : tensor) : M world tensor :=
  match v with
  | VSegmentationLoss => mret (segmentation_loss logits labels)
  | VScalarLoss => mret (scalar_loss logits labels)
  | _ => raise TypeError
  end.

(** ** class SegmentationLightning(InnerEyeLightning) *)

(** [SegmentationLightning.__init__] *)
Definition SegmentationLightning_init (config : Config) : M world unit :=
  InnerEyeLightning_init config;;
  setattr "model" VModel;;
  setattr "loss_fn" VSegmentationLoss.

(** [SegmentationLightning.logits_to_posterior] *)
Definition SegmentationLightning_logits_to_posterior (logits : tensor) : tensor :=
  softmax logits 1.

(** [SegmentationLightning.forward] *)
Definition SegmentationLightning_forward (patches : tensor) : M world tensor :=
  model ← getattr "model";
  logits ← call_model model [patches];
  mret (SegmentationLightning_logits_to_posterior logits).

Definition epoch_start : M world unit :=
  config ← getattr "config";
  config ← config_of "ground_truth_ids" config;
  m ← new_metrics (MetricsDict_new (BACKGROUND_CLASS_NAME :: ground_truth_ids config));
  setattr "metrics" m.

(** [SegmentationLightning.on_train_epoch_start] *)
Definition SegmentationLightning_on_train_epoch_start : M world unit :=
  InnerEyeLightning_on_train_epoch_start;;
  epoch_start.

(** [SegmentationLightning.on_validation_epoch_start] *)
Definition SegmentationLightning_on_validation_epoch_start : M world unit :=
  InnerEyeLightning_on_validation_epoch_start;;
  epoch_start.

(** [dice_for_all_classes[b, i].item()] *)
Definition dice_item (dice : list (list float)) (b i : nat) : M world value :=
  match dice !! b with
  | Some row => match row !! i with
                | Some d => mret (VFloat d)
                | None => raise IndexError
                end
  | None => raise IndexError
  end.

(** [foreground_voxels[i]] *)
Definition voxels_item (voxels : list num) (i : nat) : M world value :=
  match voxels !! i with
  | Some n => mret (of_num n)
  | None => raise IndexError
  end.

(** [for b in range(dice_for_all_classes.shape[0])]: one Dice value per crop *)
Fixpoint store_dice (dice : list (list float)) (i : nat) (hue : string) (bs : list nat)
  : M world unit :=
  match bs with
  | [] => mret tt
  | b :: bs =>
      metrics ← getattr "metrics";
      add_metric metrics DICE (dice_item dice b i) hue;;
      store_dice dice i hue bs
  end.

(** [for i, ground_truth_id in enumerate(...)]: the metrics of each hue *)
Fixpoint store_hues (dice : list (list float)) (voxels : list num) (i : nat)
    (hue_names : list string) : M world unit :=
  match hue_names with
  | [] => mret tt
  | ground_truth_id :: rest =>
      store_dice dice i ground_truth_id (seq 0 (length dice));;
      metrics ← getattr "metrics";
      add_metric metrics VOXEL_COUNT (voxels_item voxels i) ground_truth_id;;
      store_hues dice voxels (S i) rest
  end.

(** [SegmentationLightning.training_or_validation_step] *)
Definition SegmentationLightning_training_or_validation_step
    (sample : batch) (batch_index : Z) (is_training : bool) : M world tensor :=
  let cropped_sample := CroppedSample_from_dict sample in
  let labels' := labels_center_crop cropped_sample in
  let mask := if is_training then Some (mask_center_crop cropped_sample) else None in
  model ← getattr "model";
  logits ← call_model model [image cropped_sample];
  loss_fn ← getattr "loss_fn";
  loss ← call_loss_fn loss_fn logits labels';
  let posteriors := SegmentationLightning_logits_to_posterior logits in
  let posteriors :=
    match mask with
    | Some mask => apply_mask_to_posteriors posteriors mask
    | None => posteriors
    end in
  let segmentations := posteriors_to_segmentation posteriors in
  config ← getattr "config";
  config ← config_of "use_gpu" config;
  let dice_for_all_classes := compute_dice_across_patches segmentations labels' (use_gpu config) in
  let foreground_voxels := get_number_of_voxels_per_class (labels cropped_sample) in
  metrics ← getattr "metrics";
  add_metric metrics LOSS (mret (VFloat (tensor_item loss))) DEFAULT_HUE_KEY;;
  metrics ← getattr "metrics";
  l ← metrics_of "get_hue_names" metrics;
  hue_names ← gets (fun w => MetricsDict_get_hue_names (heap w l));
  store_hues dice_for_all_classes foreground_voxels 0 hue_names;;
  metrics ← getattr "metrics";
  add_diagnostics metrics PATCH_CENTER (center_indices cropped_sample);;
  write_loss is_training (LossTensor loss);;
  mret loss.

Definition training_step (sample : batch) (batch_index : Z) : M world tensor :=
  SegmentationLightning_training_or_validation_step sample batch_index true.

Definition validation_step (sample : batch) (batch_index : Z) : M world tensor :=
  SegmentationLightning_training_or_validation_step sample batch_index false.

(** ** class ScalarLightning(InnerEyeLightning) *)

(** [ScalarLightning.__init__]: [self.model_config] is read after the first
    four assignments. *)
Definition ScalarLightning_init (config : Config) : M world unit :=
  InnerEyeLightning_init config;;
  setattr "model" VModel;;
  setattr "loss_fn" VScalarLoss;;
  m ← new_metrics (create_metrics_dict_for_scalar_models config);
  setattr "metrics" m;;
  model_config ← getattr "model_config";
  model_config ← config_of "compute_mean_teacher_model" model_config;
  setattr "use_mean_teacher_model" (VBool (compute_mean_teacher_model model_config));;
  setattr "logits_to_posterior_fn" VNormalization.

(** [ScalarLightning.logits_to_posterior] *)
Definition ScalarLightning_logits_to_posterior (logits : tensor) : M world tensor :=
  fn ← getattr "logits_to_posterior_fn";
  match fn with
  | VNormalization => mret (post_loss_logits_normalization logits)
  | _ => raise TypeError
  end.

(** [ScalarLightning.forward] *)
Definition ScalarLightning_forward (model_inputs : list tensor) : M world tensor :=
  model ← getattr "model";
  logits ← call_model model model_inputs;
  ScalarLightning_logits_to_posterior logits.

(** [ScalarLightning.training_or_validation_step] *)
Definition ScalarLightning_training_or_validation_step
    (sample : batch) (batch_index : Z) (is_training : bool) : M world tensor :=
  config ← getattr "config";
  _ ← getattr "model";
  config ← config_of "get_scalar_model_inputs_and_labels" config;
  let model_inputs_and_labels := get_scalar_model_inputs_and_labels config sample in
  model ← getattr "model";
  logits ← call_model model (fst model_inputs_and_labels);
  loss_fn ← getattr "loss_fn";
  loss ← call_loss_fn loss_fn logits (snd model_inputs_and_labels);
  write_loss is_training (LossTensor loss);;
  mret loss.

(** ** Method resolution *)

(** [self.on_train_epoch_start()] *)
Definition on_train_epoch_start (c : cls) : M world unit :=
  match c with
  | SegmentationLightning => SegmentationLightning_on_train_epoch_start
  | _ => InnerEyeLightning_on_train_epoch_start
  end.

(** [self.on_validation_epoch_start()] *)
Definition on_validation_epoch_start (c : cls) : M world unit :=
  match c with
  | SegmentationLightning => SegmentationLightning_on_validation_epoch_start
  | _ => InnerEyeLightning_on_validation_epoch_start
  end.

(** The constructor of each class, run on an object without attributes. *)
Definition init (c : cls) (config : Config) : M world unit :=
  modify (set_self_dict (fun _ => ∅));;
  match c with
  | InnerEyeLightning => InnerEyeLightning_init config
  | SegmentationLightning => SegmentationLightning_init config
  | ScalarLightning => ScalarLightning_init config
  end.

(** The calls that can be made on a module, with their arguments. *)
Inductive method : Type :=
| m_configure_optimizers
| m_on_train_epoch_end
| m_on_validation_epoch_end
| m_on_train_epoch_start
| m_on_validation_epoch_start
| m_epoch_end (is_training : bool)
| m_on_train_batch_start (batch_idx : Z)
| m_on_validation_batch_start (batch_idx : Z)
| m_batch_start (batch_idx : Z) (is_training : bool)
| m_on_batch_end
| m_reset_timers
| m_aggregate_metrics
| m_write_metric (is_training : bool) (metric_type : MetricType) (metric_value : value)
    (hue : string)
| m_write_loss (is_training : bool) (loss : loss_value)
| m_forward (inputs : list tensor)
| m_logits_to_posterior (logits : tensor)
| m_epoch_start
| m_training_step (sample : batch) (batch_index : Z)
| m_validation_step (sample : batch) (batch_index : Z)
| m_training_or_validation_step (sample : batch) (batch_index : Z) (is_training : bool).

Definition discard {A} (m : M world A) : M world unit := _ ← m; mret tt.

(** A call of a method on an object of class [c].  A method that the class
    neither defines nor inherits from [InnerEyeLightning] is an attribute
    error; [forward], [training_step] and [validation_step] are then the ones
    of LightningModule, which run outside this file and leave the attributes
    of the module alone. *)
Definition call (c : cls) (m : method) : M world unit :=
  match m with
  | m_configure_optimizers => configure_optimizers
  | m_on_train_epoch_end => on_train_epoch_end c
  | m_on_validation_epoch_end => on_validation_epoch_end c
  | m_on_train_epoch_start => on_train_epoch_start c
  | m_on_validation_epoch_start => on_validation_epoch_start c
  | m_epoch_end is_training => discard (epoch_end c is_training)
  | m_on_train_batch_start i => on_train_batch_start i
  | m_on_validation_batch_start i => on_validation_batch_start i
  | m_batch_start i is_training => batch_start i is_training
  | m_on_batch_end => on_batch_end
  | m_reset_timers => reset_timers
  | m_aggregate_metrics => discard (aggregate_metrics c)
  | m_write_metric is_training t v hue => write_metric is_training t v hue
  | m_write_loss is_training loss => write_loss is_training loss
  | m_forward inputs =>
      match c, inputs with
      | SegmentationLightning, [patches] => discard (SegmentationLightning_forward patches)
      | SegmentationLightning, _ => raise TypeError
      | ScalarLightning, _ => discard (ScalarLightning_forward inputs)
      | InnerEyeLightning, _ => mret tt
      end
  | m_logits_to_posterior logits =>
      match c with
      | SegmentationLightning => mret tt
      | ScalarLightning => discard (ScalarLightning_logits_to_posterior logits)
      | InnerEyeLightning => raise (AttributeError "logits_to_posterior")
      end
  | m_epoch_start =>
      match c with
      | SegmentationLightning => epoch_start
      | _ => raise (AttributeError "epoch_start")
      end
  | m_training_step sample i =>
      match c with
      | SegmentationLightning => discard (training_step sample i)
      | _ => mret tt
      end
  | m_validation_step sample i =>
      match c with
      | SegmentationLightning => discard (validation_step sample i)
      | _ => mret tt
      end
  | m_training_or_validation_step sample i is_training =>
      match c with
      | SegmentationLightning =>
          discard (SegmentationLightning_training_or_validation_step sample i is_training)
      | ScalarLightning =>
          discard (ScalarLightning_training_or_validation_step sample i is_training)
      | InnerEyeLightning => raise (AttributeError "training_or_validation_step")
      end
  end.

(** An upper bound of the states a module of class [c] can be in: its
    constructor has run, whether it returned or raised, then its methods are
    called in any order with any arguments, while the framework and the rest of
    the program change everything but the attributes of the module.  What
    holds in all of these states holds in the states of the modules that
    exist, which are the [constructed] ones below. *)
Inductive reachable (c : cls) : world -> Prop :=
| reachable_init config w :
    reachable c (final (init c config w))
| reachable_call m w :
    reachable c w -> reachable c (final (call c m w))
| reachable_outside w w' :
    reachable c w -> self_dict w' = self_dict w -> reachable c w'.


(** A run of calls, stopping at the first exception. *)
Fixpoint calls (c : cls) (ms : list method) : M world unit :=
  match ms with
  | [] => mret tt
  | m :: ms => call c m;; calls c ms
  end.

(** ** class TrainingAndValidationDataForSegmentation(LightningDataModule) *)

(** The state of the data module is its attribute dictionary. *)
Definition data_module : Type := gmap string value.

Definition dm_getattr (name : string) : M data_module value :=
  fun d => match d !! name with
           | Some v => (Ok v, d)
           | None => (Raise (AttributeError name), d)
           end.

Definition dm_setattr (name : string) (v : value) : M data_module unit :=
  modify (insert name v).

(** The method the source names [_init__]: the class keeps the constructor of
    LightningDataModule. *)
Definition TrainingAndValidationDataForSegmentation__init__ (config : Config) : M data_module unit :=
  dm_setattr "config" (VConfig config);;
  dm_setattr "data_loaders" VNone.

Definition setup : M data_module unit :=
  config ← dm_getattr "config";
  match config with
  | VConfig c => dm_setattr "data_loaders" (VLoaders (create_data_loaders c))
  | _ => raise (AttributeError "create_data_loaders")
  end.

(** [self.data_loaders[mode]] *)
Definition data_loaders_item (mode : ModelExecutionMode) : M data_module data_loader :=
  loaders ← dm_getattr "data_loaders";
  match loaders with
  | VLoaders d =>
      match list_find (fun p => fst p = mode) d with
      | Some (_, (_, loader)) => mret loader
      | None => raise KeyError
      end
  | _ => raise TypeError
  end.

Definition train_dataloader : M data_module data_loader := data_loaders_item TRAIN.
Definition val_dataloader : M data_module data_loader := data_loaders_item VAL.

Definition test_dataloader : M data_module data_loader :=
  raise (NotImplementedError
           "For segmentation models, the test dataset should not be evaluated patch-wise.").

End Model.

(** * Specification

    The predicates in which the properties of the module are stated. *)

Section Specification.
Context `{Collaborators}.

(** [m] keeps the invariant [I], whether it returns or raises. *)
Definition keeps {A} (I : world -> Prop) (m : M world A) : Prop :=
  forall w, I w -> I (final (m w)).

(** An invariant on the attributes of the module alone. *)
Definition on_attrs (J : gmap string value -> Prop) : world -> Prop :=
  fun w => J (self_dict w).

(** The timer attributes right after a reset that started at clock reading
    [t]: the two start times are the two readings the reset takes. *)
Definition timers_reset (t : nat) (d : gmap string value) : Prop :=
  d !! "num_load_time_warnings" = Some (VInt 0) /\
  d !! "num_load_time_exceeded" = Some (VInt 0) /\
  d !! "num_batches" = Some (VInt 0) /\
  d !! "total_extra_load_time" = Some (VFloat f0) /\
  d !! "total_load_time" = Some (VFloat f0) /\
  d !! "epoch_start_time" = Some (VFloat (clock t)) /\
  d !! "item_start_time" = Some (VFloat (clock (S t))).

(** The attributes that [reset_timers] assigns. *)
Definition timer_names : list string :=
  ["epoch_start_time"; "item_start_time"; "num_load_time_warnings";
   "num_load_time_exceeded"; "total_extra_load_time"; "total_load_time"; "num_batches"].

(** The load time that [batch_start] measures in [w] when the item started at
    [t0]. *)
Definition measured_load_time (w : world) (t0 : float) : float :=
  PrimFloat.sub (clock (ticks w)) t0.

(** The calls made between the start and the end of an epoch. *)
Definition is_batch_call (m : method) : Prop :=
  match m with
  | m_on_train_batch_start _ | m_on_validation_batch_start _ | m_batch_start _ _
  | m_on_batch_end => True
  | _ => False
  end.

(** The slow-minibatch warnings in a log. *)
Definition is_slow_warning (r : level * message) : bool :=
  match r with
  | (WARNING, SlowMinibatch _ _ _) => true
  | _ => false
  end.

(** How many of them a log holds. *)
Definition slow_warnings (l : list (level * message)) : Z :=
  Z.of_nat (length (filter (fun r => is_slow_warning r = true) l)).

(** The timers during an epoch: all of the types that the reset gave them, the
    warning counter at most [MAX_LOAD_TIME_WARNINGS] and equal to the number of
    warnings logged since the log held [base] of them. *)
Definition in_epoch (base : Z) (w : world) : Prop :=
  exists (n exceeded nb : Z) (ts tl te : float),
    self_dict w !! "num_load_time_warnings" = Some (VInt n) /\
    self_dict w !! "num_load_time_exceeded" = Some (VInt exceeded) /\
    self_dict w !! "num_batches" = Some (VInt nb) /\
    self_dict w !! "item_start_time" = Some (VFloat ts) /\
    self_dict w !! "total_load_time" = Some (VFloat tl) /\
    self_dict w !! "total_extra_load_time" = Some (VFloat te) /\
    0 <= n <= MAX_LOAD_TIME_WARNINGS /\
    slow_warnings (log_records w) = base + n.

(** The attributes that only the constructors assign, and the two that nothing
    assigns. *)
Definition protected_names : list string :=
  ["metrics_train"; "metrics_val"; "metrics"; "config"; "model"; "loss_fn"].

(** The attributes of a module of class [c] in every state it can reach:
    [metrics_train] and [metrics_val] are absent, [metrics] is a MetricsDict,
    [config] a configuration, and the two subclasses hold their model and their
    loss function. *)
Definition module_attrs (c : cls) (d : gmap string value) : Prop :=
  d !! "metrics_train" = None /\
  d !! "metrics_val" = None /\
  (exists l, d !! "metrics" = Some (VMetrics l)) /\
  (exists config, d !! "config" = Some (VConfig config)) /\
  match c with
  | InnerEyeLightning => True
  | SegmentationLightning =>
      d !! "model" = Some VModel /\ d !! "loss_fn" = Some VSegmentationLoss
  | ScalarLightning =>
      d !! "model" = Some VModel /\ d !! "loss_fn" = Some VScalarLoss
  end.

(** The attribute that [write_metric] and [write_loss] read. *)
Definition metrics_attr (is_training : bool) : string :=
  if is_training then "metrics_train" else "metrics_val".

(** [m] raises in every state that satisfies [I]. *)
Definition fails {A} (I : world -> Prop) (m : M world A) : Prop :=
  forall w, I w -> exists e, result (m w) = Raise e.

(** The collaborators report one Dice column and one voxel count for each of
    [n] hues. *)
Definition one_column_per_hue (n : nat) : Prop :=
  (forall segmentation ground_truth use_cuda,
     Forall (fun row => (n <= length row)%nat)
            (compute_dice_across_patches segmentation ground_truth use_cuda)) /\
  (forall labels, (n <= length (get_number_of_voxels_per_class labels))%nat).

(** The function each subclass aggregates with. *)
Definition aggregation (c : cls) (m : MetricsDict) : MetricsDict :=
  match c with
  | ScalarLightning => MetricsDict_average m
  | _ => aggregate_segmentation_metrics m
  end.

(** The history list of the training or of the validation epochs. *)
Definition history_attr (is_training : bool) : string :=
  if is_training then "train_metrics_per_epoch" else "validation_metrics_per_epoch".

(** ** Predicates of the further properties *)

(** The attributes that the methods assign after construction. *)
Definition method_assigned : list string :=
  timer_names
  ++ ["random_state"; "metrics"; "train_metrics_per_epoch"; "validation_metrics_per_epoch"].

(** What can happen to a module between the end of a training epoch and the
    start of the next one: any call but [on_train_epoch_end], and anything
    outside the module that leaves its attributes alone. *)
Inductive between_epochs (c : cls) : world -> world -> Prop :=
| between_refl w : between_epochs c w w
| between_call m w w' :
    m <> m_on_train_epoch_end ->
    between_epochs c (final (call c m w)) w' -> between_epochs c w w'
| between_outside w w1 w' :
    self_dict w1 = self_dict w -> between_epochs c w1 w' -> between_epochs c w w'.

(** Any run of a module: calls and changes outside the module. *)
Inductive runs_to (c : cls) : world -> world -> Prop :=
| runs_refl w : runs_to c w w
| runs_call m w w' : runs_to c (final (call c m w)) w' -> runs_to c w w'
| runs_outside w w1 w' :
    self_dict w1 = self_dict w -> runs_to c w1 w' -> runs_to c w w'.

(** The list [h] is what the history list [name] started with. *)
Definition history_extends (name : string) (h : list value) (d : gmap string value) : Prop :=
  exists h', d !! name = Some (VList (h ++ h')).

(** The records that [epoch_end] logs: the summary of the epoch and, when
    some batch loaded slowly, the two warnings. *)
Definition epoch_end_records (epoch : Z) (is_training : bool) (seconds : float)
    (load : float) (batches exceeded : Z) (extra : float) : list (level * message) :=
  (INFO, EpochTook epoch is_training seconds (VFloat load) (VInt batches))
  :: (if 0 <? exceeded
      then [(WARNING, LoadersNotFastEnough);
            (WARNING, BatchesExceeded (VInt exceeded) (VInt batches) (VFloat extra))]
      else []).

(** The timers hold numbers of the types that [reset_timers] gives them. *)
Definition timers_typed (ts tl te : float) (nb ex : Z) (d : gmap string value) : Prop :=
  d !! "epoch_start_time" = Some (VFloat ts) /\
  d !! "total_load_time" = Some (VFloat tl) /\
  d !! "num_batches" = Some (VInt nb) /\
  d !! "num_load_time_exceeded" = Some (VInt ex) /\
  d !! "total_extra_load_time" = Some (VFloat te).

(** The exception of [self.trainer.lr_schedulers[0]['scheduler'].get_last_lr()[0]]
    when there is no learning rate to read. *)
Definition no_learning_rate (t : option (list (list float))) : option exn :=
  match t with
  | None => Some (AttributeError "lr_schedulers")
  | Some [] => Some IndexError
  | Some ([] :: _) => Some IndexError
  | Some ((_ :: _) :: _) => None
  end.

(** The calls of [on_batch_end] in a run. *)
Definition is_batch_end (m : method) : bool :=
  match m with
  | m_on_batch_end => true
  | _ => false
  end.

Definition batches_ended (ms : list method) : Z :=
  Z.of_nat (length (filter (fun m => is_batch_end m = true) ms)).

(** A batch that loaded slowly: whether it was a training batch, its index and
    its load time. *)
Definition slow_batch : Type := bool * Z * float.

(** A batch loads slowly when it is not the first of its epoch and its load
    time exceeds [MAX_ITEM_LOAD_TIME_SEC]. *)
Definition is_slow (batch_idx : Z) (load : float) : bool :=
  negb (batch_idx =? 0) && PrimFloat.ltb MAX_ITEM_LOAD_TIME_SEC load.

(** The batch that starts at clock reading [t], after the item before it
    ended at time [start]. *)
Definition slow_start (batch_idx : Z) (is_training : bool) (t : nat) (start : float)
  : list slow_batch :=
  let load := PrimFloat.sub (clock t) start in
  if is_slow batch_idx load then [(is_training, batch_idx, load)] else [].

(** The slow batches of a run of batch calls, read off the clock alone: each
    call reads the clock once, a batch start compares its reading with the
    reading of the [on_batch_end] before it. *)
Fixpoint slow_starts (ms : list method) (t : nat) (start : float) : list slow_batch :=
  match ms with
  | [] => []
  | m :: ms =>
      match m with
      | m_on_train_batch_start i => slow_start i true t start ++ slow_starts ms (S t) start
      | m_on_validation_batch_start i =>
          slow_start i false t start ++ slow_starts ms (S t) start
      | m_batch_start i is_training =>
          slow_start i is_training t start ++ slow_starts ms (S t) start
      | m_on_batch_end => slow_starts ms (S t) (clock t)
      | _ => slow_starts ms t start
      end
  end.

(** The warning that [batch_start] logs for a slow batch. *)
Definition slow_warning (s : slow_batch) : level * message :=
  (WARNING, SlowMinibatch (fst (fst s)) (snd (fst s)) (snd s)).

(** The sum of the load times of the slow batches, added in their order to
    [extra]. *)
Definition extra_load_time (slow : list slow_batch) (extra : float) : float :=
  fold_left (fun a s => PrimFloat.add a (snd s)) slow extra.

(** The warnings still to be given when [exceeded] slow batches have been
    seen. *)
Definition warnings_left (exceeded : Z) : nat :=
  Z.to_nat (MAX_LOAD_TIME_WARNINGS - Z.min exceeded MAX_LOAD_TIME_WARNINGS).

(** The timers during an epoch, at clock reading [t]: the item before ended at
    [start], [exceeded] slow batches were counted with the load time [extra],
    [batches] batches have ended, and [warned] are the slow-minibatch warnings
    of the log. *)
Definition epoch_state (t : nat) (start : float) (exceeded batches : Z) (extra : float)
    (warned : list (level * message)) (w : world) : Prop :=
  ticks w = t /\
  self_dict w !! "item_start_time" = Some (VFloat start) /\
  self_dict w !! "num_load_time_exceeded" = Some (VInt exceeded) /\
  self_dict w !! "num_batches" = Some (VInt batches) /\
  self_dict w !! "num_load_time_warnings"
  = Some (VInt (Z.min exceeded MAX_LOAD_TIME_WARNINGS)) /\
  0 <= exceeded /\
  self_dict w !! "total_extra_load_time" = Some (VFloat extra) /\
  (exists tl, self_dict w !! "total_load_time" = Some (VFloat tl)) /\
  filter (fun r => is_slow_warning r = true) (log_records w) = warned.

(** The state that a run of calls ends in is an [epoch_state], at some clock
    reading. *)
Definition epoch_state_after (c : cls) (ms : list method) (w : world) (exceeded batches : Z)
    (extra : float) (warned : list (level * message)) : Prop :=
  exists t start,
    epoch_state t start exceeded batches extra warned (final (calls c ms w)).

(** The methods of the data module that Lightning calls. *)
Inductive dm_method : Type :=
| dm_setup
| dm_train_dataloader
| dm_val_dataloader
| dm_test_dataloader.

Definition dm_call (m : dm_method) : M data_module unit :=
  match m with
  | dm_setup => setup
  | dm_train_dataloader => _ ← train_dataloader; mret tt
  | dm_val_dataloader => _ ← val_dataloader; mret tt
  | dm_test_dataloader => _ ← test_dataloader; mret tt
  end.

(** The loader of [mode] in the dictionary that [create_data_loaders]
    returns. *)
Definition loader_of (mode : ModelExecutionMode) (d : list (ModelExecutionMode * data_loader))
  : outcome data_loader :=
  match list_find (fun p => fst p = mode) d with
  | Some (_, (_, loader)) => Ok loader
  | None => Raise KeyError
  end.

(** The call of the class [TrainingAndValidationDataForSegmentation] on any
    arguments: the class defines no
    [__init__], its method is named [_init__]; so the construction of an
    object runs the constructor of LightningDataModule, which is not part of
    this file, on the new object, and hands the object out when that
    returns. *)
Definition dm_construct (LightningDataModule_init : list value -> M data_module unit)
    (args : list value) : M data_module unit :=
  modify (fun _ => ∅);;
  LightningDataModule_init args.

(** The module after a sequence of calls, each of which may return or
    raise. *)
Definition dm_calls (ms : list dm_method) (d : data_module) : data_module :=
  foldl (fun d m => final (dm_call m d)) d ms.

(** The entry [dice[b, i]] and the entry [voxels[i]] where they exist. *)
Definition dice_at (dice : list (list float)) (b i : nat) : float :=
  match dice !! b with
  | Some row => default f0 (row !! i)
  | None => f0
  end.

Definition voxels_at (voxels : list num) (i : nat) : num :=
  default (NInt 0) (voxels !! i).

(** The values that one step stores for the hue of column [i]: the Dice score of
    every crop, then the voxel count. *)
Definition dice_values (dice : list (list float)) (i : nat) (hue : string) (bs : list nat)
  : list (string * MetricType * num) :=
  map (fun b => (hue, DICE, NFloat (dice_at dice b i))) bs.

Fixpoint step_values (dice : list (list float)) (voxels : list num) (i : nat)
    (hue_names : list string) : list (string * MetricType * num) :=
  match hue_names with
  | [] => []
  | hue :: rest =>
      dice_values dice i hue (seq 0 (length dice))
      ++ (hue, VOXEL_COUNT, voxels_at voxels i) :: step_values dice voxels (S i) rest
  end.

(** From [w] to [w'], the values [vs] were added to the MetricsDict at [l] and
    nothing else changed in the attributes and in the MetricsDict objects. *)
Definition adds_values (l : loc) (vs : list (string * MetricType * num)) (w w' : world) : Prop :=
  self_dict w' = self_dict w /\
  values (heap w' l) = (values (heap w l) ++ vs)%list /\
  hues (heap w' l) = hues (heap w l) /\
  diagnostics (heap w' l) = diagnostics (heap w l) /\
  (forall l', l' <> l -> heap w' l' = heap w l') /\
  lightning_log w' = lightning_log w.

(** What the two start times hold: the [0] of the constructor or a reading of
    the clock. *)
Definition is_start_time (v : value) : Prop :=
  v = VInt 0 \/ exists f, v = VFloat f.

(** The timers hold numbers of the types the constructor gave them. *)
Definition timers_numeric (d : gmap string value) : Prop :=
  (exists v, d !! "epoch_start_time" = Some v /\ is_start_time v) /\
  (exists v, d !! "item_start_time" = Some v /\ is_start_time v) /\
  (exists n, d !! "num_load_time_warnings" = Some (VInt n)) /\
  (exists n, d !! "num_load_time_exceeded" = Some (VInt n)) /\
  (exists n, d !! "num_batches" = Some (VInt n)) /\
  (exists f, d !! "total_extra_load_time" = Some (VFloat f)) /\
  (exists f, d !! "total_load_time" = Some (VFloat f)).

(** [random_state] holds [None] or a snapshot. *)
Definition snapshot_or_none (d : gmap string value) : Prop :=
  d !! "random_state" = Some VNone \/ exists s, d !! "random_state" = Some (VSnapshot s).

(** A run of calls during which the rest of the program leaves the attributes
    of the module and the MetricsDict objects alone. *)
Inductive runs_alone (c : cls) : world -> world -> Prop :=
| alone_refl w : runs_alone c w w
| alone_call m w w' : runs_alone c (final (call c m w)) w' -> runs_alone c w w'
| alone_outside w w1 w' :
    self_dict w1 = self_dict w -> (forall l, heap w1 l = heap w l) ->
    next_loc w1 = next_loc w ->
    runs_alone c w1 w' -> runs_alone c w w'.

(** A reference to a MetricsDict that is not one of those at [L]. *)
Definition outside (L : list loc) (v : value) : Prop :=
  exists l, v = VMetrics l /\ l ∉ L.

(** The MetricsDict objects at [L] exist and are as [h0] has them, the
    accumulator [self.metrics] is none of them, and [metrics_train] and
    [metrics_val] are absent. *)
Definition apart (L : list loc) (h0 : loc -> MetricsDict) (w : world) : Prop :=
  (forall l, l ∈ L -> (l < next_loc w)%nat /\ heap w l = h0 l) /\
  (exists v, self_dict w !! "metrics" = Some v /\ outside L v) /\
  self_dict w !! "metrics_train" = None /\
  self_dict w !! "metrics_val" = None.

(** [m] keeps the invariant [I], and what it returns satisfies [Q]. *)
Definition yields {A} (I : world -> Prop) (m : M world A) (Q : A -> Prop) : Prop :=
  forall w, I w -> I (final (m w)) /\ forall a, result (m w) = Ok a -> Q a.

(** ** The metrics of an epoch *)



End Specification.

(** ** Sample collaborators

    A concrete tensor library and concrete collaborators, on which the model
    runs: tensors are integers, the clock advances by [step] seconds between
    two readings. *)

Definition sample_torch : Torch :=
  {| tensor := Z;
     softmax := fun t dim => t + dim;
     tensor_item := fun t => if t =? 0 then f0 else f1;
     tensor_float := fun t => t |}.

Fixpoint sample_clock (step : float) (n : nat) : float :=
  match n with
  | O => f0
  | S n => PrimFloat.add (sample_clock step n) step
  end.

Definition sample_collaborators (step : float) : @Collaborators sample_torch :=
  @Build_Collaborators sample_torch
    Z Z nat (sample_clock step) "background" "Default"
    (fun inputs : list Z => foldr Z.add 0 inputs)
    (fun logits labels : Z => logits - labels)
    (fun logits labels : Z => logits - labels)
    (fun t : Z => t)
    (fun b : Z => @mkCroppedSample sample_torch b b b b b)
    (fun p m : Z => p)
    (fun p : Z => p)
    (fun (s g : Z) (_ : bool) => [[f1; f0]])
    (fun _ : Z => [NInt 7; NInt 5])
    (fun (_ : Config) (b : Z) => ([b], b))
    (fun m => m)
    (fun m => m)
    (fun _ => mkMetricsDict [] [] [])
    (fun seed : Z => seed)
    (fun _ => [(TRAIN, 0%nat); (VAL, 1%nat)]).

Definition sample_config : Config :=
  mkConfig ["spleen"] 42 false false.

Definition sample_world (step : float) : @world sample_torch (sample_collaborators step) :=
  @mkWorld sample_torch (sample_collaborators step)
    ∅ (fun _ => mkMetricsDict [] [] []) 0%nat 0%nat (0 : Z) (Some [[f1]]) 0 [] [] [].

(** The clock of the sample runs: three quarters of a second between two
    readings, more than [MAX_ITEM_LOAD_TIME_SEC]. *)
Section SampleClock.
Import PrimFloat.
Definition sample_step : float := 0.75%float.
End SampleClock.

Definition sample_run : @Collaborators sample_torch := sample_collaborators sample_step.

(** A module of class [c], as its constructor leaves it. *)
Definition sample_module (c : cls) : @world sample_torch sample_run :=
  final (@init sample_torch sample_run c sample_config (sample_world sample_step)).

(** The same module at the start of its first training epoch. *)
Definition sample_epoch (c : cls) : @world sample_torch sample_run :=
  final (@call sample_torch sample_run c (@m_on_train_epoch_start _ _) (sample_module c)).

(** Three slow batches after the first one. *)
Definition sample_batches : list (@method sample_torch sample_run) :=
  [@m_on_train_batch_start _ _ 0; @m_on_batch_end _ _;
   @m_on_train_batch_start _ _ 1; @m_on_batch_end _ _;
   @m_on_train_batch_start _ _ 2; @m_on_batch_end _ _;
   @m_on_train_batch_start _ _ 3; @m_on_batch_end _ _;
   @m_on_train_batch_start _ _ 4; @m_on_batch_end _ _].

(** The module at the start of its first training epoch, detached from its
    trainer. *)
Definition sample_untrained (c : cls) : @world sample_torch sample_run :=
  let w := sample_epoch c in
  @mkWorld sample_torch sample_run
    (self_dict w) (heap w) (next_loc w) (ticks w) (rng w) None
    (current_epoch w) (log_records w) (lightning_log w) (stored_epochs w).

(** A constructor of LightningDataModule for the sample runs: it keeps its
    first argument as the transforms of the training data. *)
Definition sample_LightningDataModule_init (args : list (@value sample_torch sample_run))
  : M (@data_module sample_torch sample_run) unit :=
  dm_setattr "_train_transforms" (default VNone (head args)).

(** * Properties *)

Section Properties.
Context `{Collaborators}.

(** ** Running a computation *)

Lemma run_bind {A B} (m : M world A) (k : A -> M world B) (w : world) :
  (m ≫= k) w = match m w with
               | (Ok a, w') => k a w'
               | (Raise e, w') => (Raise e, w')
               end.
Proof. reflexivity. Qed.

Lemma run_bind_ok {A B} (m : M world A) (k : A -> M world B) (w w' : world) (a : A) :
  m w = (Ok a, w') -> (m ≫= k) w = k a w'.
Proof. intros Hm. rewrite run_bind, Hm. reflexivity. Qed.

Lemma run_bind_raise {A B} (m : M world A) (k : A -> M world B) (w w' : world) (e : exn) :
  m w = (Raise e, w') -> (m ≫= k) w = (Raise e, w').
Proof. intros Hm. rewrite run_bind, Hm. reflexivity. Qed.

Lemma run_getattr_some (name : string) (v : value) (w : world) :
  self_dict w !! name = Some v -> getattr name w = (Ok v, w).
Proof. intros Hv. unfold getattr. rewrite Hv. reflexivity. Qed.

Lemma run_getattr_none (name : string) (w : world) :
  self_dict w !! name = None -> getattr name w = (Raise (AttributeError name), w).
Proof. intros Hv. unfold getattr. rewrite Hv. reflexivity. Qed.

(** ** Invariants kept by a computation, whether it returns or raises *)

Lemma keeps_bind {A B} I (m : M world A) (k : A -> M world B) :
  keeps I m -> (forall a, keeps I (k a)) -> keeps I (m ≫= k).
Proof.
  intros Hm Hk w Hw. rewrite run_bind.
  specialize (Hm w Hw). destruct (m w) as [[a|e] w']; simpl in *.
  - apply Hk, Hm.
  - exact Hm.
Qed.

Lemma keeps_ret {A} I (a : A) : keeps I (mret a : M world A).
Proof. intros w Hw. exact Hw. Qed.

Lemma keeps_raise {A} I (e : exn) : keeps I (raise e : M world A).
Proof. intros w Hw. exact Hw. Qed.

Lemma keeps_lift {A} I (o : outcome A) : keeps I (lift o).
Proof. intros w Hw. exact Hw. Qed.

Lemma keeps_gets {A} I (f : world -> A) : keeps I (gets f).
Proof. intros w Hw. exact Hw. Qed.

Lemma keeps_getattr I (name : string) : keeps I (getattr name).
Proof. intros w Hw. unfold getattr. destruct (self_dict w !! name); exact Hw. Qed.

Lemma keeps_setattr J (name : string) (v : value) :
  (forall d, J d -> J (<[name:=v]> d)) -> keeps (on_attrs J) (setattr name v).
Proof. intros HJ w Hw. apply HJ, Hw. Qed.

Lemma keeps_time_time J : keeps (on_attrs J) time_time.
Proof. intros w Hw. exact Hw. Qed.

Lemma keeps_logging J (l : level) (m : message) : keeps (on_attrs J) (logging l m).
Proof. intros w Hw. exact Hw. Qed.

Lemma keeps_new_metrics J (m : MetricsDict) : keeps (on_attrs J) (new_metrics m).
Proof. intros w Hw. exact Hw. Qed.

Lemma keeps_metrics_of I (meth : string) (v : value) : keeps I (metrics_of meth v).
Proof. intros w Hw. destruct v; exact Hw. Qed.

Lemma keeps_config_of I (attr : string) (v : value) : keeps I (config_of attr v).
Proof. intros w Hw. destruct v; exact Hw. Qed.

Lemma keeps_list_append I (v x : value) : keeps I (list_append v x).
Proof. intros w Hw. destruct v; exact Hw. Qed.

Lemma keeps_update_metrics J (l : loc) (f : MetricsDict -> MetricsDict) :
  keeps (on_attrs J) (update_metrics l f).
Proof. intros w Hw. exact Hw. Qed.

Lemma keeps_metric_value_of I (v : value) : keeps I (metric_value_of v).
Proof. intros w Hw. unfold metric_value_of. destruct (as_num v); exact Hw. Qed.

Lemma keeps_set_rng J (r : rng_state) : keeps (on_attrs J) (modify (set_rng r)).
Proof. intros w Hw. exact Hw. Qed.

Lemma keeps_restore_random_state J (v : value) :
  keeps (on_attrs J) (restore_random_state v).
Proof. intros w Hw. destruct v; exact Hw. Qed.

Lemma keeps_self_log J (name : string) (loss : loss_value) :
  keeps (on_attrs J) (self_log name loss).
Proof. intros w Hw. exact Hw. Qed.

Lemma keeps_last_learning_rate I : keeps I last_learning_rate.
Proof.
  intros w Hw. unfold last_learning_rate.
  destruct (trainer w) as [[|[|lr ?] ?]|]; exact Hw.
Qed.

Lemma keeps_call_model I (v : value) (inputs : list tensor) : keeps I (call_model v inputs).
Proof. intros w Hw. destruct v; exact Hw. Qed.

Lemma keeps_call_loss_fn I (v : value) (a b : tensor) : keeps I (call_loss_fn v a b).
Proof. intros w Hw. destruct v; exact Hw. Qed.

Lemma keeps_if {A} I (b : bool) (m1 m2 : M world A) :
  keeps I m1 -> keeps I m2 -> keeps I (if b then m1 else m2).
Proof. destruct b; auto. Qed.

Create HintDb keeps discriminated.
#[local] Hint Resolve keeps_ret keeps_raise keeps_lift keeps_gets keeps_getattr
  keeps_time_time keeps_logging keeps_new_metrics keeps_metrics_of keeps_config_of
  keeps_list_append keeps_update_metrics keeps_metric_value_of keeps_set_rng
  keeps_restore_random_state keeps_self_log keeps_last_learning_rate keeps_call_model
  keeps_call_loss_fn : keeps.

(** Symbolic execution of one method body against an invariant. *)
Ltac keeps_step :=
  lazymatch goal with
  | |- keeps _ (mbind _ _) => apply keeps_bind; [|intros ?]
  | |- keeps _ (if _ then _ else _) => apply keeps_if
  | |- keeps _ (setattr _ _) => apply keeps_setattr
  | |- keeps _ (match ?x with _ => _ end) => destruct x
  | |- keeps _ _ => solve [auto with keeps]
  end.

Ltac keeps_all := repeat keeps_step.

Lemma final_bind {A B} I (m : M world A) (k : A -> M world B) (w : world) :
  I (final (m w)) -> (forall a, keeps I (k a)) -> I (final ((m ≫= k) w)).
Proof.
  intros Hm Hk. rewrite run_bind.
  destruct (m w) as [[a|e] w']; simpl in *; [apply Hk|]; exact Hm.
Qed.

(** ** Timers *)

Ltac in_names := apply list_elem_of_In; simpl; tauto.

Lemma reset_timers_run (w : world) :
  exists w', reset_timers w = (Ok tt, w') /\
    ticks w' = S (S (ticks w)) /\
    rng w' = rng w /\ log_records w' = log_records w /\
    heap w' = heap w /\ next_loc w' = next_loc w /\
    timers_reset (ticks w) (self_dict w') /\
    forall name, name ∉ timer_names ->
      self_dict w' !! name = self_dict w !! name.
Proof.
  eexists. split; [reflexivity|]. simpl.
  do 5 (split; [reflexivity|]).
  split; [unfold timers_reset; simpl; by simplify_map_eq|].
  intros name Hname.
  repeat (rewrite lookup_insert_ne; [|intros <-; apply Hname; in_names]).
  reflexivity.
Qed.

Lemma timers_reset_insert (t : nat) (name : string) (v : value) (d : gmap string value) :
  name ∉ timer_names ->
  timers_reset t d -> timers_reset t (<[name:=v]> d).
Proof.
  intros Hname Hd. unfold timers_reset in *.
  repeat (rewrite lookup_insert_ne; [|intros ->; apply Hname; in_names]).
  exact Hd.
Qed.

Lemma epoch_start_keeps_timers (t : nat) : keeps (on_attrs (timers_reset t)) epoch_start.
Proof.
  unfold epoch_start. keeps_all.
  intros d. apply timers_reset_insert.
  intros Hin. apply list_elem_of_In in Hin. simpl in Hin. intuition discriminate.
Qed.

Lemma reset_timers_resets (w : world) :
  on_attrs (timers_reset (ticks w)) (final (reset_timers w)).
Proof.
  destruct (reset_timers_run w) as (w' & Hrun & _ & _ & _ & _ & _ & Hreset & _).
  rewrite Hrun. exact Hreset.
Qed.

Lemma base_train_epoch_start_resets (w : world) :
  on_attrs (timers_reset (ticks w)) (final (InnerEyeLightning_on_train_epoch_start w)).
Proof.
  unfold InnerEyeLightning_on_train_epoch_start.
  apply final_bind; [apply reset_timers_resets|intros _; keeps_all].
Qed.

Lemma base_validation_epoch_start_resets (w : world) :
  on_attrs (timers_reset (ticks w)) (final (InnerEyeLightning_on_validation_epoch_start w)).
Proof.
  unfold InnerEyeLightning_on_validation_epoch_start.
  apply final_bind; [apply reset_timers_resets|intros _; keeps_all].
Qed.

(** C3: at the start of every training epoch and of every validation epoch, in
    every class, the three counters are 0, the two totals are 0.0, and the two
    start times are the readings of the clock taken by the reset. *)
Theorem epoch_start_resets_timers (c : cls) (w : world) :
  timers_reset (ticks w) (self_dict (final (on_train_epoch_start c w))) /\
  timers_reset (ticks w) (self_dict (final (on_validation_epoch_start c w))).
Proof.
  pose proof (epoch_start_keeps_timers (ticks w)) as Hstart.
  pose proof (base_train_epoch_start_resets w) as Htrain.
  pose proof (base_validation_epoch_start_resets w) as Hval.
  split; destruct c; simpl; try assumption.
  - unfold SegmentationLightning_on_train_epoch_start.
    apply (final_bind (on_attrs (timers_reset (ticks w)))); [exact Htrain|intros _; exact Hstart].
  - unfold SegmentationLightning_on_validation_epoch_start.
    apply (final_bind (on_attrs (timers_reset (ticks w)))); [exact Hval|intros _; exact Hstart].
Qed.

(** *** batch_start *)

Ltac unfold_run :=
  unfold mbind, M_bind, bind, mret, M_ret, ret, raise, time_time, getattr, setattr, modify,
    gets, lift, logging, float_sub_value, value_add_float, final, result.

(** Run a method body forward in a state whose attributes are known. *)
Ltac exec :=
  repeat first
    [ progress simpl
    | rewrite lookup_insert_eq
    | rewrite lookup_insert_ne by discriminate
    | match goal with
      | Hl : self_dict ?w !! ?n = _ |- context [self_dict ?w !! ?n] => rewrite Hl
      | Hf : value_to_float ?v = _ |- context [value_to_float ?v] => rewrite Hf
      | Hb : PrimFloat.ltb ?a ?b = _ |- context [PrimFloat.ltb ?a ?b] => rewrite Hb
      | Hz : (?a =? ?b) = _ |- context [?a =? ?b] => rewrite Hz
      | Hz : (?a <? ?b) = _ |- context [?a <? ?b] => rewrite Hz
      end ].

(** Follow every branch that the known attributes leave open. *)
Ltac branch :=
  match goal with
  | |- context [match ?d !! ?n with _ => _ end] => destruct (d !! n) eqn:?
  | |- context [match value_to_float ?v with _ => _ end] =>
      destruct (value_to_float v) eqn:?
  | |- context [match py_add ?a ?b with _ => _ end] => destruct (py_add a b) eqn:?
  | |- context [match py_lt ?a ?b with _ => _ end] => destruct (py_lt a b) eqn:?
  | |- context [match py_gt ?a ?b with _ => _ end] => destruct (py_gt a b) eqn:?
  | |- context [if ?b then _ else _] => destruct b eqn:?
  end.

Ltac branches := repeat (exec; try branch).

(** C4: every [batch_start] adds the measured load time (the clock reading
    minus [item_start_time]) to [total_load_time]; and in a batch with
    [batch_idx > 0] whose load time exceeds [MAX_ITEM_LOAD_TIME_SEC], 0.5, it
    adds one to [num_load_time_exceeded] and that load time to
    [total_extra_load_time]. *)
Theorem batch_start_adds_load_time
    (w : world) (batch_idx : Z) (is_training : bool) (vs vt : value) (t0 T : float) :
  self_dict w !! "item_start_time" = Some vs -> value_to_float vs = Ok t0 ->
  self_dict w !! "total_load_time" = Some vt -> value_to_float vt = Ok T ->
  let w' := final (batch_start batch_idx is_training w) in
  let load := measured_load_time w t0 in
  MAX_ITEM_LOAD_TIME_SEC = PrimFloat.div PrimFloat.one PrimFloat.two /\
  self_dict w' !! "total_load_time" = Some (VFloat (PrimFloat.add T load)) /\
  (forall (n : Z) (ve : value) (E : float),
     0 < batch_idx ->
     PrimFloat.ltb MAX_ITEM_LOAD_TIME_SEC load = true ->
     self_dict w !! "num_load_time_exceeded" = Some (VInt n) ->
     self_dict w !! "total_extra_load_time" = Some ve -> value_to_float ve = Ok E ->
     self_dict w' !! "num_load_time_exceeded" = Some (VInt (n + 1)) /\
     self_dict w' !! "total_extra_load_time" = Some (VFloat (PrimFloat.add E load))).
Proof.
  intros Hs Ht0 Ht HT w' load. subst w' load. unfold measured_load_time.
  split; [reflexivity|]. split.
  - unfold batch_start. unfold_run. branches; reflexivity.
  - intros n ve E Hidx Hslow Hn He HE.
    assert (Hne : (batch_idx =? 0) = false) by lia.
    unfold batch_start. unfold_run. split; branches; reflexivity.
Qed.

(** C10: in the first batch of an epoch, [batch_idx == 0], [batch_start] leaves
    [num_load_time_exceeded], [total_extra_load_time] and
    [num_load_time_warnings] as they are and logs no warning, whatever the
    measured load time; the load time is still added to [total_load_time]. *)
Theorem first_batch_is_never_slow (w : world) (is_training : bool) :
  let w' := final (batch_start 0 is_training w) in
  (self_dict w' !! "num_load_time_exceeded" = self_dict w !! "num_load_time_exceeded" /\
   self_dict w' !! "total_extra_load_time" = self_dict w !! "total_extra_load_time" /\
   self_dict w' !! "num_load_time_warnings" = self_dict w !! "num_load_time_warnings" /\
   forall m, (WARNING, m) ∈ log_records w' -> (WARNING, m) ∈ log_records w) /\
  (forall (vs vt : value) (t0 T : float),
     self_dict w !! "item_start_time" = Some vs -> value_to_float vs = Ok t0 ->
     self_dict w !! "total_load_time" = Some vt -> value_to_float vt = Ok T ->
     self_dict w' !! "total_load_time"
     = Some (VFloat (PrimFloat.add T (measured_load_time w t0)))).
Proof.
  intros w'. subst w'. split.
  - unfold batch_start. unfold_run.
    repeat split; branches; try reflexivity; intros m Hm; try assumption.
    apply elem_of_app in Hm as [Hm|Hm]; [exact Hm|].
    apply list_elem_of_singleton in Hm. discriminate.
  - intros vs vt t0 T Hs Ht0 Ht HT.
    unfold batch_start, measured_load_time. unfold_run. branches; reflexivity.
Qed.

(** *** The number of slow-batch warnings in an epoch *)

Lemma slow_warnings_app l r :
  slow_warnings (l ++ [r]) = slow_warnings l + (if is_slow_warning r then 1 else 0).
Proof.
  unfold slow_warnings. rewrite filter_app, length_app.
  destruct (is_slow_warning r) eqn:Hr.
  - rewrite filter_cons_True by exact Hr. simpl. lia.
  - rewrite filter_cons_False by (rewrite Hr; discriminate). simpl. lia.
Qed.

Lemma reset_timers_in_epoch (w : world) :
  in_epoch (slow_warnings (log_records w)) (final (reset_timers w)).
Proof.
  destruct (reset_timers_run w) as (w' & Hrun & _ & _ & Hlog & _ & _ & Hreset & _).
  rewrite Hrun. simpl. destruct Hreset as (H1 & H2 & H3 & H4 & H5 & H6 & H7).
  exists 0, 0, 0, (clock (S (ticks w))), f0, f0.
  rewrite Hlog. unfold MAX_LOAD_TIME_WARNINGS. repeat split; try assumption; lia.
Qed.

Ltac close_in_epoch :=
  split; [reflexivity|];
  do 6 eexists; do 6 (split; [reflexivity|]);
  rewrite ?slow_warnings_app; simpl;
  repeat match goal with
         | Hlt : (_ <? _) = true |- _ => apply Z.ltb_lt in Hlt
         | Hlt : (_ <? _) = false |- _ => apply Z.ltb_ge in Hlt
         end;
  unfold MAX_LOAD_TIME_WARNINGS in *; lia.

Lemma batch_start_in_epoch (base : Z) (w : world) (batch_idx : Z) (is_training : bool) :
  in_epoch base w ->
  result (batch_start batch_idx is_training w) = Ok tt /\
  in_epoch base (final (batch_start batch_idx is_training w)).
Proof.
  intros (n & exceeded & nb & ts & tl & te & Hn & Hex & Hnb & Hts & Htl & Hte & Hle & Hlog).
  unfold batch_start, in_epoch. unfold_run. branches; close_in_epoch.
Qed.

Lemma on_batch_end_in_epoch (base : Z) (w : world) :
  in_epoch base w ->
  result (on_batch_end w) = Ok tt /\ in_epoch base (final (on_batch_end w)).
Proof.
  intros (n & exceeded & nb & ts & tl & te & Hn & Hex & Hnb & Hts & Htl & Hte & Hle & Hlog).
  unfold on_batch_end, in_epoch. unfold_run. branches; close_in_epoch.
Qed.

Lemma batch_call_in_epoch (base : Z) (c : cls) (m : method) (w : world) :
  is_batch_call m -> in_epoch base w ->
  result (call c m w) = Ok tt /\ in_epoch base (final (call c m w)).
Proof.
  intros Hm Hw. destruct m; try contradiction; simpl.
  - apply batch_start_in_epoch, Hw.
  - apply batch_start_in_epoch, Hw.
  - apply batch_start_in_epoch, Hw.
  - apply on_batch_end_in_epoch, Hw.
Qed.

Lemma batch_calls_in_epoch (base : Z) (c : cls) (ms : list method) (w : world) :
  Forall is_batch_call ms -> in_epoch base w ->
  result (calls c ms w) = Ok tt /\ in_epoch base (final (calls c ms w)).
Proof.
  intros Hms. revert w. induction Hms as [|m ms Hm Hms IH]; intros w Hw.
  - split; [reflexivity|exact Hw].
  - destruct (batch_call_in_epoch base c m w Hm Hw) as [Hres Hinv].
    simpl. unfold result, final in *. rewrite run_bind.
    destruct (call c m w) as [[[]|e] w']; simpl in *; [|discriminate].
    apply IH, Hinv.
Qed.

(** C9: from the start of an epoch on, every run of [batch_start] and
    [on_batch_end] calls returns, keeps [num_load_time_warnings] between 0 and
    [MAX_LOAD_TIME_WARNINGS], which is 3, and has logged exactly as many
    slow-minibatch warnings as the counter says: a warning is logged, and the
    counter incremented, only while the counter is below the limit. *)
Theorem load_time_warnings_bounded (c : cls) (ms : list method) (w : world) :
  Forall is_batch_call ms ->
  let w0 := final (reset_timers w) in
  let w' := final (calls c ms w0) in
  MAX_LOAD_TIME_WARNINGS = 3 /\
  self_dict w0 !! "num_load_time_warnings" = Some (VInt 0) /\
  result (calls c ms w0) = Ok tt /\
  exists n : Z,
    self_dict w' !! "num_load_time_warnings" = Some (VInt n) /\
    0 <= n <= MAX_LOAD_TIME_WARNINGS /\
    slow_warnings (log_records w') = slow_warnings (log_records w) + n.
Proof.
  intros Hms w0 w'. subst w0 w'.
  pose proof (reset_timers_in_epoch w) as Hstart.
  destruct (batch_calls_in_epoch _ c ms _ Hms Hstart) as [Hres Hinv].
  split; [reflexivity|]. split.
  { pose proof (reset_timers_resets w) as Hr. apply Hr. }
  split; [exact Hres|].
  destruct Hinv as (n & exceeded & nb & ts & tl & te & Hn & _ & _ & _ & _ & _ & Hle & Hlog).
  exists n. auto.
Qed.

(** ** Attributes that no method assigns *)

Ltac not_protected :=
  let Hin := fresh "Hin" in
  intros Hin; apply list_elem_of_In in Hin; simpl in Hin; intuition discriminate.

Section AnyInvariant.

(** What does not assign an attribute keeps every invariant on the
    attributes. *)
Variable J : gmap string value -> Prop.

Ltac frame := keeps_all.

Lemma keeps_add_metric (v : value) (t : MetricType) (x : M world value) (hue : string) :
  keeps (on_attrs J) x -> keeps (on_attrs J) (add_metric v t x hue).
Proof. intros Hx. unfold add_metric. frame. Qed.

Lemma keeps_add_diagnostics (v : value) (t : MetricType) (d : tensor) :
  keeps (on_attrs J) (add_diagnostics v t d).
Proof. unfold add_diagnostics. frame. Qed.

Lemma keeps_configure_optimizers : keeps (on_attrs J) configure_optimizers.
Proof. unfold configure_optimizers. frame. Qed.

Lemma keeps_write_metric (is_training : bool) (t : MetricType) (v : value) (hue : string) :
  keeps (on_attrs J) (write_metric is_training t v hue).
Proof.
  unfold write_metric, metrics_train_or_val. frame.
  apply keeps_add_metric. frame.
Qed.

Lemma keeps_write_loss (is_training : bool) (loss : loss_value) :
  keeps (on_attrs J) (write_loss is_training loss).
Proof.
  unfold write_loss, metrics_train_or_val. frame.
  apply keeps_add_metric. frame.
Qed.

Lemma keeps_aggregate_metrics (c : cls) : keeps (on_attrs J) (aggregate_metrics c).
Proof.
  destruct c; simpl;
    unfold InnerEyeLightning_aggregate_metrics, SegmentationLightning_aggregate_metrics,
      ScalarLightning_aggregate_metrics; frame.
Qed.

Lemma keeps_store_epoch_metrics (is_training : bool) (v : value) :
  keeps (on_attrs J) (store_epoch_metrics is_training v).
Proof. unfold store_epoch_metrics. frame. intros w Hw. exact Hw. Qed.

Lemma keeps_dice_item (dice : list (list float)) (b i : nat) :
  keeps (on_attrs J) (dice_item dice b i).
Proof. unfold dice_item. frame. Qed.

Lemma keeps_voxels_item (voxels : list num) (i : nat) :
  keeps (on_attrs J) (voxels_item voxels i).
Proof. unfold voxels_item. frame. Qed.

Lemma keeps_store_dice (dice : list (list float)) (i : nat) (hue : string) (bs : list nat) :
  keeps (on_attrs J) (store_dice dice i hue bs).
Proof.
  induction bs as [|b bs IH]; simpl; frame.
  apply keeps_add_metric, keeps_dice_item.
Qed.

Lemma keeps_store_hues (dice : list (list float)) (voxels : list num) (i : nat)
    (hue_names : list string) :
  keeps (on_attrs J) (store_hues dice voxels i hue_names).
Proof.
  revert i. induction hue_names as [|hue rest IH]; intros i; simpl; frame.
  - apply keeps_store_dice.
  - apply keeps_add_metric, keeps_voxels_item.
Qed.

Lemma keeps_segmentation_step (sample : batch) (batch_index : Z) (is_training : bool) :
  keeps (on_attrs J)
        (SegmentationLightning_training_or_validation_step sample batch_index is_training).
Proof.
  pose proof keeps_store_hues as Hhues.
  pose proof keeps_add_diagnostics as Hdiag.
  pose proof keeps_write_loss as Hloss.
  unfold SegmentationLightning_training_or_validation_step. frame.
  apply keeps_add_metric. frame.
Qed.

Lemma keeps_scalar_step (sample : batch) (batch_index : Z) (is_training : bool) :
  keeps (on_attrs J)
        (ScalarLightning_training_or_validation_step sample batch_index is_training).
Proof.
  pose proof keeps_write_loss as Hloss.
  unfold ScalarLightning_training_or_validation_step. frame.
Qed.

Lemma keeps_discard {A} (m : M world A) : keeps (on_attrs J) m -> keeps (on_attrs J) (discard m).
Proof. intros Hm. unfold discard. frame. Qed.

End AnyInvariant.

#[local] Hint Resolve keeps_add_metric keeps_add_diagnostics keeps_configure_optimizers
  keeps_write_metric keeps_write_loss keeps_aggregate_metrics keeps_store_epoch_metrics
  keeps_dice_item keeps_voxels_item keeps_store_dice keeps_store_hues
  keeps_segmentation_step keeps_scalar_step keeps_discard : keeps.

Section History.

(** [epoch_end] assigns the two history lists only. *)
Variable J : gmap string value -> Prop.
Hypothesis J_train :
  forall v d, J d -> J (<["train_metrics_per_epoch":=v]> d).
Hypothesis J_validation :
  forall v d, J d -> J (<["validation_metrics_per_epoch":=v]> d).

Lemma keeps_epoch_end (c : cls) (is_training : bool) :
  keeps (on_attrs J) (epoch_end c is_training).
Proof.
  destruct c; simpl; unfold InnerEyeLightning_epoch_end, ScalarLightning_epoch_end;
    keeps_all; auto.
Qed.

Lemma keeps_on_validation_epoch_end (c : cls) :
  keeps (on_attrs J) (on_validation_epoch_end c).
Proof.
  pose proof (keeps_epoch_end c false) as Hend.
  unfold on_validation_epoch_end. keeps_all.
Qed.

End History.

Section Frame.

(** An invariant on the attributes that survives every assignment to an
    unprotected attribute, and the assignment of a MetricsDict to
    [self.metrics]. *)
Variable J : gmap string value -> Prop.
Hypothesis J_insert :
  forall name v d, name ∉ protected_names -> J d -> J (<[name:=v]> d).
Hypothesis J_metrics :
  forall l d, J d -> J (<["metrics":=VMetrics l]> d).

Ltac frame :=
  keeps_all; try (intros ?; apply J_insert; not_protected).

Lemma keeps_reset_timers : keeps (on_attrs J) reset_timers.
Proof. unfold reset_timers. frame. Qed.

Lemma keeps_batch_start (batch_idx : Z) (is_training : bool) :
  keeps (on_attrs J) (batch_start batch_idx is_training).
Proof. unfold batch_start. frame. Qed.

Lemma keeps_on_batch_end : keeps (on_attrs J) on_batch_end.
Proof. unfold on_batch_end. frame. Qed.

Lemma keeps_epoch_end_frame (c : cls) (is_training : bool) :
  keeps (on_attrs J) (epoch_end c is_training).
Proof. apply keeps_epoch_end; intros v d; apply J_insert; not_protected. Qed.

Lemma keeps_on_train_epoch_end (c : cls) : keeps (on_attrs J) (on_train_epoch_end c).
Proof.
  pose proof (keeps_epoch_end_frame c true) as Hend.
  unfold on_train_epoch_end, snapshot_random_state. frame.
Qed.

Lemma keeps_epoch_start : keeps (on_attrs J) epoch_start.
Proof.
  intros w Hw. unfold epoch_start. unfold_run.
  destruct (self_dict w !! "config") as [[]|]; simpl; try exact Hw.
  apply J_metrics, Hw.
Qed.

Lemma keeps_on_train_epoch_start (c : cls) : keeps (on_attrs J) (on_train_epoch_start c).
Proof.
  pose proof keeps_reset_timers as Hreset.
  pose proof keeps_epoch_start as Hstart.
  assert (Hbase : keeps (on_attrs J) InnerEyeLightning_on_train_epoch_start).
  { unfold InnerEyeLightning_on_train_epoch_start. frame. }
  destruct c; simpl; try exact Hbase.
  unfold SegmentationLightning_on_train_epoch_start. frame.
Qed.

Lemma keeps_on_validation_epoch_start (c : cls) :
  keeps (on_attrs J) (on_validation_epoch_start c).
Proof.
  pose proof keeps_reset_timers as Hreset.
  pose proof keeps_epoch_start as Hstart.
  assert (Hbase : keeps (on_attrs J) InnerEyeLightning_on_validation_epoch_start).
  { unfold InnerEyeLightning_on_validation_epoch_start. frame. }
  destruct c; simpl; try exact Hbase.
  unfold SegmentationLightning_on_validation_epoch_start. frame.
Qed.

Lemma keeps_call (c : cls) (m : method) : keeps (on_attrs J) (call c m).
Proof.
  destruct m; simpl;
    auto using keeps_on_train_epoch_end, keeps_on_train_epoch_start,
      keeps_on_validation_epoch_start, keeps_epoch_end_frame, keeps_batch_start,
      keeps_on_batch_end, keeps_reset_timers with keeps.
  - apply keeps_on_validation_epoch_end; intros v d; apply J_insert; not_protected.
  - apply keeps_batch_start.
  - apply keeps_batch_start.
  - destruct c; [frame| |].
    + destruct inputs as [|patches [|]]; try (frame; fail).
      apply keeps_discard. unfold SegmentationLightning_forward. frame.
    + apply keeps_discard.
      unfold ScalarLightning_forward, ScalarLightning_logits_to_posterior. frame.
  - destruct c; try (frame; fail).
    apply keeps_discard. unfold ScalarLightning_logits_to_posterior. frame.
  - destruct c; try (frame; fail). apply keeps_epoch_start.
  - destruct c; unfold training_step; frame.
  - destruct c; unfold validation_step; frame.
  - destruct c; frame.
Qed.

End Frame.

(** *** What holds of the attributes of every module *)

Lemma module_attrs_insert (c : cls) (name : string) (v : value) (d : gmap string value) :
  name ∉ protected_names -> module_attrs c d -> module_attrs c (<[name:=v]> d).
Proof.
  intros Hname Hd. unfold module_attrs in *.
  repeat (rewrite lookup_insert_ne; [|intros ->; apply Hname; in_names]).
  exact Hd.
Qed.

Lemma module_attrs_metrics (c : cls) (l : loc) (d : gmap string value) :
  module_attrs c d -> module_attrs c (<["metrics":=VMetrics l]> d).
Proof.
  intros (Htrain & Hval & _ & Hconfig & Hc). unfold module_attrs.
  rewrite lookup_insert_eq. rewrite !lookup_insert_ne by discriminate.
  repeat split; try assumption. exists l. reflexivity.
Qed.

Lemma init_module_attrs (c : cls) (config : Config) (w : world) :
  module_attrs c (self_dict (final (init c config w))).
Proof.
  destruct c; unfold module_attrs; vm_compute; repeat split; eauto.
Qed.

Lemma reachable_module_attrs (c : cls) (w : world) :
  reachable c w -> module_attrs c (self_dict w).
Proof.
  induction 1 as [config w|m w Hw IH|w w' Hw IH Heq].
  - apply init_module_attrs.
  - apply (keeps_call (module_attrs c)); [apply module_attrs_insert| |exact IH].
    intros l d. apply module_attrs_metrics.
  - rewrite Heq. exact IH.
Qed.

(** ** write_metric and write_loss *)

Lemma write_metric_run (w : world) (is_training : bool) (t : MetricType) (v : value)
    (hue : string) :
  self_dict w !! "metrics_train" = None -> self_dict w !! "metrics_val" = None ->
  write_metric is_training t v hue w = (Raise (AttributeError (metrics_attr is_training)), w).
Proof.
  intros Htrain Hval. unfold write_metric, metrics_train_or_val.
  destruct is_training; unfold_run; exec; reflexivity.
Qed.

Lemma write_loss_run (w : world) (is_training : bool) (loss : loss_value) :
  self_dict w !! "metrics_train" = None -> self_dict w !! "metrics_val" = None ->
  write_loss is_training loss w
  = (Raise (AttributeError (metrics_attr is_training)),
     set_lightning_log
       (lightning_log w ++ [(if is_training then "train_loss" else "val_loss", loss)]) w).
Proof.
  intros Htrain Hval. unfold write_loss, metrics_train_or_val, self_log.
  destruct is_training; unfold_run; exec; reflexivity.
Qed.

(** *** Computations that cannot return *)

Lemma fails_bind_l {A B} I (m : M world A) (k : A -> M world B) :
  fails I m -> fails I (m ≫= k).
Proof.
  intros Hm w Hw. destruct (Hm w Hw) as [e He].
  unfold result in *. rewrite run_bind.
  destruct (m w) as [[a|e'] w']; simpl in *; [discriminate|eauto].
Qed.

Lemma fails_bind_r {A B} I (m : M world A) (k : A -> M world B) :
  keeps I m -> (forall a, fails I (k a)) -> fails I (m ≫= k).
Proof.
  intros Hm Hk w Hw. specialize (Hm w Hw).
  unfold result, final in *. rewrite run_bind.
  destruct (m w) as [[a|e'] w']; simpl in *; [apply Hk, Hm|eauto].
Qed.

Lemma fails_write_loss (c : cls) (is_training : bool) (loss : loss_value) :
  fails (on_attrs (module_attrs c)) (write_loss is_training loss).
Proof.
  intros w (Htrain & Hval & _). rewrite write_loss_run by assumption. eauto.
Qed.

Lemma segmentation_step_fails (c : cls) (sample : batch) (batch_index : Z)
    (is_training : bool) :
  fails (on_attrs (module_attrs c))
        (SegmentationLightning_training_or_validation_step sample batch_index is_training).
Proof.
  pose proof (keeps_store_hues (module_attrs c)) as Hhues.
  pose proof (keeps_add_diagnostics (module_attrs c)) as Hdiag.
  pose proof (keeps_add_metric (module_attrs c)) as Hadd.
  unfold SegmentationLightning_training_or_validation_step. cbv zeta.
  repeat first
    [ apply fails_bind_l; apply fails_write_loss
    | apply fails_bind_r; [|intros ?] ];
    auto with keeps.
Qed.

(** *** The segmentation step up to [write_loss] *)

Lemma add_metric_run (w w1 : world) (l : loc) (t : MetricType) (x : M world value)
    (hue : string) (v : value) (n : num) :
  x w = (Ok v, w1) -> self_dict w1 = self_dict w -> as_num v = Some n ->
  exists w', add_metric (VMetrics l) t x hue w = (Ok tt, w') /\
             self_dict w' = self_dict w.
Proof.
  intros Hx Hattrs Hn. unfold add_metric, metric_value_of, update_metrics. unfold_run.
  simpl. rewrite Hx, Hn. simpl. eauto.
Qed.

Lemma store_dice_run (dice : list (list float)) (i : nat) (hue : string) (bs : list nat)
    (l : loc) (w : world) :
  self_dict w !! "metrics" = Some (VMetrics l) ->
  (forall b, b ∈ bs -> exists row d, dice !! b = Some row /\ row !! i = Some d) ->
  exists w', store_dice dice i hue bs w = (Ok tt, w') /\ self_dict w' = self_dict w.
Proof.
  revert w. induction bs as [|b bs IH]; intros w Hmetrics Hbs; simpl.
  - eauto.
  - destruct (Hbs b) as (row & d & Hrow & Hd); [left|].
    destruct (add_metric_run w w l DICE (dice_item dice b i) hue (VFloat d) (NFloat d))
      as (w1 & Hrun1 & Hattrs1); try reflexivity.
    { unfold dice_item. rewrite Hrow, Hd. reflexivity. }
    destruct (IH w1) as (w2 & Hrun2 & Hattrs2).
    { rewrite Hattrs1. exact Hmetrics. }
    { intros b' Hb'. apply Hbs. right. exact Hb'. }
    exists w2. split; [|congruence].
    rewrite run_bind, (run_getattr_some _ _ _ Hmetrics).
    rewrite run_bind, Hrun1. exact Hrun2.
Qed.

Lemma store_hues_run (dice : list (list float)) (voxels : list num) (hue_names : list string)
    (i : nat) (l : loc) (w : world) :
  self_dict w !! "metrics" = Some (VMetrics l) ->
  Forall (fun row => (i + length hue_names <= length row)%nat) dice ->
  (i + length hue_names <= length voxels)%nat ->
  exists w', store_hues dice voxels i hue_names w = (Ok tt, w') /\
             self_dict w' = self_dict w.
Proof.
  revert i w. induction hue_names as [|hue rest IH]; intros i w Hmetrics Hdice Hvoxels; simpl.
  - eauto.
  - simpl in Hdice, Hvoxels.
    destruct (store_dice_run dice i hue (seq 0 (length dice)) l w Hmetrics)
      as (w1 & Hrun1 & Hattrs1).
    { intros b Hb. apply elem_of_seq in Hb as [_ Hb].
      destruct (lookup_lt_is_Some_2 dice b) as [row Hrow]; [lia|].
      rewrite Forall_forall in Hdice.
      assert (Hlen : (i + S (length rest) <= length row)%nat).
      { apply Hdice. eapply list_elem_of_lookup_2. exact Hrow. }
      destruct (lookup_lt_is_Some_2 row i) as [d Hd]; [lia|]. eauto. }
    assert (Hmetrics1 : self_dict w1 !! "metrics" = Some (VMetrics l))
      by (rewrite Hattrs1; exact Hmetrics).
    destruct (lookup_lt_is_Some_2 voxels i) as [n Hn]; [lia|].
    destruct (add_metric_run w1 w1 l VOXEL_COUNT (voxels_item voxels i) hue (of_num n) n)
      as (w2 & Hrun2 & Hattrs2); try reflexivity.
    { unfold voxels_item. rewrite Hn. reflexivity. }
    { destruct n; reflexivity. }
    destruct (IH (S i) w2) as (w3 & Hrun3 & Hattrs3).
    { rewrite Hattrs2. exact Hmetrics1. }
    { eapply Forall_impl; [exact Hdice|]. simpl. intros row Hrow. lia. }
    { lia. }
    exists w3. split; [|congruence].
    rewrite run_bind, Hrun1.
    rewrite run_bind, (run_getattr_some _ _ _ Hmetrics1).
    rewrite run_bind, Hrun2. exact Hrun3.
Qed.

Lemma segmentation_step_run (w : world) (sample : batch) (batch_index : Z)
    (is_training : bool) (l : loc) :
  module_attrs SegmentationLightning (self_dict w) ->
  self_dict w !! "metrics" = Some (VMetrics l) ->
  one_column_per_hue (length (hues (heap w l))) ->
  result (SegmentationLightning_training_or_validation_step sample batch_index is_training w)
  = Raise (AttributeError (metrics_attr is_training)).
Proof.
  intros (Htrain & Hval & _ & [config Hconfig] & Hmodel & Hloss) Hmetrics [Hdice Hvoxels].
  unfold SegmentationLightning_training_or_validation_step. cbv zeta.
  unfold add_metric, add_diagnostics, metric_value_of, update_metrics. unfold_run.
  exec. rewrite decide_True by reflexivity.
  unfold MetricsDict_get_hue_names. simpl hues.
  match goal with
  | |- context [store_hues ?d ?v 0%nat ?h ?w1] =>
      destruct (store_hues_run d v h 0 l w1) as (w2 & Hrun & Hattrs);
        [exact Hmetrics|apply Hdice|apply Hvoxels|rewrite Hrun]
  end.
  simpl in Hattrs. rewrite Hattrs, Hmetrics. simpl.
  rewrite write_loss_run by (simpl; rewrite Hattrs; assumption).
  reflexivity.
Qed.

(** C1: in every state a module can reach, the attributes [metrics_train] and
    [metrics_val] do not exist; so every [write_metric] raises the
    attribute error and changes nothing, every [write_loss] raises it after
    handing the loss to the Lightning log, and no
    [SegmentationLightning.training_or_validation_step] returns: it raises, and
    what it raises is that attribute error whenever the collaborators report a
    Dice column and a voxel count for each hue. *)
Theorem metrics_train_and_val_never_assigned (c : cls) (w : world) :
  reachable c w ->
  (self_dict w !! "metrics_train" = None /\ self_dict w !! "metrics_val" = None) /\
  (forall is_training metric_type metric_value hue,
     write_metric is_training metric_type metric_value hue w
     = (Raise (AttributeError (metrics_attr is_training)), w)) /\
  (forall is_training loss,
     result (write_loss is_training loss w) = Raise (AttributeError (metrics_attr is_training)) /\
     self_dict (final (write_loss is_training loss w)) = self_dict w /\
     heap (final (write_loss is_training loss w)) = heap w) /\
  (c = SegmentationLightning ->
   forall sample batch_index is_training,
     let step := SegmentationLightning_training_or_validation_step
                   sample batch_index is_training in
     (exists e, result (step w) = Raise e) /\
     (forall l, self_dict w !! "metrics" = Some (VMetrics l) ->
                one_column_per_hue (length (hues (heap w l))) ->
                result (step w) = Raise (AttributeError (metrics_attr is_training)))).
Proof.
  intros Hw. pose proof (reachable_module_attrs c w Hw) as Hattrs.
  destruct Hattrs as (Htrain & Hval & Hrest).
  split; [auto|]. split; [|split].
  - intros. apply write_metric_run; assumption.
  - intros. rewrite write_loss_run by assumption. auto.
  - intros -> sample batch_index is_training step. subst step. split.
    + apply (segmentation_step_fails SegmentationLightning).
      unfold on_attrs, module_attrs. auto.
    + intros l Hl Hshape. apply (segmentation_step_run w sample batch_index is_training l).
      * unfold module_attrs. auto.
      * exact Hl.
      * exact Hshape.
Qed.

(** ** aggregate_metrics *)

(** C7: [InnerEyeLightning.aggregate_metrics] raises NotImplementedError in
    every state, and the overrides of [SegmentationLightning] and
    [ScalarLightning] return a new MetricsDict, built from the accumulator
    [self.metrics], in every state such a module can reach. *)
Theorem aggregate_metrics_abstract_in_base (c : cls) (w : world) :
  aggregate_metrics InnerEyeLightning w
  = (Raise (NotImplementedError "This method must be overwritten in a derived class."), w) /\
  (c <> InnerEyeLightning -> reachable c w ->
   exists l,
     self_dict w !! "metrics" = Some (VMetrics l) /\
     result (aggregate_metrics c w) = Ok (VMetrics (next_loc w)) /\
     heap (final (aggregate_metrics c w)) (next_loc w) = aggregation c (heap w l) /\
     self_dict (final (aggregate_metrics c w)) = self_dict w).
Proof.
  split; [reflexivity|].
  intros Hc Hw. apply reachable_module_attrs in Hw.
  destruct Hw as (_ & _ & [l Hl] & _). exists l. split; [exact Hl|].
  destruct c; [contradiction| |];
    unfold aggregate_metrics, SegmentationLightning_aggregate_metrics,
      ScalarLightning_aggregate_metrics, new_metrics;
    unfold_run; exec; rewrite decide_True by reflexivity; auto.
Qed.

(** ** forward *)

(** C8: in every state a segmentation module can reach,
    [SegmentationLightning.forward(patches)] returns the softmax along
    dimension 1 of the output of the model on [patches], and changes
    nothing. *)
Theorem forward_is_softmax_of_model (w : world) (patches : tensor) :
  reachable SegmentationLightning w ->
  SegmentationLightning_forward patches w = (Ok (softmax (model_call [patches]) 1), w) /\
  (forall logits, SegmentationLightning_logits_to_posterior logits = softmax logits 1).
Proof.
  intros Hw. apply reachable_module_attrs in Hw.
  destruct Hw as (_ & _ & _ & _ & Hmodel & _).
  split; [|reflexivity].
  unfold SegmentationLightning_forward. unfold_run. exec. reflexivity.
Qed.

(** ** The random state across epochs *)

Lemma epoch_start_rng (w : world) : rng (final (epoch_start w)) = rng w.
Proof.
  unfold epoch_start, new_metrics, config_of. unfold_run.
  destruct (self_dict w !! "config") as [[]|]; reflexivity.
Qed.

Lemma base_train_epoch_start_rng (w : world) (v : value) :
  self_dict w !! "random_state" = Some v ->
  rng (final (InnerEyeLightning_on_train_epoch_start w))
  = match v with
    | VSnapshot s => s
    | _ => rng w
    end.
Proof.
  intros Hv. unfold InnerEyeLightning_on_train_epoch_start.
  destruct (reset_timers_run w) as (w' & Hrun & _ & Hrng & _ & _ & _ & _ & Hother).
  assert (Hv' : self_dict w' !! "random_state" = Some v).
  { rewrite Hother; [exact Hv|].
    intros Hin. apply list_elem_of_In in Hin. simpl in Hin. intuition discriminate. }
  unfold final. rewrite (run_bind_ok _ _ _ _ _ Hrun).
  rewrite run_bind, (run_getattr_some _ _ _ Hv').
  destruct v; simpl; try exact Hrng; try reflexivity.
  - destruct b; simpl; exact Hrng.
  - destruct (negb (z =? 0)); simpl; exact Hrng.
  - destruct (negb (PrimFloat.eqb f f0)); simpl; exact Hrng.
  - destruct l; simpl; exact Hrng.
Qed.

Lemma final_bind_eq {A B} (m : M world A) (k : A -> M world B) (w : world) :
  final ((m ≫= k) w)
  = match m w with
    | (Ok a, w') => final (k a w')
    | (Raise _, w') => w'
    end.
Proof. rewrite run_bind. destruct (m w) as [[a|e] w']; reflexivity. Qed.

Lemma final_ok {A} (m : M world A) (w w' : world) (a : A) :
  m w = (Ok a, w') -> final (m w) = w'.
Proof. intros ->. reflexivity. Qed.

Lemma final_raise {A} (m : M world A) (w w' : world) (e : exn) :
  m w = (Raise e, w') -> final (m w) = w'.
Proof. intros ->. reflexivity. Qed.

Lemma train_epoch_start_rng (c : cls) (w : world) (v : value) :
  self_dict w !! "random_state" = Some v ->
  rng (final (on_train_epoch_start c w))
  = match v with
    | VSnapshot s => s
    | _ => rng w
    end.
Proof.
  intros Hv. pose proof (base_train_epoch_start_rng w v Hv) as Hbase.
  destruct c; [exact Hbase| |exact Hbase].
  change (on_train_epoch_start SegmentationLightning)
    with SegmentationLightning_on_train_epoch_start.
  unfold SegmentationLightning_on_train_epoch_start. rewrite final_bind_eq.
  destruct (InnerEyeLightning_on_train_epoch_start w) as [[[]|e] w'] eqn:Hrun.
  - unfold final in Hbase. cbn [snd] in Hbase. rewrite <- Hbase. apply epoch_start_rng.
  - unfold final in Hbase. cbn [snd] in Hbase. exact Hbase.
Qed.

Lemma random_state_insert (x : value) (name : string) (v : value) (d : gmap string value) :
  name <> "random_state" ->
  d !! "random_state" = Some x -> <[name:=v]> d !! "random_state" = Some x.
Proof. intros Hname Hd. rewrite lookup_insert_ne by exact Hname. exact Hd. Qed.

Lemma train_epoch_end_snapshot (c : cls) (w : world) :
  self_dict (final (on_train_epoch_end c w)) !! "random_state" = Some (VSnapshot (rng w)).
Proof.
  unfold on_train_epoch_end, final.
  rewrite (run_bind_ok _ _ w w (VSnapshot (rng w))) by reflexivity.
  apply (final_bind (on_attrs (fun d => d !! "random_state" = Some (VSnapshot (rng w))))).
  { apply lookup_insert_eq. }
  intros _. apply keeps_bind; [|auto with keeps].
  apply keeps_epoch_end; intros v d; apply random_state_insert; discriminate.
Qed.

(** C5: the end of every training epoch stores a snapshot of the generator
    state in [self.random_state]; a training epoch that starts with a snapshot
    there restores it, whatever the generators did in between; and the first
    training epoch, which starts with the [None] of the constructor, restores
    nothing. *)
Theorem random_state_checkpoint (c : cls) (w : world) :
  self_dict (final (on_train_epoch_end c w)) !! "random_state" = Some (VSnapshot (rng w)) /\
  (forall s, self_dict w !! "random_state" = Some (VSnapshot s) ->
             rng (final (on_train_epoch_start c w)) = s) /\
  (forall w1, self_dict w1 !! "random_state"
              = self_dict (final (on_train_epoch_end c w)) !! "random_state" ->
              rng (final (on_train_epoch_start c w1)) = rng w) /\
  (self_dict w !! "random_state" = Some VNone ->
   rng (final (on_train_epoch_start c w)) = rng w) /\
  (forall config, self_dict (final (init c config w)) !! "random_state" = Some VNone).
Proof.
  split; [apply train_epoch_end_snapshot|]. split; [|split; [|split]].
  - intros s Hs. apply (train_epoch_start_rng c w _ Hs).
  - intros w1 Hw1. rewrite train_epoch_end_snapshot in Hw1.
    apply (train_epoch_start_rng c w1 _ Hw1).
  - intros Hnone. apply (train_epoch_start_rng c w _ Hnone).
  - intros config. destruct c; vm_compute; reflexivity.
Qed.

(** ** The data module *)

(** C6: [test_dataloader] raises NotImplementedError in every state of the data
    module and leaves the state as it is. *)
Theorem test_dataloader_not_implemented (d : data_module) :
  test_dataloader d
  = (Raise (NotImplementedError
              "For segmentation models, the test dataset should not be evaluated patch-wise."),
     d).
Proof. reflexivity. Qed.

(** ** The metrics of an epoch *)

Lemma segmentation_epoch_start_resets_metrics (w : world) (config : Config) (v : value) :
  self_dict w !! "config" = Some (VConfig config) ->
  self_dict w !! "random_state" = Some v ->
  v = VNone \/ (exists s, v = VSnapshot s) ->
  let reset (r : outcome unit * world) :=
    result r = Ok tt /\
    self_dict (final r) !! "metrics" = Some (VMetrics (next_loc w)) /\
    heap (final r) (next_loc w)
    = MetricsDict_new (BACKGROUND_CLASS_NAME :: ground_truth_ids config) /\
    (forall l', (l' < next_loc w)%nat -> heap (final r) l' = heap w l') in
  reset (on_train_epoch_start SegmentationLightning w) /\
  reset (on_validation_epoch_start SegmentationLightning w).
Proof.
  intros Hconfig Hv Hsome reset. subst reset.
  unfold on_train_epoch_start, on_validation_epoch_start,
    SegmentationLightning_on_train_epoch_start,
    SegmentationLightning_on_validation_epoch_start,
    InnerEyeLightning_on_train_epoch_start, InnerEyeLightning_on_validation_epoch_start,
    reset_timers, epoch_start, new_metrics, config_of, restore_random_state.
  unfold_run.
  split; [destruct Hsome as [->|[s ->]]|]; exec;
    rewrite ?decide_True by reflexivity;
    (repeat split; try reflexivity);
    intros l' Hl'; rewrite decide_False by lia; reflexivity.
Qed.

(** * Further properties *)

(** ** What the methods assign *)

Section Assigned.

(** An invariant on the attributes that the timers and the batches keep
    and that survives the assignments of the methods other than
    [on_train_epoch_end]. *)
Variable J : gmap string value -> Prop.
Hypothesis J_reset_timers : keeps (on_attrs J) reset_timers.
Hypothesis J_batch_start :
  forall batch_idx is_training, keeps (on_attrs J) (batch_start batch_idx is_training).
Hypothesis J_on_batch_end : keeps (on_attrs J) on_batch_end.
Hypothesis J_metrics : forall l d, J d -> J (<["metrics":=VMetrics l]> d).
Hypothesis J_epoch_end :
  forall c is_training, keeps (on_attrs J) (epoch_end c is_training).

Ltac assigned := keeps_all; try (intros ?; apply J_metrics).

Lemma frame_on_validation_epoch_end (c : cls) :
  keeps (on_attrs J) (on_validation_epoch_end c).
Proof.
  pose proof (J_epoch_end c false) as Hend.
  unfold on_validation_epoch_end. keeps_all.
Qed.

Lemma frame_epoch_start : keeps (on_attrs J) epoch_start.
Proof.
  intros w Hw. unfold epoch_start. unfold_run.
  destruct (self_dict w !! "config") as [[]|]; simpl; try exact Hw.
  apply J_metrics, Hw.
Qed.

Lemma frame_on_train_epoch_start (c : cls) : keeps (on_attrs J) (on_train_epoch_start c).
Proof.
  pose proof frame_epoch_start as Hstart.
  assert (Hbase : keeps (on_attrs J) InnerEyeLightning_on_train_epoch_start).
  { unfold InnerEyeLightning_on_train_epoch_start. assigned. }
  destruct c; [exact Hbase| |exact Hbase].
  change (on_train_epoch_start SegmentationLightning)
    with SegmentationLightning_on_train_epoch_start.
  unfold SegmentationLightning_on_train_epoch_start. assigned.
Qed.

Lemma frame_on_validation_epoch_start (c : cls) :
  keeps (on_attrs J) (on_validation_epoch_start c).
Proof.
  pose proof frame_epoch_start as Hstart.
  assert (Hbase : keeps (on_attrs J) InnerEyeLightning_on_validation_epoch_start).
  { unfold InnerEyeLightning_on_validation_epoch_start. assigned. }
  destruct c; [exact Hbase| |exact Hbase].
  change (on_validation_epoch_start SegmentationLightning)
    with SegmentationLightning_on_validation_epoch_start.
  unfold SegmentationLightning_on_validation_epoch_start. assigned.
Qed.

Lemma frame_call (c : cls) (m : method) :
  m <> m_on_train_epoch_end -> keeps (on_attrs J) (call c m).
Proof.
  intros Hm.
  destruct m; try contradiction; simpl;
    auto using frame_on_train_epoch_start, frame_on_validation_epoch_start,
      frame_on_validation_epoch_end with keeps.
  - apply J_batch_start.
  - apply J_batch_start.
  - destruct c; [assigned| |].
    + destruct inputs as [|patches [|]]; try (assigned; fail).
      apply keeps_discard. unfold SegmentationLightning_forward. assigned.
    + apply keeps_discard.
      unfold ScalarLightning_forward, ScalarLightning_logits_to_posterior. assigned.
  - destruct c; try (assigned; fail).
    apply keeps_discard. unfold ScalarLightning_logits_to_posterior. assigned.
  - destruct c; try (assigned; fail). apply frame_epoch_start.
  - destruct c; unfold training_step; assigned.
  - destruct c; unfold validation_step; assigned.
  - destruct c; assigned.
Qed.

(** With the assignment of a snapshot by [on_train_epoch_end] as well, every
    call keeps the invariant. *)
Hypothesis J_random_state : forall s d, J d -> J (<["random_state":=VSnapshot s]> d).

Lemma frame_on_train_epoch_end (c : cls) : keeps (on_attrs J) (on_train_epoch_end c).
Proof.
  pose proof (J_epoch_end c true) as Hend.
  assert (Hk : forall s, keeps (on_attrs J)
                 (setattr "random_state" (VSnapshot s);; _ ← epoch_end c true; mret tt)).
  { intros s. keeps_all. intros d. apply J_random_state. }
  intros w Hw. unfold on_train_epoch_end.
  rewrite (run_bind_ok _ _ w w (VSnapshot (rng w))) by reflexivity.
  exact (Hk (rng w) w Hw).
Qed.

Lemma frame_any_call (c : cls) (m : method) : keeps (on_attrs J) (call c m).
Proof.
  destruct m; try (apply frame_call; discriminate).
  apply frame_on_train_epoch_end.
Qed.

End Assigned.

Section AssignedTimers.

(** An invariant that survives every assignment to a timer. *)
Variable J : gmap string value -> Prop.
Hypothesis J_timers :
  forall name v d, name ∈ timer_names -> J d -> J (<[name:=v]> d).

Ltac timers :=
  keeps_all; try (intros ?; apply J_timers; unfold timer_names; in_names).

Lemma frame_reset_timers : keeps (on_attrs J) reset_timers.
Proof. unfold reset_timers. timers. Qed.

Lemma frame_batch_start (batch_idx : Z) (is_training : bool) :
  keeps (on_attrs J) (batch_start batch_idx is_training).
Proof. unfold batch_start. timers. Qed.

Lemma frame_on_batch_end : keeps (on_attrs J) on_batch_end.
Proof. unfold on_batch_end. timers. Qed.

Hypothesis J_metrics : forall v d, J d -> J (<["metrics":=v]> d).
Hypothesis J_epoch_end :
  forall c is_training, keeps (on_attrs J) (epoch_end c is_training).

Lemma frame_call_timers (c : cls) (m : method) :
  m <> m_on_train_epoch_end -> keeps (on_attrs J) (call c m).
Proof.
  apply frame_call; auto using frame_reset_timers, frame_batch_start, frame_on_batch_end.
Qed.

Hypothesis J_random_state : forall v d, J d -> J (<["random_state":=v]> d).

Lemma frame_any_call_timers (c : cls) (m : method) : keeps (on_attrs J) (call c m).
Proof.
  apply frame_any_call;
    auto using frame_reset_timers, frame_batch_start, frame_on_batch_end.
Qed.

End AssignedTimers.

(** *** Attributes that stay as they are *)

Lemma runs_keep (J : gmap string value -> Prop) (c : cls) (w w' : world) :
  (forall m, keeps (on_attrs J) (call c m)) ->
  runs_to c w w' -> J (self_dict w) -> J (self_dict w').
Proof.
  intros Hcall Hrun. induction Hrun as [w|m w w' Hrun IH|w w1 w' Heq Hrun IH]; intros Hw.
  - exact Hw.
  - apply IH. apply (Hcall m w Hw).
  - apply IH. rewrite Heq. exact Hw.
Qed.

Lemma not_assigned_insert (name n : string) (x : option value) (v : value)
    (d : gmap string value) :
  n <> name -> d !! name = x -> <[n:=v]> d !! name = x.
Proof. intros Hn Hd. rewrite lookup_insert_ne by exact Hn. exact Hd. Qed.

Lemma timer_names_not_assigned (name n : string) :
  name ∉ method_assigned -> n ∈ timer_names -> n <> name.
Proof.
  intros Hname Hn ->. apply Hname. unfold method_assigned.
  apply elem_of_app. left. exact Hn.
Qed.

Lemma call_keeps_unassigned (c : cls) (m : method) (name : string) (x : option value) :
  name ∉ method_assigned -> keeps (on_attrs (fun d => d !! name = x)) (call c m).
Proof.
  intros Hname.
  assert (Hother : forall n, n ∈ ["random_state"; "metrics"; "train_metrics_per_epoch";
                                  "validation_metrics_per_epoch"] -> n <> name).
  { intros n Hn ->. apply Hname. unfold method_assigned. apply elem_of_app. right. exact Hn. }
  apply frame_any_call_timers.
  - intros n v d Hn. apply not_assigned_insert. eapply timer_names_not_assigned; eassumption.
  - intros v d. apply not_assigned_insert, Hother. in_names.
  - intros c' is_training. apply keeps_epoch_end; intros v d;
      apply not_assigned_insert, Hother; in_names.
  - intros v d. apply not_assigned_insert, Hother. in_names.
Qed.

Lemma reachable_keep (J : gmap string value -> Prop) (c : cls) (w : world) :
  (forall config w0, J (self_dict (final (init c config w0)))) ->
  (forall m, keeps (on_attrs J) (call c m)) ->
  reachable c w -> J (self_dict w).
Proof.
  intros Hinit Hcall. induction 1 as [config w|m w Hw IH|w w' Hw IH Heq].
  - apply Hinit.
  - apply (Hcall m w IH).
  - rewrite Heq. exact IH.
Qed.

Lemma reachable_unassigned (c : cls) (w : world) (name : string) (x : option value) :
  name ∉ method_assigned ->
  (forall config w0, self_dict (final (init c config w0)) !! name = x) ->
  reachable c w -> self_dict w !! name = x.
Proof.
  intros Hname Hinit. apply (reachable_keep (fun d => d !! name = x)); [exact Hinit|].
  intros m. apply call_keeps_unassigned, Hname.
Qed.

(** X1: no call, and so no run of calls, assigns an attribute other than the
    seven timers, [random_state], [metrics] and the two history lists: every
    other attribute, present or absent, stays as it is. *)
Theorem runs_assign_only (c : cls) (w w' : world) (name : string) :
  runs_to c w w' -> name ∉ method_assigned ->
  self_dict w' !! name = self_dict w !! name.
Proof.
  intros Hrun Hname.
  apply (runs_keep (fun d => d !! name = self_dict w !! name) c w w'); [|exact Hrun|reflexivity].
  intros m. apply call_keeps_unassigned, Hname.
Qed.

(** *** The snapshot between two training epochs *)

Lemma call_keeps_random_state (c : cls) (m : method) (x : option value) :
  m <> m_on_train_epoch_end ->
  keeps (on_attrs (fun d => d !! "random_state" = x)) (call c m).
Proof.
  intros Hm. apply frame_call_timers; try exact Hm.
  - intros n v d Hn. apply not_assigned_insert. intros ->.
    apply list_elem_of_In in Hn. simpl in Hn. intuition discriminate.
  - intros v d. apply not_assigned_insert. discriminate.
  - intros c' is_training. apply keeps_epoch_end; intros v d;
      apply not_assigned_insert; discriminate.
Qed.

Lemma between_epochs_keep_random_state (c : cls) (w w' : world) :
  between_epochs c w w' ->
  self_dict w' !! "random_state" = self_dict w !! "random_state".
Proof.
  intros Hrun. induction Hrun as [w|m w w' Hm Hrun IH|w w1 w' Heq Hrun IH].
  - reflexivity.
  - rewrite IH. apply (call_keeps_random_state c m _ Hm w). reflexivity.
  - rewrite IH, Heq. reflexivity.
Qed.

(** X2: only [on_train_epoch_end] assigns [random_state]: whatever is called
    on the module between the end of a training epoch and the start of the
    next one, validation epochs included, and whatever the generators do in
    between, the next training epoch starts from the generator state at the
    end of the last. *)
Theorem snapshot_survives_to_next_epoch (c : cls) (w w' : world) :
  between_epochs c (final (on_train_epoch_end c w)) w' ->
  self_dict w' !! "random_state" = Some (VSnapshot (rng w)) /\
  rng (final (on_train_epoch_start c w')) = rng w.
Proof.
  intros Hrun.
  assert (Hsnapshot : self_dict w' !! "random_state" = Some (VSnapshot (rng w))).
  { rewrite (between_epochs_keep_random_state c _ _ Hrun). apply train_epoch_end_snapshot. }
  split; [exact Hsnapshot|].
  apply (train_epoch_start_rng c w' _ Hsnapshot).
Qed.

(** *** The history lists only grow *)

Lemma keeps_history_append (name : string) (h : list value) (n : string) (r : value) :
  keeps (on_attrs (history_extends name h))
        (history ← getattr n; history ← list_append history r; setattr n history).
Proof.
  intros w [h' Hw]. unfold on_attrs, history_extends, list_append. unfold_run.
  destruct (decide (n = name)) as [->|Hn].
  - rewrite Hw. simpl. exists (app h' [r]).
    rewrite lookup_insert_eq, app_assoc. reflexivity.
  - destruct (self_dict w !! n) as [[]|]; simpl; eauto.
    exists h'. rewrite lookup_insert_ne by exact Hn. exact Hw.
Qed.

Lemma epoch_end_extends_history (name : string) (h : list value) (c : cls)
    (is_training : bool) :
  keeps (on_attrs (history_extends name h)) (epoch_end c is_training).
Proof.
  pose proof (keeps_aggregate_metrics (history_extends name h) c) as Hagg.
  destruct c; simpl; unfold InnerEyeLightning_epoch_end, ScalarLightning_epoch_end;
    repeat first [ apply keeps_history_append | keeps_step ].
Qed.

Lemma history_extends_insert (name : string) (h : list value) (n : string) (v : value)
    (d : gmap string value) :
  n <> name -> history_extends name h d -> history_extends name h (<[n:=v]> d).
Proof.
  intros Hn [h' Hd]. exists h'. rewrite lookup_insert_ne by exact Hn. exact Hd.
Qed.

(** X3: over every run of a module of any class, each history list only
    grows: the list it held before is a prefix of the list it holds after,
    so no appended entry is removed or replaced. *)
Theorem history_lists_only_grow (c : cls) (w w' : world) (is_training : bool)
    (h : list value) :
  runs_to c w w' ->
  self_dict w !! history_attr is_training = Some (VList h) ->
  exists h', self_dict w' !! history_attr is_training = Some (VList (h ++ h')).
Proof.
  intros Hrun Hh.
  apply (runs_keep (history_extends (history_attr is_training) h) c w w'); [|exact Hrun|].
  - intros m. apply frame_any_call_timers.
    + intros n v d Hn. apply history_extends_insert. intros ->.
      apply list_elem_of_In in Hn. destruct is_training; simpl in Hn; intuition discriminate.
    + intros v d. apply history_extends_insert. destruct is_training; discriminate.
    + intros c' is_training'. apply epoch_end_extends_history.
    + intros v d. apply history_extends_insert. destruct is_training; discriminate.
  - exists []. rewrite app_nil_r. exact Hh.
Qed.

(** ** configure_optimizers *)

Ltac not_assigned :=
  let Hin := fresh "Hin" in
  intros Hin; apply list_elem_of_In in Hin; simpl in Hin; intuition discriminate.

(** X4: [configure_optimizers] reads [self.config] and [self.model]: in
    every state a module of one of the two subclasses can reach it returns
    and changes nothing, and in every state a module of the base class can
    reach it raises the attribute error for [model], which only the
    constructors of the subclasses assign. *)
Theorem configure_optimizers_needs_a_model (c : cls) (w : world) :
  reachable c w ->
  configure_optimizers w
  = (match c with
     | InnerEyeLightning => Raise (AttributeError "model")
     | _ => Ok tt
     end, w).
Proof.
  intros Hw. pose proof (reachable_module_attrs c w Hw) as (_ & _ & _ & [config Hconfig] & Hc).
  unfold configure_optimizers. unfold_run. destruct c.
  - assert (Hmodel : self_dict w !! "model" = None).
    { apply (reachable_unassigned InnerEyeLightning w); [not_assigned| |exact Hw].
      intros config' w0. vm_compute. reflexivity. }
    exec. reflexivity.
  - destruct Hc as [Hmodel _]. exec. reflexivity.
  - destruct Hc as [Hmodel _]. exec. reflexivity.
Qed.

(** ** The scalar models *)

(** X5: the constructor of [ScalarLightning] raises the attribute error for
    [model_config] for every configuration: it reads [self.model_config],
    which nothing assigns, after it has assigned the model, the loss
    function and the metrics, and before it assigns [use_mean_teacher_model]
    and [logits_to_posterior_fn]. *)
Theorem scalar_constructor_raises (config : Config) (w : world) :
  let r := init ScalarLightning config w in
  result r = Raise (AttributeError "model_config") /\
  self_dict (final r) !! "model" = Some VModel /\
  self_dict (final r) !! "loss_fn" = Some VScalarLoss /\
  self_dict (final r) !! "metrics" = Some (VMetrics (S (next_loc w))) /\
  heap (final r) (S (next_loc w)) = create_metrics_dict_for_scalar_models config /\
  self_dict (final r) !! "use_mean_teacher_model" = None /\
  self_dict (final r) !! "logits_to_posterior_fn" = None.
Proof.
  intros r. subst r.
  split; [vm_compute; reflexivity|].
  split; [vm_compute; reflexivity|].
  split; [vm_compute; reflexivity|].
  split; [vm_compute; reflexivity|].
  split; [|split; vm_compute; reflexivity].
  destruct w as [d h n t r tr e lr ll se]. vm_compute.
  match goal with
  | |- match ?x with left _ => _ | right _ => _ end = _ =>
      destruct x as [_|Hne]; [reflexivity|exfalso; apply Hne; reflexivity]
  end.
Qed.

(** ** The generators at the start of a validation epoch *)

(** X9: every validation epoch starts from the generator state that the
    effective random seed of the configuration gives, whatever the state of
    the generators before, and leaves the snapshot of the training epochs in
    [random_state] alone. *)
Theorem validation_epoch_starts_from_seed (c : cls) (w : world) (config : Config) :
  self_dict w !! "config" = Some (VConfig config) ->
  rng (final (on_validation_epoch_start c w))
  = set_random_seed (effective_random_seed config) /\
  self_dict (final (on_validation_epoch_start c w)) !! "random_state"
  = self_dict w !! "random_state".
Proof.
  intros Hconfig. split.
  - assert (Hbase : rng (final (InnerEyeLightning_on_validation_epoch_start w))
                    = set_random_seed (effective_random_seed config)).
    { unfold InnerEyeLightning_on_validation_epoch_start, reset_timers, config_of.
      unfold_run. exec. reflexivity. }
    destruct c; [exact Hbase| |exact Hbase].
    change (on_validation_epoch_start SegmentationLightning)
      with SegmentationLightning_on_validation_epoch_start.
    unfold SegmentationLightning_on_validation_epoch_start. rewrite final_bind_eq.
    destruct (InnerEyeLightning_on_validation_epoch_start w) as [[[]|e] w'] eqn:Hrun.
    + unfold final in Hbase. cbn [snd] in Hbase. rewrite <- Hbase. apply epoch_start_rng.
    + unfold final in Hbase. cbn [snd] in Hbase. exact Hbase.
  - apply (call_keeps_random_state c m_on_validation_epoch_start _ ltac:(discriminate) w).
    reflexivity.
Qed.

(** ** The time between two batches *)

Lemma on_batch_end_run (w : world) :
  let w1 := final (on_batch_end w) in
  ticks w1 = S (ticks w) /\
  self_dict w1 !! "item_start_time" = Some (VFloat (clock (ticks w))) /\
  forall name, name <> "item_start_time" -> name <> "num_batches" ->
    self_dict w1 !! name = self_dict w !! name.
Proof.
  intros w1. subst w1. unfold on_batch_end. unfold_run.
  repeat split; branches; try reflexivity;
    intros name H1 H2; rewrite ?lookup_insert_ne by congruence; reflexivity.
Qed.

Lemma batch_start_total_load_time (w : world) (batch_idx : Z) (is_training : bool)
    (vs vt : value) (t0 T : float) :
  self_dict w !! "item_start_time" = Some vs -> value_to_float vs = Ok t0 ->
  self_dict w !! "total_load_time" = Some vt -> value_to_float vt = Ok T ->
  self_dict (final (batch_start batch_idx is_training w)) !! "total_load_time"
  = Some (VFloat (PrimFloat.add T (PrimFloat.sub (clock (ticks w)) t0))).
Proof.
  intros Hs Ht0 Ht HT. unfold batch_start. unfold_run. branches; reflexivity.
Qed.

(** X10: the load time that a [batch_start] adds to [total_load_time] is the
    time the clock shows between the [on_batch_end] before it and the
    [batch_start] itself, whatever [item_start_time] held before and whether
    or not [on_batch_end] could count the batch. *)
Theorem load_time_is_time_since_batch_end (w : world) (batch_idx : Z) (is_training : bool)
    (vt : value) (T : float) :
  self_dict w !! "total_load_time" = Some vt -> value_to_float vt = Ok T ->
  let w1 := final (on_batch_end w) in
  let w2 := final (batch_start batch_idx is_training w1) in
  ticks w1 = S (ticks w) /\
  self_dict w1 !! "item_start_time" = Some (VFloat (clock (ticks w))) /\
  self_dict w2 !! "total_load_time"
  = Some (VFloat (PrimFloat.add T (PrimFloat.sub (clock (S (ticks w))) (clock (ticks w))))).
Proof.
  intros Ht HT w1 w2. subst w2.
  destruct (on_batch_end_run w) as (Hticks & Hstart & Hother). fold w1 in Hticks, Hstart, Hother.
  split; [exact Hticks|]. split; [exact Hstart|].
  rewrite <- Hticks.
  apply (batch_start_total_load_time w1 batch_idx is_training _ vt _ T Hstart).
  - reflexivity.
  - rewrite Hother by discriminate. exact Ht.
  - exact HT.
Qed.

(** ** The end of an epoch *)

Ltac run_epoch_end :=
  unfold epoch_end, InnerEyeLightning_epoch_end, aggregate_metrics,
    InnerEyeLightning_aggregate_metrics,
    SegmentationLightning_aggregate_metrics, new_metrics, last_learning_rate,
    store_epoch_metrics, add_metric, metric_value_of, update_metrics, format_2f,
    py_gt, history_attr, epoch_end_records in *;
  unfold_run.

(** X11: at the end of an epoch of a segmentation module, [epoch_end] logs
    the summary of the epoch, then, if and only if [num_load_time_exceeded]
    is positive, the two warnings about slow loading, and hands to
    [store_epoch_metrics] the MetricsDict that it appends to the history,
    with the learning rate and the seconds of the epoch already in it. *)
Theorem segmentation_epoch_end_reports (w : world) (is_training : bool) (l : loc)
    (config : Config) (lr : float) (lrs : list float) (schedulers : list (list float))
    (history : list value) (ts tl te : float) (nb ex : Z) :
  self_dict w !! "metrics" = Some (VMetrics l) ->
  self_dict w !! "config" = Some (VConfig config) ->
  trainer w = Some ((lr :: lrs) :: schedulers) ->
  timers_typed ts tl te nb ex (self_dict w) ->
  self_dict w !! history_attr is_training = Some (VList history) ->
  let w' := final (epoch_end SegmentationLightning is_training w) in
  log_records w'
  = (log_records w
     ++ epoch_end_records (current_epoch w) is_training
          (PrimFloat.sub (clock (ticks w)) ts) tl nb ex te)%list /\
  stored_epochs w'
  = (stored_epochs w
     ++ [mkStored is_training (current_epoch w) (heap w' (next_loc w))])%list /\
  self_dict w' !! history_attr is_training
  = Some (VList (history ++ [VMetrics (next_loc w)])) /\
  lightning_log w' = lightning_log w /\
  rng w' = rng w.
Proof.
  intros Hmetrics Hconfig Htrainer (Hts & Htl & Hnb & Hex & Hte) Hhistory w'. subst w'.
  run_epoch_end.
  destruct is_training;
    repeat (exec;
            try match goal with
                | |- context [if 0 <? ex then _ else _] => destruct (0 <? ex)
                | |- context [trainer w] => rewrite Htrainer
                | |- context [decide (?a = ?a)] => rewrite decide_True by reflexivity
                end);
    rewrite <- ?app_assoc; repeat split; reflexivity.
Qed.

(** X12: [epoch_end] reads the learning rate of the first scheduler before
    it aggregates the metrics: without a trainer, without a scheduler or
    without a learning rate it raises, after the log records, and then no
    MetricsDict is created, no attribute assigned and nothing stored. *)
Theorem epoch_end_needs_a_learning_rate (c : cls) (w : world) (is_training : bool)
    (ts tl te : float) (nb ex : Z) (e : exn) :
  c <> ScalarLightning ->
  timers_typed ts tl te nb ex (self_dict w) ->
  no_learning_rate (trainer w) = Some e ->
  let r := epoch_end c is_training w in
  result r = Raise e /\
  self_dict (final r) = self_dict w /\
  heap (final r) = heap w /\
  next_loc (final r) = next_loc w /\
  stored_epochs (final r) = stored_epochs w /\
  log_records (final r)
  = (log_records w
     ++ epoch_end_records (current_epoch w) is_training
          (PrimFloat.sub (clock (ticks w)) ts) tl nb ex te)%list.
Proof.
  intros Hc (Hts & Htl & Hnb & Hex & Hte) He r. subst r.
  assert (Hrun : forall c', epoch_end c' is_training = InnerEyeLightning_epoch_end c' is_training
                            \/ c' = ScalarLightning).
  { intros []; auto. }
  destruct (Hrun c) as [->|?]; [|contradiction].
  unfold no_learning_rate in He. run_epoch_end.
  destruct (trainer w) as [[|[|lr0 lrs] rest]|] eqn:Htrainer; try discriminate;
    injection He as <-;
    repeat (exec;
            try match goal with
                | |- context [if 0 <? ex then _ else _] => destruct (0 <? ex)
                | |- context [trainer w] => rewrite Htrainer
                end);
    rewrite <- ?app_assoc; repeat split; reflexivity.
Qed.

(** X13: on an object of the base class, [epoch_end] logs its records, reads
    the learning rate and then raises the NotImplementedError of
    [aggregate_metrics]: nothing is appended to a history list and nothing
    is stored. *)
Theorem base_epoch_end_not_implemented (w : world) (is_training : bool)
    (lr : float) (lrs : list float) (schedulers : list (list float))
    (ts tl te : float) (nb ex : Z) :
  timers_typed ts tl te nb ex (self_dict w) ->
  trainer w = Some ((lr :: lrs) :: schedulers) ->
  let r := epoch_end InnerEyeLightning is_training w in
  result r
  = Raise (NotImplementedError "This method must be overwritten in a derived class.") /\
  self_dict (final r) = self_dict w /\
  heap (final r) = heap w /\
  stored_epochs (final r) = stored_epochs w.
Proof.
  intros (Hts & Htl & Hnb & Hex & Hte) Htrainer r. subst r.
  run_epoch_end.
  repeat (exec;
          try match goal with
              | |- context [if 0 <? ex then _ else _] => destruct (0 <? ex)
              | |- context [trainer w] => rewrite Htrainer
              end);
    repeat split; reflexivity.
Qed.

(** ** The counters of an epoch *)

Lemma filter_slow_snoc (l : list (level * message)) (r : level * message) :
  filter (fun r => is_slow_warning r = true) (l ++ [r])%list
  = (filter (fun r => is_slow_warning r = true) l
     ++ (if is_slow_warning r then [r] else []))%list.
Proof.
  rewrite filter_app. f_equal. destruct (is_slow_warning r) eqn:Hr.
  - rewrite filter_cons_True by exact Hr. reflexivity.
  - rewrite filter_cons_False by (rewrite Hr; discriminate). reflexivity.
Qed.

Lemma warnings_left_one (exceeded : Z) (s : slow_batch) :
  take (warnings_left exceeded) [s]
  = if Z.min exceeded MAX_LOAD_TIME_WARNINGS <? MAX_LOAD_TIME_WARNINGS then [s] else [].
Proof.
  unfold warnings_left, MAX_LOAD_TIME_WARNINGS.
  destruct (Z.min exceeded 3 <? 3) eqn:Hlt.
  - apply Z.ltb_lt in Hlt.
    destruct (Z.to_nat (3 - Z.min exceeded 3)) eqn:Hn; [lia|].
    simpl. rewrite take_nil. reflexivity.
  - apply Z.ltb_ge in Hlt.
    replace (Z.to_nat (3 - Z.min exceeded 3)) with 0%nat by lia. reflexivity.
Qed.

Lemma warnings_left_app (exceeded : Z) (s rest : list slow_batch) :
  0 <= exceeded -> (length s <= 1)%nat ->
  take (warnings_left exceeded) (s ++ rest)%list
  = (take (warnings_left exceeded) s
     ++ take (warnings_left (exceeded + Z.of_nat (length s))) rest)%list.
Proof.
  intros Hex Hs. destruct s as [|a [|b s]]; simpl in *; [|..|lia].
  - rewrite Z.add_0_r, take_nil. reflexivity.
  - unfold warnings_left, MAX_LOAD_TIME_WARNINGS. change (Z.of_nat 1) with 1.
    destruct (Z.to_nat (3 - Z.min exceeded 3)) eqn:Hn; simpl.
    + replace (Z.to_nat (3 - Z.min (exceeded + 1) 3)) with 0%nat by lia. reflexivity.
    + replace (Z.to_nat (3 - Z.min (exceeded + 1) 3)) with n by lia.
      rewrite take_nil. reflexivity.
Qed.

Lemma slow_start_length (batch_idx : Z) (is_training : bool) (t : nat) (start : float) :
  (length (slow_start batch_idx is_training t start) <= 1)%nat.
Proof. unfold slow_start. destruct (is_slow _ _); simpl; lia. Qed.

Lemma reset_timers_epoch_state (w : world) :
  epoch_state (S (S (ticks w))) (clock (S (ticks w))) 0 0 f0
    (filter (fun r => is_slow_warning r = true) (log_records w))
    (final (reset_timers w)).
Proof.
  destruct (reset_timers_run w) as (w' & Hrun & Hticks & _ & Hlog & _ & _ & Hreset & _).
  rewrite Hrun. simpl. destruct Hreset as (H1 & H2 & H3 & H4 & H5 & H6 & H7).
  unfold epoch_state. rewrite Hlog.
  repeat split; try assumption; try reflexivity; eauto.
Qed.

Ltac close_epoch_state :=
  split; [reflexivity|];
  unfold epoch_state; simpl;
  repeat first [ rewrite lookup_insert_eq | rewrite lookup_insert_ne by discriminate ];
  rewrite ?filter_slow_snoc, ?warnings_left_one; simpl;
  change (Z.of_nat 1) with 1;
  repeat match goal with
         | Hlt : (_ <? _) = true |- _ => rewrite ?Hlt; apply Z.ltb_lt in Hlt
         | Hlt : (_ <? _) = false |- _ => rewrite ?Hlt; apply Z.ltb_ge in Hlt
         end;
  unfold MAX_LOAD_TIME_WARNINGS in *;
  rewrite ?take_nil, ?app_nil_r, ?Z.add_0_r;
  repeat split; eauto;
  try (do 2 f_equal; lia); try lia;
  try (match goal with
       | Hl : ?d !! ?n = _ |- ?d !! ?n = _ => rewrite Hl
       end; do 2 f_equal; lia).

Lemma batch_start_epoch_state (w : world) (batch_idx : Z) (is_training : bool)
    (t : nat) (start : float) (ex nb : Z) (te : float) (warned : list (level * message)) :
  epoch_state t start ex nb te warned w ->
  let s := slow_start batch_idx is_training t start in
  result (batch_start batch_idx is_training w) = Ok tt /\
  epoch_state (S t) start (ex + Z.of_nat (length s)) nb (extra_load_time s te)
    (warned ++ map slow_warning (take (warnings_left ex) s))%list
    (final (batch_start batch_idx is_training w)).
Proof.
  intros (Ht & Hstart & Hex & Hnb & Hn & Hle & Hte & [tl Htl] & Hlog) s. subst s t warned.
  unfold batch_start, slow_start, is_slow, extra_load_time, py_lt. unfold_run.
  branches; close_epoch_state.
Qed.

Lemma on_batch_end_epoch_state (w : world) (t : nat) (start : float) (ex nb : Z)
    (te : float) (warned : list (level * message)) :
  epoch_state t start ex nb te warned w ->
  result (on_batch_end w) = Ok tt /\
  epoch_state (S t) (clock t) ex (nb + 1) te warned (final (on_batch_end w)).
Proof.
  intros (Ht & Hstart & Hex & Hnb & Hn & Hle & Hte & [tl Htl] & Hlog). subst t warned.
  unfold on_batch_end. unfold_run. branches; close_epoch_state.
Qed.

Lemma batches_ended_cons (m : method) (ms : list method) :
  batches_ended (m :: ms) = (if is_batch_end m then 1 else 0) + batches_ended ms.
Proof.
  unfold batches_ended. destruct (is_batch_end m) eqn:Hm.
  - rewrite filter_cons_True by exact Hm. simpl length. lia.
  - rewrite filter_cons_False by (rewrite Hm; discriminate). lia.
Qed.

Lemma batch_start_then (c : cls) (ms : list method) (w : world) (batch_idx : Z)
    (is_training : bool) (t : nat) (start : float) (ex nb : Z) (te : float)
    (warned : list (level * message)) (m : method) :
  call c m = batch_start batch_idx is_training ->
  (forall w1 ex1 te1 warned1,
     epoch_state (S t) start ex1 nb te1 warned1 w1 ->
     let slow := slow_starts ms (S t) start in
     epoch_state_after c ms w1 (ex1 + Z.of_nat (length slow)) (nb + batches_ended ms)
       (extra_load_time slow te1)
       (warned1 ++ map slow_warning (take (warnings_left ex1) slow))%list) ->
  epoch_state t start ex nb te warned w ->
  let slow := (slow_start batch_idx is_training t start
               ++ slow_starts ms (S t) start)%list in
  epoch_state_after c (m :: ms) w (ex + Z.of_nat (length slow)) (nb + batches_ended ms)
    (extra_load_time slow te)
    (warned ++ map slow_warning (take (warnings_left ex) slow))%list.
Proof.
  intros Hcall IH Hw slow. subst slow.
  destruct (batch_start_epoch_state w batch_idx is_training t start ex nb te warned Hw)
    as [Hres Hinv].
  specialize (IH _ _ _ _ Hinv). cbv zeta in IH.
  unfold epoch_state_after in *. simpl calls.
  rewrite final_bind_eq, Hcall.
  unfold result, final in Hres, Hinv.
  destruct (batch_start batch_idx is_training w) as [[[]|e] w1]; simpl in *; [|discriminate].
  assert (Hle : 0 <= ex) by (destruct Hw as (_ & _ & _ & _ & _ & Hle & _); exact Hle).
  rewrite warnings_left_app by (try exact Hle; apply slow_start_length).
  rewrite length_app, Nat2Z.inj_add, Z.add_assoc, map_app, app_assoc.
  unfold extra_load_time in *. rewrite fold_left_app. exact IH.
Qed.

Lemma batch_calls_epoch_state (c : cls) (ms : list method) :
  Forall is_batch_call ms ->
  forall (w : world) (t : nat) (start : float) (ex nb : Z) (te : float)
         (warned : list (level * message)),
    epoch_state t start ex nb te warned w ->
    let slow := slow_starts ms t start in
    epoch_state_after c ms w (ex + Z.of_nat (length slow)) (nb + batches_ended ms)
      (extra_load_time slow te)
      (warned ++ map slow_warning (take (warnings_left ex) slow))%list.
Proof.
  induction 1 as [|m ms Hm Hms IH]; intros w t start ex nb te warned Hw.
  - simpl. unfold epoch_state_after, batches_ended. simpl.
    rewrite take_nil, app_nil_r, !Z.add_0_r. eauto.
  - destruct m; try contradiction; rewrite batches_ended_cons; simpl is_batch_end;
      rewrite ?Z.add_0_l.
    + apply (batch_start_then c ms w batch_idx true t start); auto.
    + apply (batch_start_then c ms w batch_idx false t start); auto.
    + apply (batch_start_then c ms w batch_idx is_training t start); auto.
    + destruct (on_batch_end_epoch_state w t start ex nb te warned Hw) as [Hres Hinv].
      specialize (IH _ _ _ _ _ _ _ Hinv). cbv zeta in IH.
      unfold epoch_state_after in *. simpl calls. simpl slow_starts.
      rewrite final_bind_eq. change (call c m_on_batch_end) with on_batch_end.
      unfold result, final in Hres, Hinv.
      destruct (on_batch_end w) as [[[]|e] w1]; simpl in *; [|discriminate].
      rewrite Z.add_assoc. exact IH.
Qed.

(** X14: after [reset_timers], over every run of [batch_start] and
    [on_batch_end] calls, the counters follow the batches that loaded slowly
    by the clock, that is those with an index other than 0 whose load time,
    the reading of the clock minus the reading at the [on_batch_end] before,
    exceeds [MAX_ITEM_LOAD_TIME_SEC]: [num_load_time_exceeded] is their number,
    [total_extra_load_time] the sum of their load times,
    [num_load_time_warnings] their number cut off at [MAX_LOAD_TIME_WARNINGS],
    and the slow-minibatch warnings logged are those of the first
    [MAX_LOAD_TIME_WARNINGS] of them, in order, and no other; [num_batches] is
    the number of [on_batch_end] calls. *)
Theorem epoch_counters_follow_the_batches (c : cls) (ms : list method) (w : world) :
  Forall is_batch_call ms ->
  let w' := final (calls c ms (final (reset_timers w))) in
  let slow := slow_starts ms (S (S (ticks w))) (clock (S (ticks w))) in
  self_dict w' !! "num_batches" = Some (VInt (batches_ended ms)) /\
  self_dict w' !! "num_load_time_exceeded" = Some (VInt (Z.of_nat (length slow))) /\
  self_dict w' !! "total_extra_load_time" = Some (VFloat (extra_load_time slow f0)) /\
  self_dict w' !! "num_load_time_warnings"
  = Some (VInt (Z.min (Z.of_nat (length slow)) MAX_LOAD_TIME_WARNINGS)) /\
  filter (fun r => is_slow_warning r = true) (log_records w')
  = (filter (fun r => is_slow_warning r = true) (log_records w)
     ++ map slow_warning (take (Z.to_nat MAX_LOAD_TIME_WARNINGS) slow))%list.
Proof.
  intros Hms w' slow. subst w' slow.
  pose proof (batch_calls_epoch_state c ms Hms _ _ _ _ _ _ _ (reset_timers_epoch_state w))
    as Hinv.
  cbv zeta in Hinv. unfold epoch_state_after in Hinv.
  destruct Hinv as (t' & start' & _ & _ & Hex & Hnb & Hn & _ & Hte & _ & Hlog).
  rewrite !Z.add_0_l in *. auto.
Qed.

(** ** The data module, from construction to the loaders *)

(** X15: after the method that the source names [_init__] has run, the
    loaders are [None] and [train_dataloader] and [val_dataloader] raise a
    type error; [setup] then returns, and after it the two methods return
    the loaders that [create_data_loaders] of the configuration holds for
    TRAIN and for VAL, or raise a key error when it holds none. *)
Theorem data_loaders_come_from_setup (config : Config) (d : data_module) :
  let d1 := final (TrainingAndValidationDataForSegmentation__init__ config d) in
  let d2 := final (setup d1) in
  train_dataloader d1 = (Raise TypeError, d1) /\
  val_dataloader d1 = (Raise TypeError, d1) /\
  result (setup d1) = Ok tt /\
  train_dataloader d2 = (loader_of TRAIN (create_data_loaders config), d2) /\
  val_dataloader d2 = (loader_of VAL (create_data_loaders config), d2) /\
  d2 !! "config" = Some (VConfig config).
Proof.
  intros d1 d2. subst d1 d2.
  unfold train_dataloader, val_dataloader, data_loaders_item, setup,
    TrainingAndValidationDataForSegmentation__init__, dm_getattr, dm_setattr, loader_of.
  unfold mbind, M_bind, bind, mret, M_ret, ret, raise, modify, final, result.
  unfold data_module in *.
  repeat split;
    repeat first [ rewrite lookup_insert_eq
                 | rewrite lookup_insert_ne by discriminate
                 | progress simpl ];
    try reflexivity;
    match goal with
    | |- context [list_find ?P ?l] => destruct (list_find P l) as [[? [? ?]]|]
    end; reflexivity.
Qed.

Lemma dm_call_without_config (m : dm_method) (d : data_module) :
  d !! "config" = None -> d !! "data_loaders" = None ->
  exists e, dm_call m d = (Raise e, d).
Proof.
  intros Hconfig Hloaders. destruct m; simpl;
    unfold setup, train_dataloader, val_dataloader, test_dataloader, data_loaders_item,
      dm_getattr;
    unfold mbind, M_bind, bind, mret, M_ret, ret, raise; simpl;
    rewrite ?Hconfig, ?Hloaders; eauto.
Qed.

Lemma dm_calls_without_config (ms : list dm_method) (d : data_module) :
  d !! "config" = None -> d !! "data_loaders" = None -> dm_calls ms d = d.
Proof.
  intros Hconfig Hloaders. unfold dm_calls.
  induction ms as [|m ms IH]; simpl; [reflexivity|].
  destruct (dm_call_without_config m d Hconfig Hloaders) as [e He].
  rewrite He. exact IH.
Qed.

Section Construction.

(** The constructor of LightningDataModule, of which the file only needs that
    it assigns neither [config] nor [data_loaders]. *)
Variable LightningDataModule_init : list value -> M data_module unit.
Hypothesis LightningDataModule_init_frame :
  forall args d,
    final (LightningDataModule_init args d) !! "config" = d !! "config" /\
    final (LightningDataModule_init args d) !! "data_loaders" = d !! "data_loaders".

Lemma dm_construct_run (args : list value) (d0 : data_module) :
  let d := final (dm_construct LightningDataModule_init args d0) in
  d !! "config" = None /\ d !! "data_loaders" = None.
Proof.
  intros d. subst d. unfold dm_construct.
  unfold mbind, M_bind, bind, modify, final. simpl.
  destruct (LightningDataModule_init_frame args ∅) as [Hconfig Hloaders].
  unfold final in Hconfig, Hloaders.
  destruct (LightningDataModule_init args ∅) as [[[]|e] d]; simpl in *;
    rewrite Hconfig, Hloaders; split; reflexivity.
Qed.

(** X16: the class defines the method [_init__], not [__init__]: the
    construction of a data module, with any arguments, runs the constructor of
    LightningDataModule only, and the module it hands out has neither [config]
    nor [data_loaders].  On it [setup] raises the attribute error for
    [config], [train_dataloader] and [val_dataloader] raise the one for
    [data_loaders], and every sequence of calls of the four methods, whether
    they return or raise, leaves the module as the construction left it,
    without its loaders. *)
Theorem data_module_without_init_stays_empty (args : list value) (d0 : data_module) :
  result (dm_construct LightningDataModule_init args d0) = Ok tt ->
  let d := final (dm_construct LightningDataModule_init args d0) in
  d !! "config" = None /\
  d !! "data_loaders" = None /\
  setup d = (Raise (AttributeError "config"), d) /\
  train_dataloader d = (Raise (AttributeError "data_loaders"), d) /\
  val_dataloader d = (Raise (AttributeError "data_loaders"), d) /\
  forall ms, dm_calls ms d = d.
Proof.
  intros _ d. destruct (dm_construct_run args d0) as [Hconfig Hloaders]. fold d in Hconfig, Hloaders.
  split; [exact Hconfig|]. split; [exact Hloaders|].
  split; [|split; [|split]].
  - unfold setup, dm_getattr. unfold mbind, M_bind, bind. rewrite Hconfig. reflexivity.
  - unfold train_dataloader, data_loaders_item, dm_getattr. unfold mbind, M_bind, bind.
    rewrite Hloaders. reflexivity.
  - unfold val_dataloader, data_loaders_item, dm_getattr. unfold mbind, M_bind, bind.
    rewrite Hloaders. reflexivity.
  - intros ms. apply dm_calls_without_config; assumption.
Qed.

End Construction.

(** ** The metrics of a segmentation step *)

Lemma adds_values_refl (l : loc) (w : world) : adds_values l [] w w.
Proof. unfold adds_values. rewrite app_nil_r. repeat split; auto. Qed.

Lemma adds_values_trans (l : loc) (vs vs' : list (string * MetricType * num))
    (w w1 w2 : world) :
  adds_values l vs w w1 -> adds_values l vs' w1 w2 -> adds_values l (vs ++ vs') w w2.
Proof.
  intros (Ha & Hv & Hh & Hd & Ho & Hl) (Ha' & Hv' & Hh' & Hd' & Ho' & Hl').
  unfold adds_values. rewrite Ha', Hv', Hh', Hd', Hl', Hv, app_assoc.
  repeat split; try assumption.
  intros l' Hl0. rewrite Ho' by exact Hl0. apply Ho, Hl0.
Qed.

Lemma add_metric_adds (w : world) (l : loc) (t : MetricType) (x : M world value)
    (hue : string) (v : value) (n : num) :
  x w = (Ok v, w) -> as_num v = Some n ->
  exists w', add_metric (VMetrics l) t x hue w = (Ok tt, w') /\
             adds_values l [(hue, t, n)] w w'.
Proof.
  intros Hx Hn. unfold add_metric, metric_value_of, update_metrics. unfold_run.
  simpl. rewrite Hx, Hn. simpl. eexists. split; [reflexivity|].
  unfold adds_values. simpl. rewrite decide_True by reflexivity. simpl.
  repeat split. intros l' Hl'. rewrite decide_False by exact Hl'. reflexivity.
Qed.

Lemma store_dice_adds (dice : list (list float)) (i : nat) (hue : string) (bs : list nat)
    (l : loc) (w : world) :
  self_dict w !! "metrics" = Some (VMetrics l) ->
  (forall b, b ∈ bs -> exists row d, dice !! b = Some row /\ row !! i = Some d) ->
  exists w', store_dice dice i hue bs w = (Ok tt, w') /\
             adds_values l (dice_values dice i hue bs) w w'.
Proof.
  revert w. induction bs as [|b bs IH]; intros w Hmetrics Hbs; simpl.
  - exists w. split; [reflexivity|apply adds_values_refl].
  - destruct (Hbs b) as (row & d & Hrow & Hd); [left|].
    destruct (add_metric_adds w l DICE (dice_item dice b i) hue (VFloat d) (NFloat d))
      as (w1 & Hrun1 & Hadds1); try reflexivity.
    { unfold dice_item. rewrite Hrow, Hd. reflexivity. }
    destruct (IH w1) as (w2 & Hrun2 & Hadds2).
    { rewrite (proj1 Hadds1). exact Hmetrics. }
    { intros b' Hb'. apply Hbs. right. exact Hb'. }
    exists w2. split.
    + rewrite run_bind, (run_getattr_some _ _ _ Hmetrics).
      rewrite run_bind, Hrun1. exact Hrun2.
    + assert (Hat : dice_at dice b i = d) by (unfold dice_at; rewrite Hrow, Hd; reflexivity).
      rewrite Hat.
      apply (adds_values_trans l [(hue, DICE, NFloat d)] _ w w1 w2 Hadds1 Hadds2).
Qed.

Lemma store_hues_adds (dice : list (list float)) (voxels : list num) (hue_names : list string)
    (i : nat) (l : loc) (w : world) :
  self_dict w !! "metrics" = Some (VMetrics l) ->
  Forall (fun row => (i + length hue_names <= length row)%nat) dice ->
  (i + length hue_names <= length voxels)%nat ->
  exists w', store_hues dice voxels i hue_names w = (Ok tt, w') /\
             adds_values l (step_values dice voxels i hue_names) w w'.
Proof.
  revert i w. induction hue_names as [|hue rest IH]; intros i w Hmetrics Hdice Hvoxels; simpl.
  - exists w. split; [reflexivity|apply adds_values_refl].
  - simpl in Hdice, Hvoxels.
    destruct (store_dice_adds dice i hue (seq 0 (length dice)) l w Hmetrics)
      as (w1 & Hrun1 & Hadds1).
    { intros b Hb. apply elem_of_seq in Hb as [_ Hb].
      destruct (lookup_lt_is_Some_2 dice b) as [row Hrow]; [lia|].
      rewrite Forall_forall in Hdice.
      assert (Hlen : (i + S (length rest) <= length row)%nat).
      { apply Hdice. eapply list_elem_of_lookup_2. exact Hrow. }
      destruct (lookup_lt_is_Some_2 row i) as [d Hd]; [lia|]. eauto. }
    assert (Hmetrics1 : self_dict w1 !! "metrics" = Some (VMetrics l))
      by (rewrite (proj1 Hadds1); exact Hmetrics).
    destruct (lookup_lt_is_Some_2 voxels i) as [n Hn]; [lia|].
    destruct (add_metric_adds w1 l VOXEL_COUNT (voxels_item voxels i) hue (of_num n) n)
      as (w2 & Hrun2 & Hadds2).
    { unfold voxels_item. rewrite Hn. reflexivity. }
    { destruct n; reflexivity. }
    destruct (IH (S i) w2) as (w3 & Hrun3 & Hadds3).
    { rewrite (proj1 Hadds2). exact Hmetrics1. }
    { eapply Forall_impl; [exact Hdice|]. simpl. intros row Hrow. lia. }
    { lia. }
    exists w3. split.
    + rewrite run_bind, Hrun1.
      rewrite run_bind, (run_getattr_some _ _ _ Hmetrics1).
      rewrite run_bind, Hrun2. exact Hrun3.
    + assert (Hat : voxels_at voxels i = n) by (unfold voxels_at; rewrite Hn; reflexivity).
      rewrite Hat.
      apply (adds_values_trans l _ _ w w1 w3 Hadds1).
      apply (adds_values_trans l [(hue, VOXEL_COUNT, n)] _ w1 w2 w3 Hadds2 Hadds3).
Qed.

(** X17: in every state a segmentation module can reach, one
    [training_or_validation_step] adds to the MetricsDict of [self.metrics],
    in this order, the loss of the batch under the default hue and then, for
    the hue of each column, the Dice score of every crop followed by the
    voxel count; it adds the centres of the patches to the diagnostics; the
    mask is applied to the posteriors in training only; and it leaves the
    attributes, the hues and every other MetricsDict as they are. This holds
    although the step then raises in [write_loss]. *)
Theorem segmentation_step_stores_batch_metrics (w : world) (sample : batch)
    (batch_index : Z) (is_training : bool) (l : loc) (config : Config) :
  reachable SegmentationLightning w ->
  self_dict w !! "metrics" = Some (VMetrics l) ->
  self_dict w !! "config" = Some (VConfig config) ->
  one_column_per_hue (length (hues (heap w l))) ->
  let cropped_sample := CroppedSample_from_dict sample in
  let logits := model_call [image cropped_sample] in
  let loss := segmentation_loss logits (labels_center_crop cropped_sample) in
  let posteriors :=
    if is_training
    then apply_mask_to_posteriors (softmax logits 1) (mask_center_crop cropped_sample)
    else softmax logits 1 in
  let dice :=
    compute_dice_across_patches (posteriors_to_segmentation posteriors)
      (labels_center_crop cropped_sample) (use_gpu config) in
  let voxels := get_number_of_voxels_per_class (labels cropped_sample) in
  let w' := final (SegmentationLightning_training_or_validation_step
                     sample batch_index is_training w) in
  values (heap w' l)
  = (values (heap w l)
     ++ (DEFAULT_HUE_KEY, LOSS, NFloat (tensor_item loss))
        :: step_values dice voxels 0 (hues (heap w l)))%list /\
  diagnostics (heap w' l)
  = (diagnostics (heap w l) ++ [(PATCH_CENTER, center_indices cropped_sample)])%list /\
  hues (heap w' l) = hues (heap w l) /\
  (forall l', l' <> l -> heap w' l' = heap w l') /\
  self_dict w' = self_dict w.
Proof.
  intros Hw Hmetrics Hconfig [Hdice Hvoxels].
  pose proof (reachable_module_attrs _ w Hw) as (Htrain & Hval & _ & _ & Hmodel & Hloss).
  intros cropped_sample logits loss posteriors dice voxels w'.
  subst w' voxels dice posteriors loss logits cropped_sample.
  unfold SegmentationLightning_training_or_validation_step. cbv zeta.
  unfold add_metric, add_diagnostics, metric_value_of, update_metrics,
    SegmentationLightning_logits_to_posterior. unfold_run.
  exec. rewrite decide_True by reflexivity.
  unfold MetricsDict_get_hue_names. simpl hues.
  match goal with
  | |- context [store_hues ?d ?v 0%nat ?h ?w1] =>
      destruct (store_hues_adds d v h 0 l w1) as (w2 & Hrun & Hadds);
        [exact Hmetrics|apply Hdice|apply Hvoxels|rewrite Hrun]
  end.
  destruct Hadds as (Ha & Hv & Hh & Hd & Ho & Hl). simpl in Ha, Hv, Hh, Hd, Ho.
  rewrite decide_True in Hv, Hh, Hd by reflexivity. simpl in Hv, Hh, Hd.
  simpl. rewrite Ha, Hmetrics. simpl.
  rewrite write_loss_run by (simpl; rewrite Ha; assumption).
  simpl. rewrite decide_True by reflexivity. simpl.
  rewrite Hv, Hh, Hd, <- app_assoc. simpl.
  destruct is_training; (repeat split; try reflexivity; try exact Ha);
    intros l' Hl'; rewrite decide_False by exact Hl'; rewrite Ho by exact Hl';
    rewrite decide_False by exact Hl'; reflexivity.
Qed.

(** ** The hooks in the states a module can reach *)

Lemma value_to_float_zero : value_to_float (VInt 0) = Ok f0.
Proof. vm_compute. reflexivity. Qed.

Lemma start_time_to_float (v : value) :
  is_start_time v -> exists f, value_to_float v = Ok f.
Proof.
  intros [->|[f ->]]; [exists f0; apply value_to_float_zero|exists f; reflexivity].
Qed.

Lemma timers_numeric_insert (name : string) (v : value) (d : gmap string value) :
  name ∉ timer_names -> timers_numeric d -> timers_numeric (<[name:=v]> d).
Proof.
  intros Hname Hd. unfold timers_numeric in *.
  repeat (rewrite lookup_insert_ne; [|intros ->; apply Hname; in_names]).
  exact Hd.
Qed.

Lemma reset_timers_numeric (w : world) :
  timers_numeric (self_dict (final (reset_timers w))).
Proof.
  destruct (reset_timers_run w) as (w' & Hrun & _ & _ & _ & _ & _ & Hreset & _).
  rewrite Hrun. simpl. destruct Hreset as (H1 & H2 & H3 & H4 & H5 & H6 & H7).
  unfold timers_numeric, is_start_time. repeat split; eauto 6.
Qed.

Ltac close_numeric :=
  split; [reflexivity|];
  unfold is_start_time; repeat split; eauto 6.

Lemma batch_start_numeric (w : world) (batch_idx : Z) (is_training : bool) :
  timers_numeric (self_dict w) ->
  result (batch_start batch_idx is_training w) = Ok tt /\
  timers_numeric (self_dict (final (batch_start batch_idx is_training w))).
Proof.
  intros ([ve [Hve Hse]] & [vi [Hvi Hsi]] & [n Hn] & [ex Hex] & [nb Hnb] & [te Hte] & [tl Htl]).
  destruct (start_time_to_float vi Hsi) as [ti Hti].
  unfold batch_start, timers_numeric. unfold_run. branches; close_numeric.
Qed.

Lemma on_batch_end_numeric (w : world) :
  timers_numeric (self_dict w) ->
  result (on_batch_end w) = Ok tt /\
  timers_numeric (self_dict (final (on_batch_end w))).
Proof.
  intros ([ve [Hve Hse]] & [vi [Hvi Hsi]] & [n Hn] & [ex Hex] & [nb Hnb] & [te Hte] & [tl Htl]).
  unfold on_batch_end, timers_numeric. unfold_run. branches; close_numeric.
Qed.

Lemma call_keeps_timers_numeric (c : cls) (m : method) :
  keeps (on_attrs timers_numeric) (call c m).
Proof.
  apply frame_any_call.
  - intros w _. apply reset_timers_numeric.
  - intros batch_idx is_training w Hw. apply batch_start_numeric, Hw.
  - intros w Hw. apply on_batch_end_numeric, Hw.
  - intros l d. apply timers_numeric_insert. not_protected.
  - intros c' is_training. apply keeps_epoch_end; intros v d;
      apply timers_numeric_insert; not_protected.
  - intros s d. apply timers_numeric_insert. not_protected.
Qed.

Lemma snapshot_or_none_insert (name : string) (v : value) (d : gmap string value) :
  name <> "random_state" -> snapshot_or_none d -> snapshot_or_none (<[name:=v]> d).
Proof.
  intros Hname Hd. unfold snapshot_or_none in *.
  rewrite lookup_insert_ne by exact Hname. exact Hd.
Qed.

Lemma call_keeps_snapshot_or_none (c : cls) (m : method) :
  keeps (on_attrs snapshot_or_none) (call c m).
Proof.
  assert (Htimers : forall name v d, name ∈ timer_names ->
                      snapshot_or_none d -> snapshot_or_none (<[name:=v]> d)).
  { intros name v d Hname. apply snapshot_or_none_insert. intros ->.
    apply list_elem_of_In in Hname. simpl in Hname. intuition discriminate. }
  apply frame_any_call.
  - apply frame_reset_timers, Htimers.
  - intros batch_idx is_training. apply frame_batch_start, Htimers.
  - apply frame_on_batch_end, Htimers.
  - intros l d. apply snapshot_or_none_insert. discriminate.
  - intros c' is_training. apply keeps_epoch_end; intros v d;
      apply snapshot_or_none_insert; discriminate.
  - intros s d _. right. exists s. apply lookup_insert_eq.
Qed.

Lemma reachable_timers_numeric (c : cls) (w : world) :
  reachable c w -> timers_numeric (self_dict w).
Proof.
  apply reachable_keep; [|apply call_keeps_timers_numeric].
  intros config w0. unfold timers_numeric, is_start_time.
  destruct c; vm_compute; repeat split; eauto 6.
Qed.

Lemma reachable_snapshot_or_none (c : cls) (w : world) :
  reachable c w -> snapshot_or_none (self_dict w).
Proof.
  apply reachable_keep; [|apply call_keeps_snapshot_or_none].
  intros config w0. left. destruct c; vm_compute; reflexivity.
Qed.

Lemma reachable_history (c : cls) (w : world) (is_training : bool) :
  reachable c w -> exists h, self_dict w !! history_attr is_training = Some (VList h).
Proof.
  intros Hw.
  apply (reachable_keep (history_extends (history_attr is_training) []) c w); [| |exact Hw].
  - intros config w0. exists []. destruct c, is_training; vm_compute; reflexivity.
  - intros m. apply frame_any_call_timers.
    + intros n v d Hn. apply history_extends_insert. intros ->.
      apply list_elem_of_In in Hn. destruct is_training; simpl in Hn; intuition discriminate.
    + intros v d. apply history_extends_insert. destruct is_training; discriminate.
    + intros c' is_training'. apply epoch_end_extends_history.
    + intros v d. apply history_extends_insert. destruct is_training; discriminate.
Qed.

Lemma base_epoch_start_returns (w : world) (config : Config) :
  self_dict w !! "config" = Some (VConfig config) ->
  snapshot_or_none (self_dict w) ->
  result (InnerEyeLightning_on_train_epoch_start w) = Ok tt /\
  result (InnerEyeLightning_on_validation_epoch_start w) = Ok tt.
Proof.
  intros Hconfig Hstate.
  unfold InnerEyeLightning_on_train_epoch_start, InnerEyeLightning_on_validation_epoch_start,
    reset_timers, config_of, restore_random_state.
  unfold_run.
  split; [destruct Hstate as [Hstate|[s Hstate]]|]; exec; reflexivity.
Qed.

(** X18: in every state a module of any class can reach, the timer hooks
    return: [batch_start] with any batch index, [on_batch_end], and the two
    epoch-start hooks of the class. The timers always hold numbers,
    [random_state] always holds [None] or a snapshot, and [config] a
    configuration. *)
Theorem hooks_return_in_every_state (c : cls) (w : world) :
  reachable c w ->
  (forall batch_idx is_training, result (batch_start batch_idx is_training w) = Ok tt) /\
  result (on_batch_end w) = Ok tt /\
  result (on_train_epoch_start c w) = Ok tt /\
  result (on_validation_epoch_start c w) = Ok tt.
Proof.
  intros Hw.
  pose proof (reachable_timers_numeric c w Hw) as Htimers.
  pose proof (reachable_snapshot_or_none c w Hw) as Hstate.
  pose proof (reachable_module_attrs c w Hw) as (_ & _ & _ & [config Hconfig] & _).
  split; [|split].
  - intros batch_idx is_training. apply batch_start_numeric, Htimers.
  - apply on_batch_end_numeric, Htimers.
  - destruct (base_epoch_start_returns w config Hconfig Hstate) as [Htrain Hval].
    destruct c; [split; assumption| |split; assumption].
    assert (Hsome : exists v, self_dict w !! "random_state" = Some v /\
                              (v = VNone \/ exists s, v = VSnapshot s)).
    { destruct Hstate as [Hs|[s Hs]]; eauto 6. }
    destruct Hsome as (v & Hv & Hsome).
    destruct (segmentation_epoch_start_resets_metrics w config v Hconfig Hv Hsome)
      as [(Hr1 & _) (Hr2 & _)].
    split; assumption.
Qed.

(** X19: in every state a segmentation module can reach, each of the two
    epoch-start hooks returns and leaves in [self.metrics] a new, empty
    MetricsDict whose hues are the background class and the ground-truth ids
    of the configuration; the MetricsDict objects made before stay as they
    are. *)
Theorem segmentation_epoch_starts_with_fresh_metrics (w : world) :
  reachable SegmentationLightning w ->
  exists config,
    self_dict w !! "config" = Some (VConfig config) /\
    let reset (r : outcome unit * world) :=
      result r = Ok tt /\
      self_dict (final r) !! "metrics" = Some (VMetrics (next_loc w)) /\
      heap (final r) (next_loc w)
      = MetricsDict_new (BACKGROUND_CLASS_NAME :: ground_truth_ids config) /\
      (forall l', (l' < next_loc w)%nat -> heap (final r) l' = heap w l') in
    reset (on_train_epoch_start SegmentationLightning w) /\
    reset (on_validation_epoch_start SegmentationLightning w).
Proof.
  intros Hw.
  pose proof (reachable_snapshot_or_none _ w Hw) as Hstate.
  pose proof (reachable_module_attrs _ w Hw) as (_ & _ & _ & [config Hconfig] & _).
  exists config. split; [exact Hconfig|].
  assert (Hsome : exists v, self_dict w !! "random_state" = Some v /\
                            (v = VNone \/ exists s, v = VSnapshot s)).
  { destruct Hstate as [Hs|[s Hs]]; eauto 6. }
  destruct Hsome as (v & Hv & Hsome).
  apply (segmentation_epoch_start_resets_metrics w config v Hconfig Hv Hsome).
Qed.

Lemma segmentation_epoch_end_run (w : world) (is_training : bool) (l : loc)
    (config : Config) (lr : float) (lrs : list float) (schedulers : list (list float))
    (history : list value) (vs : value) (ts tl te : float) (nb ex : Z) :
  self_dict w !! "metrics" = Some (VMetrics l) ->
  self_dict w !! "config" = Some (VConfig config) ->
  trainer w = Some ((lr :: lrs) :: schedulers) ->
  self_dict w !! "epoch_start_time" = Some vs -> value_to_float vs = Ok ts ->
  self_dict w !! "total_load_time" = Some (VFloat tl) ->
  self_dict w !! "num_batches" = Some (VInt nb) ->
  self_dict w !! "num_load_time_exceeded" = Some (VInt ex) ->
  self_dict w !! "total_extra_load_time" = Some (VFloat te) ->
  self_dict w !! history_attr is_training = Some (VList history) ->
  exists w',
    epoch_end SegmentationLightning is_training w = (Ok (VMetrics (next_loc w)), w') /\
    self_dict w' !! history_attr is_training
    = Some (VList (history ++ [VMetrics (next_loc w)])) /\
    self_dict w' !! history_attr (negb is_training)
    = self_dict w !! history_attr (negb is_training) /\
    heap w' (next_loc w)
    = MetricsDict_add_metric
        (MetricsDict_add_metric (aggregate_segmentation_metrics (heap w l))
           LEARNING_RATE (NFloat lr) DEFAULT_HUE_KEY)
        SECONDS_PER_EPOCH (NFloat (PrimFloat.sub (clock (ticks w)) ts)) DEFAULT_HUE_KEY /\
    (forall l', (l' < next_loc w)%nat -> heap w' l' = heap w l').
Proof.
  intros Hmetrics Hconfig Htrainer Hvs Hts Htl Hnb Hex Hte Hhistory.
  unfold epoch_end, InnerEyeLightning_epoch_end, aggregate_metrics,
    SegmentationLightning_aggregate_metrics, new_metrics, last_learning_rate,
    store_epoch_metrics, add_metric, metric_value_of, update_metrics, format_2f,
    py_gt, history_attr in *.
  unfold_run.
  destruct is_training;
    repeat (exec;
            try match goal with
                | |- context [if 0 <? ex then _ else _] => destruct (0 <? ex)
                | |- context [trainer w] => rewrite Htrainer
                | |- context [decide (?a = ?a)] => rewrite decide_True by reflexivity
                end);
    (eexists; split; [reflexivity|]); exec;
    (split; [reflexivity|]); (split; [reflexivity|]);
    (split; [rewrite !decide_True by reflexivity; reflexivity|]);
    intros l' Hl'; rewrite !decide_False by lia; reflexivity.
Qed.

(** X20: in every state a segmentation module can reach, with a learning
    rate to read, [epoch_end] returns: its result is a new MetricsDict, the
    aggregate of [self.metrics] with the learning rate and the seconds of
    the epoch added, and it is appended to the history of its kind, while
    the other history and the MetricsDict objects made before stay as they
    are. *)
Theorem segmentation_epoch_end_returns (w : world) (is_training : bool)
    (lr : float) (lrs : list float) (schedulers : list (list float)) :
  reachable SegmentationLightning w ->
  trainer w = Some ((lr :: lrs) :: schedulers) ->
  exists (l : loc) (history : list value) (seconds : float) (w' : world),
    self_dict w !! "metrics" = Some (VMetrics l) /\
    self_dict w !! history_attr is_training = Some (VList history) /\
    epoch_end SegmentationLightning is_training w = (Ok (VMetrics (next_loc w)), w') /\
    self_dict w' !! history_attr is_training
    = Some (VList (history ++ [VMetrics (next_loc w)])) /\
    self_dict w' !! history_attr (negb is_training)
    = self_dict w !! history_attr (negb is_training) /\
    heap w' (next_loc w)
    = MetricsDict_add_metric
        (MetricsDict_add_metric (aggregate_segmentation_metrics (heap w l))
           LEARNING_RATE (NFloat lr) DEFAULT_HUE_KEY)
        SECONDS_PER_EPOCH (NFloat seconds) DEFAULT_HUE_KEY /\
    (forall l', (l' < next_loc w)%nat -> heap w' l' = heap w l').
Proof.
  intros Hw Htrainer.
  pose proof (reachable_timers_numeric _ w Hw)
    as ([ve [Hve Hse]] & _ & _ & [ex Hex] & [nb Hnb] & [te Hte] & [tl Htl]).
  pose proof (reachable_module_attrs _ w Hw) as (_ & _ & [l Hl] & [config Hconfig] & _).
  destruct (reachable_history _ w is_training Hw) as [history Hhistory].
  destruct (start_time_to_float ve Hse) as [ts Hts].
  destruct (segmentation_epoch_end_run w is_training l config lr lrs schedulers history
              ve ts tl te nb ex Hl Hconfig Htrainer Hve Hts Htl Hnb Hex Hte Hhistory)
    as (w' & Hrun & Happend & Hother & Hheap & Hold).
  exists l, history, (PrimFloat.sub (clock (ticks w)) ts), w'. auto 10.
Qed.

(** ** The MetricsDict objects that the methods modify *)

Lemma yields_keeps {A} I (m : M world A) : keeps I m -> yields I m (fun _ => True).
Proof. intros Hm w Hw. split; [apply Hm, Hw|auto]. Qed.

Lemma yields_bind {A B} I (Q : A -> Prop) (R : B -> Prop) (m : M world A)
    (k : A -> M world B) :
  yields I m Q -> (forall a, Q a -> yields I (k a) R) -> yields I (m ≫= k) R.
Proof.
  intros Hm Hk w Hw. destruct (Hm w Hw) as [Hfinal Hresult].
  unfold final, result in *. rewrite run_bind.
  destruct (m w) as [[a|e] w']; simpl in *.
  - apply Hk; [apply Hresult; reflexivity|exact Hfinal].
  - split; [exact Hfinal|discriminate].
Qed.

Lemma keeps_bind_yields {A B} I (Q : A -> Prop) (m : M world A) (k : A -> M world B) :
  yields I m Q -> (forall a, Q a -> keeps I (k a)) -> keeps I (m ≫= k).
Proof.
  intros Hm Hk w Hw.
  apply (yields_bind I Q (fun _ => True) m k Hm); [|exact Hw].
  intros a Ha. apply yields_keeps, Hk, Ha.
Qed.

Lemma keeps_ret_bind {A B} I (a : A) (k : A -> M world B) :
  keeps I (k a) -> keeps I (mret a ≫= k).
Proof. intros Hk w Hw. exact (Hk w Hw). Qed.

Section Apart.

(** The methods modify the accumulator and the objects they create, and no
    other MetricsDict. *)
Variable L : list loc.
Variable h0 : loc -> MetricsDict.

Lemma apart_same (w w' : world) :
  self_dict w' = self_dict w -> (forall l, heap w' l = heap w l) ->
  next_loc w' = next_loc w ->
  apart L h0 w -> apart L h0 w'.
Proof.
  intros Hattrs Hheap Hnext (Hfrozen & Hmetrics & Htrain & Hval).
  unfold apart. rewrite Hattrs, Hnext. split; [|auto].
  intros l Hin. rewrite Hheap. apply Hfrozen, Hin.
Qed.

Ltac same := intros w Hw; apply (apart_same w); [reflexivity|reflexivity|reflexivity|exact Hw].

Lemma ap_time_time : keeps (apart L h0) time_time.
Proof. same. Qed.

Lemma ap_logging (l : level) (m : message) : keeps (apart L h0) (logging l m).
Proof. same. Qed.

Lemma ap_set_rng (r : rng_state) : keeps (apart L h0) (modify (set_rng r)).
Proof. same. Qed.

Lemma ap_self_log (name : string) (loss : loss_value) :
  keeps (apart L h0) (self_log name loss).
Proof. same. Qed.

Lemma ap_restore_random_state (v : value) : keeps (apart L h0) (restore_random_state v).
Proof. destruct v; simpl; try apply keeps_raise. same. Qed.

Lemma ap_store_epoch_metrics (is_training : bool) (v : value) :
  keeps (apart L h0) (store_epoch_metrics is_training v).
Proof.
  unfold store_epoch_metrics. apply keeps_bind; [apply keeps_metrics_of|]. intros l. same.
Qed.

Lemma ap_setattr (name : string) (v : value) :
  name <> "metrics" -> name <> "metrics_train" -> name <> "metrics_val" ->
  keeps (apart L h0) (setattr name v).
Proof.
  intros H1 H2 H3 w (Hfrozen & Hmetrics & Htrain & Hval).
  unfold apart. simpl. rewrite !lookup_insert_ne by assumption. auto.
Qed.

Lemma ap_setattr_metrics (v : value) :
  outside L v -> keeps (apart L h0) (setattr "metrics" v).
Proof.
  intros Hv w (Hfrozen & Hmetrics & Htrain & Hval).
  unfold apart. simpl. rewrite lookup_insert_eq. rewrite !lookup_insert_ne by discriminate.
  eauto 6.
Qed.

Lemma ap_new_metrics (m : MetricsDict) : yields (apart L h0) (new_metrics m) (outside L).
Proof.
  intros w (Hfrozen & Hmetrics & Htrain & Hval). split.
  - unfold apart. simpl. split; [|auto].
    intros l Hin. destruct (Hfrozen l Hin) as [Hlt Hl].
    rewrite decide_False by lia. split; [lia|exact Hl].
  - intros a Ha. injection Ha as <-. exists (next_loc w). split; [reflexivity|].
    intros Hin. destruct (Hfrozen _ Hin) as [Hlt _]. lia.
Qed.

Lemma ap_update_metrics (l : loc) (f : MetricsDict -> MetricsDict) :
  l ∉ L -> keeps (apart L h0) (update_metrics l f).
Proof.
  intros Hl w (Hfrozen & Hmetrics & Htrain & Hval).
  unfold apart. simpl. split; [|auto].
  intros l' Hin. rewrite decide_False by (intros ->; contradiction).
  apply Hfrozen, Hin.
Qed.

Lemma ap_getattr_metrics : yields (apart L h0) (getattr "metrics") (outside L).
Proof.
  intros w Hw. pose proof Hw as (_ & (v & Hv & Hout) & _).
  rewrite (run_getattr_some _ _ _ Hv). split; [exact Hw|].
  intros a Ha. injection Ha as <-. exact Hout.
Qed.

Lemma ap_metrics_train_or_val (is_training : bool) :
  yields (apart L h0) (metrics_train_or_val is_training) (fun _ => False).
Proof.
  intros w Hw. pose proof Hw as (_ & _ & Htrain & Hval).
  unfold metrics_train_or_val.
  destruct is_training; [rewrite (run_getattr_none _ _ Htrain)|rewrite (run_getattr_none _ _ Hval)];
    (split; [exact Hw|discriminate]).
Qed.

Lemma ap_add_metric (v : value) (t : MetricType) (x : M world value) (hue : string) :
  outside L v -> keeps (apart L h0) x -> keeps (apart L h0) (add_metric v t x hue).
Proof.
  intros (l & -> & Hl) Hx. unfold add_metric. simpl metrics_of.
  apply keeps_ret_bind.
  apply keeps_bind; [exact Hx|]. intros a.
  apply keeps_bind; [apply keeps_metric_value_of|]. intros n.
  apply ap_update_metrics, Hl.
Qed.

Lemma ap_add_diagnostics (v : value) (t : MetricType) (d : tensor) :
  outside L v -> keeps (apart L h0) (add_diagnostics v t d).
Proof.
  intros (l & -> & Hl). unfold add_diagnostics. simpl metrics_of.
  apply keeps_ret_bind. apply ap_update_metrics, Hl.
Qed.

Lemma ap_aggregate_metrics (c : cls) :
  yields (apart L h0) (aggregate_metrics c) (outside L).
Proof.
  destruct c; simpl.
  - intros w Hw. split; [exact Hw|discriminate].
  - unfold SegmentationLightning_aggregate_metrics.
    apply (yields_bind _ (fun _ => True)); [apply yields_keeps, keeps_getattr|intros v _].
    apply (yields_bind _ (fun _ => True)); [apply yields_keeps, keeps_metrics_of|intros l _].
    apply (yields_bind _ (fun _ => True)); [apply yields_keeps, keeps_gets|intros m _].
    apply ap_new_metrics.
  - unfold ScalarLightning_aggregate_metrics.
    apply (yields_bind _ (fun _ => True)); [apply yields_keeps, keeps_getattr|intros v _].
    apply (yields_bind _ (fun _ => True)); [apply yields_keeps, keeps_metrics_of|intros l _].
    apply (yields_bind _ (fun _ => True)); [apply yields_keeps, keeps_gets|intros m _].
    apply ap_new_metrics.
Qed.

(** Symbolic execution of one method body against [apart]. *)
Ltac ap_step :=
  lazymatch goal with
  | |- keeps _ (mbind _ (getattr "metrics")) =>
      apply (keeps_bind_yields _ (outside L)); [apply ap_getattr_metrics|intros ? ?]
  | |- keeps _ (mbind _ (new_metrics _)) =>
      apply (keeps_bind_yields _ (outside L)); [apply ap_new_metrics|intros ? ?]
  | |- keeps _ (mbind _ (aggregate_metrics _)) =>
      apply (keeps_bind_yields _ (outside L)); [apply ap_aggregate_metrics|intros ? ?]
  | |- keeps _ (mbind _ (metrics_train_or_val _)) =>
      apply (keeps_bind_yields _ (fun _ => False));
        [apply ap_metrics_train_or_val|intros ? []]
  | |- keeps _ (mbind _ _) => apply keeps_bind; [|intros ?]
  | |- keeps _ (if _ then _ else _) => apply keeps_if
  | |- keeps _ (setattr "metrics" _) => apply ap_setattr_metrics; assumption
  | |- keeps _ (setattr _ _) => apply ap_setattr; discriminate
  | |- keeps _ (add_metric _ _ _ _) => apply ap_add_metric; [assumption|]
  | |- keeps _ (add_diagnostics _ _ _) => apply ap_add_diagnostics; assumption
  | |- keeps _ (match ?x with _ => _ end) => destruct x
  | |- keeps _ _ =>
      solve [auto using ap_time_time, ap_logging, ap_set_rng, ap_self_log,
               ap_restore_random_state, ap_store_epoch_metrics with keeps]
  end.

Ltac ap := repeat ap_step.

Lemma ap_reset_timers : keeps (apart L h0) reset_timers.
Proof. unfold reset_timers. ap. Qed.

Lemma ap_batch_start (batch_idx : Z) (is_training : bool) :
  keeps (apart L h0) (batch_start batch_idx is_training).
Proof. unfold batch_start. ap. Qed.

Lemma ap_on_batch_end : keeps (apart L h0) on_batch_end.
Proof. unfold on_batch_end. ap. Qed.

Lemma ap_write_metric (is_training : bool) (t : MetricType) (v : value) (hue : string) :
  keeps (apart L h0) (write_metric is_training t v hue).
Proof. unfold write_metric. ap. Qed.

Lemma ap_write_loss (is_training : bool) (loss : loss_value) :
  keeps (apart L h0) (write_loss is_training loss).
Proof. unfold write_loss. ap. Qed.

Lemma ap_epoch_end (c : cls) (is_training : bool) :
  keeps (apart L h0) (epoch_end c is_training).
Proof.
  destruct c; simpl; unfold InnerEyeLightning_epoch_end, ScalarLightning_epoch_end; ap.
Qed.

Lemma ap_epoch_start : keeps (apart L h0) epoch_start.
Proof. unfold epoch_start. ap. Qed.

Lemma ap_on_train_epoch_start (c : cls) : keeps (apart L h0) (on_train_epoch_start c).
Proof.
  pose proof ap_reset_timers as Hreset. pose proof ap_epoch_start as Hstart.
  assert (Hbase : keeps (apart L h0) InnerEyeLightning_on_train_epoch_start).
  { unfold InnerEyeLightning_on_train_epoch_start. ap. }
  destruct c; [exact Hbase| |exact Hbase].
  change (on_train_epoch_start SegmentationLightning)
    with SegmentationLightning_on_train_epoch_start.
  unfold SegmentationLightning_on_train_epoch_start. apply keeps_bind; auto.
Qed.

Lemma ap_on_validation_epoch_start (c : cls) :
  keeps (apart L h0) (on_validation_epoch_start c).
Proof.
  pose proof ap_reset_timers as Hreset. pose proof ap_epoch_start as Hstart.
  assert (Hbase : keeps (apart L h0) InnerEyeLightning_on_validation_epoch_start).
  { unfold InnerEyeLightning_on_validation_epoch_start. ap. }
  destruct c; [exact Hbase| |exact Hbase].
  change (on_validation_epoch_start SegmentationLightning)
    with SegmentationLightning_on_validation_epoch_start.
  unfold SegmentationLightning_on_validation_epoch_start. apply keeps_bind; auto.
Qed.

Lemma ap_store_dice (dice : list (list float)) (i : nat) (hue : string) (bs : list nat) :
  keeps (apart L h0) (store_dice dice i hue bs).
Proof.
  induction bs as [|b bs IH]; simpl; ap.
  unfold dice_item. ap.
Qed.

Lemma ap_store_hues (dice : list (list float)) (voxels : list num) (i : nat)
    (hue_names : list string) :
  keeps (apart L h0) (store_hues dice voxels i hue_names).
Proof.
  pose proof ap_store_dice as Hdice.
  revert i. induction hue_names as [|hue rest IH]; intros i; simpl; ap.
  unfold voxels_item. ap.
Qed.

Lemma ap_segmentation_step (sample : batch) (batch_index : Z) (is_training : bool) :
  keeps (apart L h0)
        (SegmentationLightning_training_or_validation_step sample batch_index is_training).
Proof.
  pose proof ap_store_hues as Hhues. pose proof ap_write_loss as Hloss.
  unfold SegmentationLightning_training_or_validation_step. cbv zeta. ap.
Qed.

Lemma ap_scalar_step (sample : batch) (batch_index : Z) (is_training : bool) :
  keeps (apart L h0)
        (ScalarLightning_training_or_validation_step sample batch_index is_training).
Proof.
  pose proof ap_write_loss as Hloss.
  unfold ScalarLightning_training_or_validation_step. cbv zeta. ap.
Qed.

Lemma ap_discard {A} (m : M world A) :
  keeps (apart L h0) m -> keeps (apart L h0) (discard m).
Proof. intros Hm. unfold discard. apply keeps_bind; [exact Hm|intros a; apply keeps_ret]. Qed.

Lemma ap_call (c : cls) (m : method) : keeps (apart L h0) (call c m).
Proof.
  pose proof ap_epoch_end as Hend.
  pose proof ap_segmentation_step as Hseg.
  pose proof ap_scalar_step as Hscalar.
  destruct m; cbn [call].
  - unfold configure_optimizers. ap.
  - unfold on_train_epoch_end, snapshot_random_state. ap.
  - unfold on_validation_epoch_end. ap.
  - apply ap_on_train_epoch_start.
  - apply ap_on_validation_epoch_start.
  - apply ap_discard, Hend.
  - apply ap_batch_start.
  - apply ap_batch_start.
  - apply ap_batch_start.
  - apply ap_on_batch_end.
  - apply ap_reset_timers.
  - apply ap_discard. intros w Hw. apply (ap_aggregate_metrics c w Hw).
  - apply ap_write_metric.
  - apply ap_write_loss.
  - destruct c; [ap| |].
    + destruct inputs as [|patches [|]]; try (ap; fail).
      apply ap_discard. unfold SegmentationLightning_forward. ap.
    + apply ap_discard.
      unfold ScalarLightning_forward, ScalarLightning_logits_to_posterior. ap.
  - destruct c; try (ap; fail).
    apply ap_discard. unfold ScalarLightning_logits_to_posterior. ap.
  - destruct c; try (ap; fail). apply ap_epoch_start.
  - destruct c; try (ap; fail). apply ap_discard, Hseg.
  - destruct c; try (ap; fail). apply ap_discard, Hseg.
  - destruct c; try (ap; fail); apply ap_discard; [apply Hseg|apply Hscalar].
Qed.

Lemma runs_alone_apart (c : cls) (w w' : world) :
  runs_alone c w w' -> apart L h0 w -> apart L h0 w'.
Proof.
  induction 1 as [w|m w w' Hrun IH|w w1 w' Hattrs Hheap Hnext Hrun IH]; intros Hw.
  - exact Hw.
  - apply IH, ap_call, Hw.
  - apply IH. apply (apart_same w); assumption.
Qed.

End Apart.

(** X21: the methods modify no MetricsDict but the accumulator [self.metrics]
    and the objects they create themselves.  Over every run of calls on a
    module of any class, with [metrics_train] and [metrics_val] absent, every
    MetricsDict that exists at the start and is not the accumulator is at the
    end as it was at the start; so the results that [epoch_end] appended to a
    history are never changed by later batches and epochs. *)
Theorem methods_modify_only_their_metrics (c : cls) (w w' : world) (accumulator : loc)
    (l : loc) :
  runs_alone c w w' ->
  self_dict w !! "metrics" = Some (VMetrics accumulator) ->
  self_dict w !! "metrics_train" = None ->
  self_dict w !! "metrics_val" = None ->
  (l < next_loc w)%nat -> l <> accumulator ->
  heap w' l = heap w l.
Proof.
  intros Hrun Hmetrics Htrain Hval Hexists Hother.
  assert (Hstart : apart [l] (heap w) w).
  { unfold apart. split; [|split; [|split; assumption]].
    - intros l' Hin. apply list_elem_of_singleton in Hin. subst l'.
      split; [exact Hexists|reflexivity].
    - exists (VMetrics accumulator). split; [exact Hmetrics|].
      exists accumulator. split; [reflexivity|].
      intros Hin. apply list_elem_of_singleton in Hin. congruence. }
  destruct (runs_alone_apart [l] (heap w) c w w' Hrun Hstart) as (Hfrozen & _).
  apply Hfrozen. apply list_elem_of_singleton. reflexivity.
Qed.

(** ** The metrics of an epoch, in the modules that exist *)







End Properties.

(** * The properties on the sample runs *)

Lemma sample_epoch_reachable (c : cls) : reachable c (sample_epoch c).
Proof. unfold sample_epoch, sample_module. apply reachable_call. apply reachable_init. Qed.

(** The constructor of a scalar module raises before it returns. *)
Lemma scalar_init_on_sample :
  result (@init sample_torch sample_run ScalarLightning sample_config
            (sample_world sample_step))
  = Raise (AttributeError "model_config").
Proof. vm_compute. reflexivity. Qed.

(** The end of a training epoch on the sample segmentation module appends the
    aggregated MetricsDict. *)
Lemma segmentation_epoch_end_on_sample :
  let r := on_train_epoch_end SegmentationLightning (sample_epoch SegmentationLightning) in
  result r = Ok tt /\
  self_dict (final r) !! "train_metrics_per_epoch" = Some (VList [VMetrics 2%nat]).
Proof. vm_compute. split; reflexivity. Qed.

Lemma metrics_train_and_val_never_assigned_witness :
  reachable SegmentationLightning (sample_epoch SegmentationLightning) /\
  result (@SegmentationLightning_training_or_validation_step sample_torch sample_run
            5 1 true (sample_epoch SegmentationLightning))
  = Raise (AttributeError "metrics_train").
Proof.
  assert (Hr : reachable SegmentationLightning (sample_epoch SegmentationLightning))
    by apply sample_epoch_reachable.
  split; [exact Hr|].
  destruct (metrics_train_and_val_never_assigned SegmentationLightning _ Hr)
    as (_ & _ & _ & Hstep).
  apply (Hstep eq_refl 5 1 true) with (l := 1%nat).
  - vm_compute. reflexivity.
  - split.
    + intros segmentation ground_truth use_cuda. vm_compute. repeat constructor.
    + intros labels. vm_compute. repeat constructor.
Defined.

Lemma batch_start_adds_load_time_witness :
  let w := sample_epoch SegmentationLightning in
  let w' := final (batch_start 1 true w) in
  let load := measured_load_time w (sample_clock sample_step 1) in
  self_dict w' !! "total_load_time" = Some (VFloat (PrimFloat.add f0 load)) /\
  self_dict w' !! "num_load_time_exceeded" = Some (VInt (0 + 1)) /\
  self_dict w' !! "total_extra_load_time" = Some (VFloat (PrimFloat.add f0 load)).
Proof.
  intros w w' load.
  destruct (batch_start_adds_load_time w 1 true
              (VFloat (sample_clock sample_step 1)) (VFloat f0)
              (sample_clock sample_step 1) f0)
    as (_ & Htotal & Hslow); try (vm_compute; reflexivity).
  split; [exact Htotal|].
  apply (Hslow 0 (VFloat f0) f0); try (vm_compute; reflexivity).
Defined.

Lemma random_state_checkpoint_witness :
  let w := sample_epoch SegmentationLightning in
  let w1 := set_rng (7 : @rng_state sample_torch sample_run) (final (on_train_epoch_end SegmentationLightning w)) in
  rng (final (on_train_epoch_start SegmentationLightning w1)) = rng w /\
  rng (final (on_train_epoch_start SegmentationLightning
                (sample_module SegmentationLightning)))
  = rng (sample_module SegmentationLightning).
Proof.
  intros w w1. split.
  - destruct (random_state_checkpoint SegmentationLightning w) as (_ & _ & Hnext & _).
    apply Hnext. vm_compute. reflexivity.
  - destruct (random_state_checkpoint SegmentationLightning
                (sample_module SegmentationLightning)) as (_ & _ & _ & Hfirst & _).
    apply Hfirst. vm_compute. reflexivity.
Defined.

Lemma aggregate_metrics_abstract_in_base_witness :
  let w := sample_epoch SegmentationLightning in
  exists l,
    self_dict w !! "metrics" = Some (VMetrics l) /\
    result (aggregate_metrics SegmentationLightning w) = Ok (VMetrics (next_loc w)) /\
    heap (final (aggregate_metrics SegmentationLightning w)) (next_loc w)
    = @aggregation sample_torch sample_run SegmentationLightning (heap w l) /\
    self_dict (final (aggregate_metrics SegmentationLightning w)) = self_dict w.
Proof.
  intros w.
  apply (proj2 (aggregate_metrics_abstract_in_base SegmentationLightning w)).
  - discriminate.
  - apply sample_epoch_reachable.
Defined.

Lemma forward_is_softmax_of_model_witness :
  let w := sample_epoch SegmentationLightning in
  @SegmentationLightning_forward sample_torch sample_run 5 w
  = (Ok (@softmax sample_torch (@model_call sample_torch sample_run [5]) 1), w).
Proof.
  intros w.
  apply (proj1 (@forward_is_softmax_of_model sample_torch sample_run w 5
                  (sample_epoch_reachable SegmentationLightning))).
Defined.

Lemma load_time_warnings_bounded_witness :
  Forall is_batch_call sample_batches /\
  let w0 := final (reset_timers (sample_module SegmentationLightning)) in
  let w' := final (calls SegmentationLightning sample_batches w0) in
  result (calls SegmentationLightning sample_batches w0) = Ok tt /\
  exists n : Z,
    self_dict w' !! "num_load_time_warnings" = Some (VInt n) /\
    0 <= n <= MAX_LOAD_TIME_WARNINGS /\
    slow_warnings (log_records w')
    = slow_warnings (log_records (sample_module SegmentationLightning)) + n.
Proof.
  assert (Hcalls : Forall is_batch_call sample_batches)
    by (unfold sample_batches; repeat constructor).
  split; [exact Hcalls|].
  destruct (load_time_warnings_bounded SegmentationLightning sample_batches
              (sample_module SegmentationLightning) Hcalls)
    as (_ & _ & Hok & Hbound).
  split; [exact Hok|exact Hbound].
Defined.

Lemma first_batch_is_never_slow_witness :
  let w := sample_epoch SegmentationLightning in
  let w' := final (batch_start 0 true w) in
  self_dict w' !! "total_load_time"
  = Some (VFloat (PrimFloat.add f0 (measured_load_time w (sample_clock sample_step 1)))).
Proof.
  intros w w'.
  apply (proj2 (first_batch_is_never_slow w true)
           (VFloat (sample_clock sample_step 1)) (VFloat f0)
           (sample_clock sample_step 1) f0);
    vm_compute; reflexivity.
Defined.

(** ** The further properties on the sample runs *)

Lemma runs_assign_only_witness :
  self_dict (sample_epoch SegmentationLightning) !! "config"
  = self_dict (sample_module SegmentationLightning) !! "config".
Proof.
  apply (runs_assign_only SegmentationLightning (sample_module SegmentationLightning)
           (sample_epoch SegmentationLightning) "config").
  - unfold sample_epoch.
    apply (@runs_call sample_torch sample_run SegmentationLightning
             (@m_on_train_epoch_start _ _)).
    apply runs_refl.
  - intros Hin. apply list_elem_of_In in Hin. simpl in Hin. intuition discriminate.
Defined.

Lemma self_dict_set_rng `{Collaborators} (r : rng_state) (w : world) :
  self_dict (set_rng r w) = self_dict w.
Proof. reflexivity. Qed.

Lemma snapshot_survives_to_next_epoch_witness :
  let w := sample_epoch SegmentationLightning in
  let w1 := final (call SegmentationLightning (@m_on_validation_epoch_start _ _)
                     (final (on_train_epoch_end SegmentationLightning w))) in
  let w2 := set_rng (7 : @rng_state sample_torch sample_run) w1 in
  rng (final (on_train_epoch_start SegmentationLightning w2)) = rng w.
Proof.
  intros w w1 w2.
  assert (Hrun : between_epochs SegmentationLightning
                   (final (on_train_epoch_end SegmentationLightning w)) w2).
  { apply (@between_call sample_torch sample_run SegmentationLightning
             (@m_on_validation_epoch_start _ _)); [discriminate|].
    apply (@between_outside sample_torch sample_run SegmentationLightning w1 w2 w2).
    - apply self_dict_set_rng.
    - apply between_refl. }
  exact (proj2 (snapshot_survives_to_next_epoch SegmentationLightning w w2 Hrun)).
Defined.

Lemma history_lists_only_grow_witness :
  let w := sample_epoch SegmentationLightning in
  let w' := final (on_train_epoch_end SegmentationLightning w) in
  exists h', self_dict w' !! "train_metrics_per_epoch" = Some (VList ([] ++ h')).
Proof.
  intros w w'.
  apply (history_lists_only_grow SegmentationLightning w w' true []).
  - apply (@runs_call sample_torch sample_run SegmentationLightning
             (@m_on_train_epoch_end _ _)).
    apply runs_refl.
  - vm_compute. reflexivity.
Defined.

Lemma configure_optimizers_needs_a_model_witness :
  let w := sample_epoch InnerEyeLightning in
  configure_optimizers w = (Raise (AttributeError "model"), w).
Proof.
  intros w.
  apply (configure_optimizers_needs_a_model InnerEyeLightning w).
  apply sample_epoch_reachable.
Defined.

Lemma validation_epoch_starts_from_seed_witness :
  let w := set_rng (7 : @rng_state sample_torch sample_run)
             (sample_module SegmentationLightning) in
  rng (final (on_validation_epoch_start SegmentationLightning w))
  = @set_random_seed sample_torch sample_run 42.
Proof.
  intros w.
  apply (proj1 (validation_epoch_starts_from_seed SegmentationLightning w sample_config
                  ltac:(vm_compute; reflexivity))).
Defined.

Lemma load_time_is_time_since_batch_end_witness :
  let w := sample_epoch SegmentationLightning in
  let w1 := final (on_batch_end w) in
  let w2 := final (batch_start 1 true w1) in
  self_dict w2 !! "total_load_time"
  = Some (VFloat (PrimFloat.add f0
                    (PrimFloat.sub (@clock sample_torch sample_run (S (ticks w)))
                       (@clock sample_torch sample_run (ticks w))))).
Proof.
  intros w w1 w2.
  destruct (load_time_is_time_since_batch_end w 1 true (VFloat f0) f0)
    as (_ & _ & Htotal).
  - vm_compute. reflexivity.
  - reflexivity.
  - exact Htotal.
Defined.

Lemma epoch_counters_follow_the_batches_witness :
  Forall is_batch_call sample_batches /\
  let w := sample_module SegmentationLightning in
  let w' := final (calls SegmentationLightning sample_batches (final (reset_timers w))) in
  let slow := slow_starts sample_batches (S (S (ticks w)))
                (@clock sample_torch sample_run (S (ticks w))) in
  length slow = 4%nat /\
  self_dict w' !! "num_load_time_exceeded" = Some (VInt (Z.of_nat (length slow))) /\
  self_dict w' !! "num_load_time_warnings"
  = Some (VInt (Z.min (Z.of_nat (length slow)) MAX_LOAD_TIME_WARNINGS)) /\
  filter (fun r => is_slow_warning r = true) (log_records w')
  = (filter (fun r => is_slow_warning r = true) (log_records w)
     ++ map slow_warning (take (Z.to_nat MAX_LOAD_TIME_WARNINGS) slow))%list.
Proof.
  assert (Hcalls : Forall is_batch_call sample_batches)
    by (unfold sample_batches; repeat constructor).
  split; [exact Hcalls|].
  intros w w' slow.
  destruct (epoch_counters_follow_the_batches SegmentationLightning sample_batches w Hcalls)
    as (_ & Hexceeded & _ & Hwarnings & Hlog).
  split; [vm_compute; reflexivity|].
  split; [exact Hexceeded|]. split; [exact Hwarnings|exact Hlog].
Defined.

Lemma hooks_return_in_every_state_witness :
  let w := sample_epoch SegmentationLightning in
  result (batch_start 1 true w) = Ok tt /\
  result (on_batch_end w) = Ok tt /\
  result (on_train_epoch_start SegmentationLightning w) = Ok tt /\
  result (on_validation_epoch_start SegmentationLightning w) = Ok tt.
Proof.
  intros w.
  destruct (hooks_return_in_every_state SegmentationLightning w
              (sample_epoch_reachable SegmentationLightning)) as (Hbatch & Hrest).
  split; [apply Hbatch|exact Hrest].
Defined.

Lemma segmentation_epoch_starts_with_fresh_metrics_witness :
  let w := sample_epoch SegmentationLightning in
  exists config,
    self_dict w !! "config" = Some (VConfig config) /\
    result (on_train_epoch_start SegmentationLightning w) = Ok tt /\
    heap (final (on_train_epoch_start SegmentationLightning w)) (next_loc w)
    = MetricsDict_new (@BACKGROUND_CLASS_NAME sample_torch sample_run
                         :: ground_truth_ids config).
Proof.
  intros w.
  destruct (segmentation_epoch_starts_with_fresh_metrics w
              (sample_epoch_reachable SegmentationLightning))
    as (config & Hconfig & (Hok & _ & Hheap & _) & _).
  exists config. auto.
Defined.

Lemma segmentation_epoch_end_returns_witness :
  let w := sample_epoch SegmentationLightning in
  exists (history : list value) (w' : world),
    self_dict w !! "train_metrics_per_epoch" = Some (VList history) /\
    epoch_end SegmentationLightning true w = (Ok (VMetrics (next_loc w)), w') /\
    self_dict w' !! "train_metrics_per_epoch"
    = Some (VList (history ++ [VMetrics (next_loc w)])).
Proof.
  intros w.
  destruct (segmentation_epoch_end_returns w true f1 [] []
              (sample_epoch_reachable SegmentationLightning) ltac:(vm_compute; reflexivity))
    as (l & history & seconds & w' & _ & Hhistory & Hrun & Happend & _).
  exists history, w'. auto.
Defined.

Lemma segmentation_epoch_end_reports_witness :
  let w := sample_epoch SegmentationLightning in
  let w' := final (epoch_end SegmentationLightning true w) in
  stored_epochs w'
  = (stored_epochs w ++ [mkStored true (current_epoch w) (heap w' (next_loc w))])%list.
Proof.
  intros w w'.
  destruct (segmentation_epoch_end_reports w true 1%nat sample_config f1 [] [] []
              (sample_clock sample_step 0) f0 f0 0 0)
    as (_ & Hstored & _).
  - vm_compute. reflexivity.
  - vm_compute. reflexivity.
  - vm_compute. reflexivity.
  - repeat split; vm_compute; reflexivity.
  - vm_compute. reflexivity.
  - exact Hstored.
Defined.

Lemma epoch_end_needs_a_learning_rate_witness :
  let w := sample_untrained SegmentationLightning in
  result (epoch_end SegmentationLightning true w) = Raise (AttributeError "lr_schedulers") /\
  next_loc (final (epoch_end SegmentationLightning true w)) = next_loc w.
Proof.
  intros w.
  destruct (epoch_end_needs_a_learning_rate SegmentationLightning w true
              (sample_clock sample_step 0) f0 f0 0 0 (AttributeError "lr_schedulers"))
    as (Hraise & _ & _ & Hnext & _).
  - discriminate.
  - repeat split; vm_compute; reflexivity.
  - vm_compute. reflexivity.
  - split; assumption.
Defined.

Lemma base_epoch_end_not_implemented_witness :
  let w := sample_epoch InnerEyeLightning in
  result (epoch_end InnerEyeLightning true w)
  = Raise (NotImplementedError "This method must be overwritten in a derived class.").
Proof.
  intros w.
  destruct (base_epoch_end_not_implemented w true f1 [] []
              (sample_clock sample_step 0) f0 f0 0 0)
    as (Hraise & _).
  - repeat split; vm_compute; reflexivity.
  - vm_compute. reflexivity.
  - exact Hraise.
Defined.

Lemma segmentation_step_stores_batch_metrics_witness :
  let w := sample_epoch SegmentationLightning in
  let w' := final (@SegmentationLightning_training_or_validation_step
                     sample_torch sample_run 5 1 true w) in
  values (heap w' 1%nat)
  = [("Default", LOSS, NFloat f0);
     ("background", DICE, NFloat f1); ("background", VOXEL_COUNT, NInt 7);
     ("spleen", DICE, NFloat f0); ("spleen", VOXEL_COUNT, NInt 5)].
Proof.
  intros w w'.
  destruct (segmentation_step_stores_batch_metrics w 5 1 true 1%nat sample_config
              (sample_epoch_reachable SegmentationLightning))
    as (Hvalues & _).
  - vm_compute. reflexivity.
  - vm_compute. reflexivity.
  - split.
    + intros segmentation ground_truth use_cuda. vm_compute. repeat constructor.
    + intros labels. vm_compute. repeat constructor.
  - fold w' in Hvalues. rewrite Hvalues. vm_compute. reflexivity.
Defined.

Lemma sample_LightningDataModule_init_frame
    (args : list (@value sample_torch sample_run)) (d : gmap string value) :
  @final (gmap string value) unit (sample_LightningDataModule_init args d) !! "config"
  = d !! "config" /\
  @final (gmap string value) unit (sample_LightningDataModule_init args d) !! "data_loaders"
  = d !! "data_loaders".
Proof.
  unfold sample_LightningDataModule_init, dm_setattr, modify, final, data_module. simpl.
  split; apply lookup_insert_ne; discriminate.
Qed.

Lemma data_module_without_init_stays_empty_witness :
  let d : gmap string value :=
    @final (gmap string value) unit
      (dm_construct sample_LightningDataModule_init [VConfig sample_config] ∅) in
  d !! "config" = None /\
  setup d = (Raise (AttributeError "config"), d) /\
  train_dataloader d = (Raise (AttributeError "data_loaders"), d) /\
  dm_calls [dm_setup; dm_train_dataloader; dm_setup; dm_val_dataloader] d = d.
Proof.
  intros d.
  destruct (data_module_without_init_stays_empty sample_LightningDataModule_init
              sample_LightningDataModule_init_frame [VConfig sample_config] ∅)
    as (Hconfig & _ & Hsetup & Htrain & _ & Hcalls).
  - reflexivity.
  - fold d in Hconfig, Hsetup, Htrain, Hcalls.
    split; [exact Hconfig|]. split; [exact Hsetup|]. split; [exact Htrain|apply Hcalls].
Defined.

Lemma methods_modify_only_their_metrics_witness :
  let w := final (on_train_epoch_end SegmentationLightning
                    (sample_epoch SegmentationLightning)) in
  let w' := final (call SegmentationLightning (@m_training_step sample_torch sample_run 5 1)
                     (final (call SegmentationLightning (@m_on_train_epoch_start _ _) w))) in
  self_dict w !! "train_metrics_per_epoch" = Some (VList [VMetrics 2%nat]) /\
  heap w' 2%nat = heap w 2%nat.
Proof.
  intros w w'. split; [vm_compute; reflexivity|].
  apply (methods_modify_only_their_metrics SegmentationLightning w w' 1%nat 2%nat).
  - subst w'.
    apply (@alone_call sample_torch sample_run SegmentationLightning
             (@m_on_train_epoch_start _ _)).
    apply (@alone_call sample_torch sample_run SegmentationLightning
             (@m_training_step sample_torch sample_run 5 1)).
    apply alone_refl.
  - vm_compute. reflexivity.
  - vm_compute. reflexivity.
  - vm_compute. reflexivity.
  - vm_compute. repeat constructor.
  - discriminate.
Defined.


